(** * Verification of the in-page job-form agent (class [JobFormDetector])

    A shallow embedding of the content script of the browser extension:
    the field classifier with its pattern taxonomy and fuzzy matcher, form
    and cluster discovery, the selector resolver, the select and radio
    writers, and the liveness / invalidation protocol; then the lookup
    of values in the form data, the filling of a page, the writers for
    text, locations and checkboxes, the reports on forms, their bounds
    and the platform, and the tab bookkeeping of the background script.

    Conventions of the embedding.
    - JavaScript strings are [string]s over ASCII; [toLowerCase], [trim]
      and the regular-expression class [\s] are the ASCII ones.
    - A DOM node is a record of the properties the script reads, together
      with a [node] number standing for object identity ([===]).
    - Similarities and confidences are the exact rationals that the
      script's binary64 numbers approximate.  A comparison [n/m > c] on
      doubles, with [c] one of 0.7, 0.5 and 0.3, agrees with the
      comparison of rationals for all whole [n] and [m] below 2^50: a
      quotient of such integers is never within a rounding error of [c]
      without being equal to it.
    - The weighted score of a form is computed on binary64 floats, as the
      script does. *)

From Stdlib Require Import List String Ascii Bool Arith ZArith QArith Lia.
From Stdlib Require Import DecimalString PrimFloat FloatOps Permutation.
Import ListNotations.

Set Warnings "-inexact-float,-register-all".

Close Scope Q_scope.
Open Scope string_scope.

(** ** JavaScript string primitives *)

Module Str.

Definition lower_char (c : ascii) : ascii :=
  let n := nat_of_ascii c in
  if (65 <=? n)%nat && (n <=? 90)%nat then ascii_of_nat (n + 32) else c.

(** [s.toLowerCase()] *)
Fixpoint toLowerCase (s : string) : string :=
  match s with
  | EmptyString => EmptyString
  | String c s' => String (lower_char c) (toLowerCase s')
  end.

(** [text.includes(pattern)] *)
Fixpoint includes (text pattern : string) : bool :=
  if String.prefix pattern text then true
  else match text with
       | EmptyString => false
       | String _ rest => includes rest pattern
       end.

(** The class [\s] of regular expressions. *)
Definition is_space (c : ascii) : bool :=
  let n := nat_of_ascii c in
  ((9 <=? n)%nat && (n <=? 13)%nat) || (n =? 32)%nat.

Definition is_letter (c : ascii) : bool :=
  let n := nat_of_ascii c in
  ((65 <=? n)%nat && (n <=? 90)%nat) || ((97 <=? n)%nat && (n <=? 122)%nat).

Definition is_digit (c : ascii) : bool :=
  let n := nat_of_ascii c in (48 <=? n)%nat && (n <=? 57)%nat.

Fixpoint trimStart (s : string) : string :=
  match s with
  | String c s' => if is_space c then trimStart s' else s
  | EmptyString => EmptyString
  end.

Fixpoint rev_string (acc s : string) : string :=
  match s with
  | EmptyString => acc
  | String c s' => rev_string (String c acc) s'
  end.

(** [s.trim()] *)
Definition trim (s : string) : string :=
  rev_string "" (trimStart (rev_string "" (trimStart s))).

Fixpoint forallb_string (p : ascii -> bool) (s : string) : bool :=
  match s with
  | EmptyString => true
  | String c s' => p c && forallb_string p s'
  end.

(** The two alternatives of the separator expression [/\s+|[_-]+/]. *)
Inductive sep := SepSpace | SepDash.

Definition sep_eqb (a b : sep) : bool :=
  match a, b with
  | SepSpace, SepSpace | SepDash, SepDash => true
  | _, _ => false
  end.

Definition sep_of (c : ascii) : option sep :=
  if is_space c then Some SepSpace
  else if (Ascii.eqb c "_" || Ascii.eqb c "-")%bool then Some SepDash
  else None.

(** [s.split(/\s+|[_-]+/)], scanning left to right: [tok] is the token
    read so far (reversed) and [run] the alternative whose match is being
    consumed.  A separator of the other alternative right after a match
    starts a new match, which leaves an empty token between the two. *)
Fixpoint split_go (tok : string) (run : option sep) (s : string) : list string :=
  match s with
  | EmptyString => [rev_string "" tok]
  | String c s' =>
      match sep_of c with
      | None => split_go (String c tok) None s'
      | Some k =>
          match run with
          | Some k' =>
              if sep_eqb k k' then split_go tok run s'
              else rev_string "" tok :: split_go "" (Some k) s'
          | None => rev_string "" tok :: split_go "" (Some k) s'
          end
      end
  end.

Definition split_words (s : string) : list string := split_go "" None s.

(** [s.split(' ')] *)
Fixpoint split_space_go (tok : string) (s : string) : list string :=
  match s with
  | EmptyString => [rev_string "" tok]
  | String c s' =>
      if Ascii.eqb c " " then rev_string "" tok :: split_space_go "" s'
      else split_space_go (String c tok) s'
  end.

Definition split_space (s : string) : list string := split_space_go "" s.

(** [parts.join(sep)] *)
Fixpoint join (sepr : string) (parts : list string) : string :=
  match parts with
  | [] => ""
  | [p] => p
  | p :: rest => p ++ sepr ++ join sepr rest
  end.

(** The double quote, and the one-character string holding it. *)
Definition dquote : ascii := "034"%char.
Definition dq : string := String dquote "".

(** JavaScript truthiness of a string. *)
Definition truthy (s : string) : bool :=
  match s with EmptyString => false | _ => true end.

(** [a || b] on strings. *)
Definition or_else (a b : string) : string := if truthy a then a else b.

End Str.

(** ** Fuzzy matcher *)

Module Matcher.
Import Str.

(** [hasWordOverlap(words1, words2)]: the two [Set]s hold the words
    longer than two characters. *)
Definition long_word (w : string) : bool := (2 <? String.length w)%nat.

Definition hasWordOverlap (words1 words2 : list string) : bool :=
  let set1 := filter long_word words1 in
  let set2 := filter long_word words2 in
  existsb (fun word => existsb (String.eqb word) set1) set2.

Definition min3 (a b c : nat) : nat := Nat.min (Nat.min a b) c.

(** One row of the matrix of [levenshteinDistance]: [prev] is row
    [j - 1] from column [i - 1] on, [left] is [matrix[j][i - 1]]. *)
Fixpoint lev_row (c2 : ascii) (str1 : string) (prev : list nat) (left : nat)
  : list nat :=
  match str1, prev with
  | String c1 rest, diag :: ((up :: _) as prev') =>
      let cost := if Ascii.eqb c1 c2 then 0 else 1 in
      let cell := min3 (up + 1) (left + 1) (diag + cost) in
      cell :: lev_row c2 rest prev' cell
  | _, _ => []
  end.

Fixpoint lev_rows (str1 str2 : string) (j : nat) (prev : list nat) : list nat :=
  match str2 with
  | EmptyString => prev
  | String c2 rest => lev_rows str1 rest (S j) (S j :: lev_row c2 str1 prev (S j))
  end.

(** [levenshteinDistance(str1, str2)]: row 0 is [0 .. str1.length],
    column 0 of row [j] is [j]; the result is the last cell. *)
Definition levenshteinDistance (str1 str2 : string) : nat :=
  last (lev_rows str1 str2 0 (seq 0 (S (String.length str1)))) 0.

(** [calculateSimilarity(str1, str2)] *)
Definition calculateSimilarity (str1 str2 : string) : Q :=
  let longer := if (String.length str2 <? String.length str1)%nat then str1 else str2 in
  let shorter := if (String.length str2 <? String.length str1)%nat then str2 else str1 in
  match String.length longer with
  | O => 1%Q
  | S _ =>
      let editDistance := levenshteinDistance longer shorter in
      ((Z.of_nat (String.length longer) - Z.of_nat editDistance)
         # Pos.of_nat (String.length longer))%Q
  end.

(** [a > b] on numbers. *)
Definition Qgtb (a b : Q) : bool := negb (Qle_bool a b).

(** [Math.max(a, b)] *)
Definition Qmaxb (a b : Q) : Q := if Qle_bool a b then b else a.

(** [fuzzyMatchField(text, patterns)]: three passes over the list. *)
Definition fuzzyMatchField (text : string) (patterns : list string) : bool :=
  if existsb (fun pattern => includes text pattern) patterns then true
  else
    let words := split_words text in
    if existsb (fun pattern => hasWordOverlap words (split_words pattern)) patterns
    then true
    else existsb (fun pattern => Qgtb (calculateSimilarity text pattern) (7 # 10)%Q) patterns.

(** [calculateMatchConfidence(text, patterns)] *)
Definition calculateMatchConfidence (text : string) (patterns : list string) : Q :=
  fold_left
    (fun maxConfidence pattern =>
       if includes text pattern then Qmaxb maxConfidence 1%Q
       else Qmaxb maxConfidence (calculateSimilarity text pattern))
    patterns 0%Q.

End Matcher.

(** ** Pattern taxonomy *)

Module Taxonomy.

(** The object [fieldPatterns] of [identifyField]: category, then field
    type, then patterns, in the order of the object literal, which is
    the order [Object.entries] walks it in. *)
Definition fieldPatterns : list (string * list (string * list string)) :=
  [ ("personalInfo",
      [ ("fullName",
          [ "full_name"; "fullname"; "name"; "full-name"; "candidate_name";
            "applicant_name"; "user_name"; "your_name"; "contact_name" ]);
        ("firstName",
          [ "first"; "fname"; "given"; "name_first"; "firstname"; "givenname";
            "forename"; "first_name"; "name-first"; "user_first"; "personal_first";
            "first-name"; "given_name"; "given-name" ]);
        ("lastName",
          [ "last"; "lname"; "family"; "surname"; "name_last"; "lastname";
            "familyname"; "name-last"; "user_last"; "personal_last";
            "last-name"; "family_name"; "family-name"; "sur_name" ]);
        ("email",
          [ "email"; "mail"; "e-mail"; "email_address"; "emailaddress";
            "user_email"; "contact_email"; "work_email" ]);
        ("phone",
          [ "phone"; "mobile"; "cell"; "tel"; "telephone"; "contact";
            "phone_number"; "phonenumber"; "mobile_number"; "cell_phone";
            "work_phone"; "home_phone"; "phone-number"; "mobile-number";
            "contact_number"; "contact-number"; "contact_phone"; "primary_phone";
            "phone_primary"; "tel_number"; "telephone_number" ]);
        ("address",
          [ "address"; "street"; "location"; "address_line"; "street_address";
            "home_address"; "mailing_address"; "residence" ]);
        ("city", [ "city"; "town"; "municipality"; "locality" ]);
        ("state", [ "state"; "province"; "region"; "territory" ]);
        ("zipCode", [ "zip"; "postal"; "postcode"; "zip_code"; "postal_code" ]);
        ("country", [ "country"; "nation"; "nationality" ]);
        ("linkedin",
          [ "linkedin"; "linked_in"; "linkedin_url"; "linkedin_profile";
            "linkedin-url"; "linkedin-profile"; "linked-in"; "linkedinurl";
            "linkedin_link"; "linkedin-link"; "professional_profile";
            "social_linkedin"; "linkedin_username" ]);
        ("portfolio",
          [ "portfolio"; "website"; "github"; "personal_site"; "web";
            "homepage"; "blog"; "portfolio_url" ]) ]);
    ("experience",
      [ ("summary",
          [ "experience"; "work_experience"; "professional_experience";
            "background"; "work_history"; "career_summary"; "summary";
            "bio"; "about"; "description" ]);
        ("company",
          [ "company"; "employer"; "organization"; "current_company";
            "workplace"; "firm"; "corporation" ]);
        ("title",
          [ "title"; "position"; "role"; "job_title"; "current_title";
            "current_position"; "job_role"; "designation" ]);
        ("years",
          [ "years"; "experience_years"; "years_experience"; "tenure";
            "duration"; "work_years"; "total_experience" ]) ]);
    ("education",
      [ ("degree",
          [ "degree"; "education"; "education_level"; "qualification";
            "diploma"; "certificate"; "academic_degree" ]);
        ("university",
          [ "university"; "college"; "school"; "institution"; "alma_mater";
            "educational_institution"; "academy" ]);
        ("major",
          [ "major"; "field"; "study"; "subject"; "specialization";
            "concentration"; "discipline"; "area_of_study" ]);
        ("graduationYear",
          [ "graduation"; "grad_year"; "completion"; "year_graduated";
            "finish_year"; "completion_year" ]);
        ("gpa", [ "gpa"; "grade"; "marks"; "score"; "cgpa"; "average" ]) ]);
    ("skills",
      [ ("technical",
          [ "skills"; "technical_skills"; "programming"; "technologies";
            "languages"; "frameworks"; "tools"; "competencies" ]) ]);
    ("other",
      [ ("coverLetter",
          [ "cover"; "letter"; "motivation"; "why"; "cover_letter";
            "personal_statement"; "objective"; "interest" ]);
        ("salary",
          [ "salary"; "compensation"; "expected_salary"; "pay";
            "wage"; "remuneration"; "salary_expectation" ]);
        ("availability",
          [ "availability"; "start_date"; "available"; "notice";
            "when_available"; "start_time" ]);
        ("workAuthorization",
          [ "authorization"; "visa"; "eligible"; "authorized"; "sponsor";
            "work_permit"; "legal_status"; "employment_authorization";
            "work_authorization"; "work-authorization"; "visa_status";
            "visa-status"; "sponsorship"; "legally_authorized"; "work_eligible";
            "employment_eligible"; "require_sponsorship"; "visa_required";
            "work_visa"; "employment_visa"; "legal_work"; "us_citizen" ]);
        ("willingToRelocate",
          [ "relocate"; "relocation"; "move"; "willing_to_move";
            "open_to_relocation" ]);
        ("remoteWork", [ "remote"; "work_from_home"; "telecommute"; "wfh" ]);
        ("resume",
          [ "resume"; "cv"; "curriculum_vitae"; "resume_upload"; "cv_upload";
            "attach_resume"; "upload_resume"; "resume_file"; "cv_file";
            "resume_attachment"; "cv_attachment"; "document_upload"; "file_upload";
            "document"; "attachment"; "upload"; "file"; "resume-upload";
            "cv-upload"; "resume-file"; "cv-file"; "upload-resume"; "upload-cv";
            "resumefile"; "cvfile"; "resume_doc"; "cv_doc"; "documents" ]);
        ("coverLetterFile",
          [ "cover_letter_file"; "cover_letter_upload"; "letter_upload";
            "attach_cover_letter"; "cover_letter_attachment" ]) ]) ].

(** The two nested [for ... of Object.entries(...)] loops visit the
    (category, field type, patterns) triples in this order. *)
Definition entries (tax : list (string * list (string * list string)))
  : list (string * string * list string) :=
  flat_map (fun cat => map (fun ty => (fst cat, fst ty, snd ty)) (snd cat)) tax.

End Taxonomy.

(** ** The document *)

Module Dom.
Import Str.

(** [getBoundingClientRect()], in whole pixels. *)
Record DOMRect := mkRect { left : Z; top : Z; width : Z; height : Z }.

(** An element: its identity, lower-case tag name, attributes in source
    order, and the computed properties the script reads. *)
Record Element := mkElement {
  node : nat;
  tagName : string;
  attributes : list (string * string);
  textContent : string;
  innerText : string;
  action : string;        (* [form.action], as the browser resolves it *)
  rect : DOMRect
}.

Inductive Tree := Node (e : Element) (children : list Tree).

(** The page: its address and the trees of the children of
    [document.body].  The elements above them ([html], [head], [body])
    carry no attribute and are not controls, so that queries over the
    document find what they find below the body. *)
Record Document := mkDocument {
  href : string;          (* [window.location.href] *)
  roots : list Tree
}.

Definition elem (t : Tree) : Element := match t with Node e _ => e end.
Definition kids (t : Tree) : list Tree := match t with Node _ k => k end.

(** [a === b] on nodes. *)
Definition same (a b : Element) : bool := (node a =? node b)%nat.

Definition memb (a : Element) (l : list Element) : bool := existsb (same a) l.

(** The element and its descendants, in document order. *)
Fixpoint subtrees (t : Tree) : list Tree :=
  match t with
  | Node _ children => t :: flat_map subtrees children
  end.

Definition all_trees (d : Document) : list Tree := flat_map subtrees (roots d).

(** Proper descendants: the range of [element.querySelectorAll]. *)
Definition descendants (t : Tree) : list Tree := flat_map subtrees (kids t).

(** [element.getAttribute(a)], [None] for [null]. *)
Fixpoint assoc (a : string) (l : list (string * string)) : option string :=
  match l with
  | [] => None
  | (k, v) :: rest => if String.eqb k a then Some v else assoc a rest
  end.

Definition getAttribute (e : Element) (a : string) : option string :=
  assoc a (attributes e).

Definition attr_or_empty (e : Element) (a : string) : string :=
  match getAttribute e a with Some v => v | None => "" end.

(** Reflected properties. *)
Definition el_id (e : Element) : string := attr_or_empty e "id".
Definition el_name (e : Element) : string := attr_or_empty e "name".
Definition className (e : Element) : string := attr_or_empty e "class".

(** [element.placeholder], a property of inputs and text areas only
    ([undefined], which is falsy like the empty string, elsewhere). *)
Definition placeholder (e : Element) : string :=
  if String.eqb (tagName e) "input" || String.eqb (tagName e) "textarea"
  then attr_or_empty e "placeholder"
  else "".

Definition title (e : Element) : string := attr_or_empty e "title".

Definition required (e : Element) : bool :=
  match getAttribute e "required" with Some _ => true | None => false end.

(** The states of the [type] attribute of an input. *)
Definition inputTypes : list string :=
  [ "hidden"; "text"; "search"; "tel"; "url"; "email"; "password"; "date";
    "month"; "week"; "time"; "datetime-local"; "number"; "range"; "color";
    "checkbox"; "radio"; "file"; "submit"; "image"; "reset"; "button" ].

(** [element.type] of a form control. *)
Definition el_type (e : Element) : string :=
  if String.eqb (tagName e) "select" then
    match getAttribute e "multiple" with
    | Some _ => "select-multiple"
    | None => "select-one"
    end
  else if String.eqb (tagName e) "textarea" then "textarea"
  else match getAttribute e "type" with
       | Some t =>
           if existsb (String.eqb (toLowerCase t)) inputTypes then toLowerCase t
           else "text"
       | None => "text"
       end.

Definition has_tag (tags : list string) (t : Tree) : bool :=
  existsb (String.eqb (tagName (elem t))) tags.

(** [querySelectorAll('input, textarea, select')] over a list of
    subtrees in document order. *)
Definition controls (ts : list Tree) : list Element :=
  map elem (filter (has_tag ["input"; "textarea"; "select"]) ts).

(** The parent of an element: the body, or an element of the tree. *)
Inductive Parent :=
| Body
| Within (t : Tree).

Definition is_child (e : Element) (children : list Tree) : bool :=
  existsb (fun k => same (elem k) e) children.

(** [element.parentElement]; [None] for an element that is not in the
    document. *)
Definition parentElement (d : Document) (e : Element) : option Parent :=
  if is_child e (roots d) then Some Body
  else match find (fun t => is_child e (kids t)) (all_trees d) with
       | Some t => Some (Within t)
       | None => None
       end.

(** [parent.children] *)
Definition children_of (d : Document) (p : Parent) : list Tree :=
  match p with
  | Body => roots d
  | Within t => kids t
  end.

(** The range of [parent.querySelectorAll]. *)
Definition descendants_of (d : Document) (p : Parent) : list Tree :=
  match p with
  | Body => all_trees d
  | Within t => descendants t
  end.

End Dom.

(** ** Field classifier *)

Module Classifier.
Import Str Dom.

(** The object [{ category, type, confidence }]; [None] is [null]. *)
Record ClassificationResult := mkResult {
  category : option string;
  type : option string;
  confidence : Q
}.

Definition is_label_for (id : string) (t : Tree) : bool :=
  String.eqb (tagName (elem t)) "label"
  && match getAttribute (elem t) "for" with
     | Some f => String.eqb f id
     | None => false
     end.

Definition is_label (t : Tree) : bool := String.eqb (tagName (elem t)) "label".

Definition has_id (id : string) (t : Tree) : bool :=
  match getAttribute (elem t) "id" with
  | Some i => String.eqb i id
  | None => false
  end.

(** [getFieldLabel(input)].  The class declares the method twice; the
    second declaration is the one in force, and is the one embedded.
    The query [label[for="<id>"]] is read as the first [label] element
    of the document whose [for] attribute is the id. *)
Definition getFieldLabel (d : Document) (input : Element) : string :=
  let by_for :=
    if truthy (el_id input) then find (is_label_for (el_id input)) (all_trees d)
    else None in
  match by_for with
  | Some label => trim (textContent (elem label))
  | None =>
      let in_parent :=
        match parentElement d input with
        | Some parent => find is_label (descendants_of d parent)
        | None => None
        end in
      match in_parent with
      | Some label => trim (textContent (elem label))
      | None =>
          let by_aria :=
            match getAttribute input "aria-labelledby" with
            | Some labelledBy =>
                if truthy labelledBy then find (has_id labelledBy) (all_trees d)
                else None
            | None => None
            end in
          match by_aria with
          | Some labelElement => trim (textContent (elem labelElement))
          | None => ""
          end
      end
  end.

(** The haystack [allText] of [identifyField]. *)
Definition allText (d : Document) (input : Element) : string :=
  let name := toLowerCase (el_name input) in
  let id := toLowerCase (el_id input) in
  let placeholder := toLowerCase (placeholder input) in
  let label := getFieldLabel d input in
  let ariaLabel := toLowerCase (attr_or_empty input "aria-label") in
  let title := toLowerCase (title input) in
  toLowerCase
    (name ++ " " ++ id ++ " " ++ placeholder ++ " " ++ label ++ " "
          ++ ariaLabel ++ " " ++ title).

(** The loop of [identifyField] over the taxonomy: the first pattern
    list that [fuzzyMatchField] accepts decides the result. *)
Fixpoint classify_in (entries : list (string * string * list string))
         (text : string) : ClassificationResult :=
  match entries with
  | [] => mkResult None None 0%Q
  | (category, fieldType, patterns) :: rest =>
      if Matcher.fuzzyMatchField text patterns
      then mkResult (Some category) (Some fieldType)
                    (Matcher.calculateMatchConfidence text patterns)
      else classify_in rest text
  end.

Definition classify (text : string) : ClassificationResult :=
  classify_in (Taxonomy.entries Taxonomy.fieldPatterns) text.

(** [identifyField(input)] *)
Definition identifyField (d : Document) (input : Element) : ClassificationResult :=
  classify (allText d input).

End Classifier.

(** ** The selector engine of the host

  [document.querySelectorAll] and [CSS.escape] belong to the browser.
  This is a model of the part of CSS that the resolver relies on: a
  comma-separated list of compound selectors, each an optional type
  selector followed by [#id], [.class], [[attr]] and [[attr="value"]]
  parts, with backslash escapes in identifiers and strings.  A selector
  outside this fragment, like one that is not valid CSS, has no result
  ([None], where the browser throws a [SyntaxError] for invalid CSS). *)

Module Css.
Import Str Dom.

Definition hex_digit (n : nat) : ascii :=
  if (n <? 10)%nat then ascii_of_nat (48 + n) else ascii_of_nat (87 + n).

Definition hex_of (n : nat) : string :=
  if (n <? 16)%nat then String (hex_digit n) ""
  else String (hex_digit (n / 16)) (String (hex_digit (n mod 16)) "").

Definition plain_ident_char (c : ascii) : bool :=
  is_letter c || is_digit c || Ascii.eqb c "-" || Ascii.eqb c "_"
  || (128 <=? nat_of_ascii c)%nat.

(** [CSS.escape(value)], the serialisation of an identifier: [i] is the
    index of [c], [first] the first character of the value and [len] its
    length. *)
Definition escape_char (i len : nat) (first c : ascii) : string :=
  let n := nat_of_ascii c in
  if (n =? 0)%nat then String "239" (String "191" (String "189" ""))
  else if ((1 <=? n)%nat && (n <=? 31)%nat) || (n =? 127)%nat
  then "\" ++ hex_of n ++ " "
  else if (i =? 0)%nat && is_digit c then "\" ++ hex_of n ++ " "
  else if (i =? 1)%nat && is_digit c && Ascii.eqb first "-" then "\" ++ hex_of n ++ " "
  else if (i =? 0)%nat && (len =? 1)%nat && Ascii.eqb c "-" then "\-"
  else if plain_ident_char c then String c ""
  else String "\" (String c "").

Fixpoint escape_go (i len : nat) (first : ascii) (s : string) : string :=
  match s with
  | EmptyString => ""
  | String c rest => escape_char i len first c ++ escape_go (S i) len first rest
  end.

Definition escape (value : string) : string :=
  match value with
  | EmptyString => ""
  | String first _ => escape_go 0 (String.length value) first value
  end.

(** *** Reading a selector *)

(** A character of the selector text: written as such, or the result of
    a backslash escape (which is never syntax). *)
Inductive item := Plain (c : ascii) | Esc (c : ascii).

Definition item_char (i : item) : ascii :=
  match i with Plain c | Esc c => c end.

Definition hex_val (c : ascii) : option nat :=
  let n := nat_of_ascii c in
  if is_digit c then Some (n - 48)
  else if (97 <=? n)%nat && (n <=? 102)%nat then Some (n - 87)
  else if (65 <=? n)%nat && (n <=? 70)%nat then Some (n - 55)
  else None.

Definition is_newline (c : ascii) : bool :=
  let n := nat_of_ascii c in (n =? 10)%nat || (n =? 12)%nat || (n =? 13)%nat.

Inductive esc_state :=
| Normal
| Backslash
| Hex (value digits : nat).

(** The escaped character of a hexadecimal escape; code points outside
    1..255 are outside the byte strings of this model. *)
Definition hex_item (v : nat) : option item :=
  if (1 <=? v)%nat && (v <=? 255)%nat then Some (Esc (ascii_of_nat v)) else None.

Definition cons_opt {A} (x : A) (l : option (list A)) : option (list A) :=
  match l with Some l' => Some (x :: l') | None => None end.

Fixpoint unescape (st : esc_state) (s : string) : option (list item) :=
  match s with
  | EmptyString =>
      match st with
      | Normal => Some []
      | Backslash => None
      | Hex v _ => match hex_item v with Some i => Some [i] | None => None end
      end
  | String c rest =>
      match st with
      | Normal =>
          if Ascii.eqb c "\" then unescape Backslash rest
          else cons_opt (Plain c) (unescape Normal rest)
      | Backslash =>
          match hex_val c with
          | Some h => unescape (Hex h 1) rest
          | None =>
              if is_newline c then None
              else cons_opt (Esc c) (unescape Normal rest)
          end
      | Hex v n =>
          match hex_val c, (n <? 6)%nat with
          | Some h, true => unescape (Hex (16 * v + h) (S n)) rest
          | _, _ =>
              match hex_item v with
              | None => None
              | Some i =>
                  if is_space c then cons_opt i (unescape Normal rest)
                  else if Ascii.eqb c "\" then cons_opt i (unescape Backslash rest)
                  else cons_opt i (cons_opt (Plain c) (unescape Normal rest))
              end
          end
      end
  end.

Inductive Simple :=
| ById (v : string)
| ByClass (v : string)
| HasAttr (a : string)
| ByAttr (a v : string).

Record Compound := mkCompound { c_tag : option string; c_parts : list Simple }.

Inductive mode :=
| Begin                               (* before a compound selector *)
| InTag (acc : list item)
| InId (acc : list item)
| InClass (acc : list item)
| InAttr (acc : list item)            (* after the opening bracket *)
| WantQuote (a : string)              (* after the equals sign *)
| InStr (a : string) (acc : list item)
| WantClose (a v : string)            (* after the closing quote *)
| Between                             (* after a simple selector *)
| Trail.                              (* white space after a compound *)

Record pstate := mkP {
  finished : list Compound;           (* reversed *)
  cur_tag : option string;
  cur_parts : list Simple;            (* reversed *)
  cur_mode : mode
}.

Definition ident_char (i : item) : bool :=
  match i with
  | Esc _ => true
  | Plain c => plain_ident_char c
  end.

Definition chars (items : list item) : string :=
  string_of_list_ascii (map item_char items).

(** The identifier read into the reversed accumulator [acc], when it is
    one: not empty, not starting with a digit, nor with a hyphen that is
    alone or followed by a digit. *)
Definition ident_of (acc : list item) : option string :=
  let items := rev acc in
  match items with
  | [] => None
  | Plain c :: rest =>
      if is_digit c then None
      else if Ascii.eqb c "-" then
        match rest with
        | [] => None
        | Plain c2 :: _ => if is_digit c2 then None else Some (chars items)
        | Esc _ :: _ => Some (chars items)
        end
      else Some (chars items)
  | Esc _ :: _ => Some (chars items)
  end.

Definition set_mode (st : pstate) (m : mode) : pstate :=
  mkP (finished st) (cur_tag st) (cur_parts st) m.

Definition add_part (st : pstate) (p : Simple) : pstate :=
  mkP (finished st) (cur_tag st) (p :: cur_parts st) Between.

(** The end of the compound selector being read. *)
Definition close_compound (st : pstate) : option pstate :=
  match cur_tag st, cur_parts st with
  | None, [] => None
  | t, ps => Some (mkP (mkCompound t (rev ps) :: finished st) None [] Begin)
  end.

(** A character where a simple selector may start. *)
Definition step_between (st : pstate) (i : item) : option pstate :=
  match i with
  | Esc _ => None
  | Plain c =>
      if Ascii.eqb c "#" then Some (set_mode st (InId []))
      else if Ascii.eqb c "." then Some (set_mode st (InClass []))
      else if Ascii.eqb c "[" then Some (set_mode st (InAttr []))
      else if Ascii.eqb c "," then close_compound st
      else if is_space c then Some (set_mode st Trail)
      else None
  end.

(** The end of an identifier in mode [m]. *)
Definition close_ident (st : pstate) : option pstate :=
  match cur_mode st with
  | InTag acc =>
      match ident_of acc with
      | Some t => Some (mkP (finished st) (Some (toLowerCase t)) (cur_parts st) Between)
      | None => None
      end
  | InId acc =>
      match ident_of acc with Some v => Some (add_part st (ById v)) | None => None end
  | InClass acc =>
      match ident_of acc with Some v => Some (add_part st (ByClass v)) | None => None end
  | Between => Some st
  | _ => None
  end.

Definition step (st : pstate) (i : item) : option pstate :=
  match cur_mode st with
  | Begin =>
      match i with
      | Plain c =>
          if is_space c then Some st
          else if ident_char i then Some (set_mode st (InTag [i]))
          else if Ascii.eqb c "," then None
          else step_between st i
      | Esc _ => Some (set_mode st (InTag [i]))
      end
  | InTag acc =>
      if ident_char i then Some (set_mode st (InTag (i :: acc)))
      else match close_ident st with Some st' => step_between st' i | None => None end
  | InId acc =>
      if ident_char i then Some (set_mode st (InId (i :: acc)))
      else match close_ident st with Some st' => step_between st' i | None => None end
  | InClass acc =>
      if ident_char i then Some (set_mode st (InClass (i :: acc)))
      else match close_ident st with Some st' => step_between st' i | None => None end
  | InAttr acc =>
      if ident_char i then Some (set_mode st (InAttr (i :: acc)))
      else match i, ident_of acc with
           | Plain c, Some a =>
               if Ascii.eqb c "=" then Some (set_mode st (WantQuote (toLowerCase a)))
               else if Ascii.eqb c "]" then Some (add_part st (HasAttr (toLowerCase a)))
               else None
           | _, _ => None
           end
  | WantQuote a =>
      match i with
      | Plain c => if Ascii.eqb c dquote then Some (set_mode st (InStr a [])) else None
      | Esc _ => None
      end
  | InStr a acc =>
      match i with
      | Plain c =>
          if Ascii.eqb c dquote then Some (set_mode st (WantClose a (chars (rev acc))))
          else if is_newline c then None
          else Some (set_mode st (InStr a (i :: acc)))
      | Esc _ => Some (set_mode st (InStr a (i :: acc)))
      end
  | WantClose a v =>
      match i with
      | Plain c => if Ascii.eqb c "]" then Some (add_part st (ByAttr a v)) else None
      | Esc _ => None
      end
  | Between => step_between st i
  | Trail =>
      match i with
      | Plain c =>
          if is_space c then Some st
          else if Ascii.eqb c "," then close_compound st
          else None
      | Esc _ => None
      end
  end.

Fixpoint run (st : pstate) (items : list item) : option pstate :=
  match items with
  | [] => Some st
  | i :: rest => match step st i with Some st' => run st' rest | None => None end
  end.

Definition finish (st : pstate) : option (list Compound) :=
  match cur_mode st with
  | InTag _ | InId _ | InClass _ | Between | Trail =>
      match close_ident (match cur_mode st with Trail => set_mode st Between | _ => st end) with
      | Some st' =>
          match close_compound st' with
          | Some st'' => Some (rev (finished st''))
          | None => None
          end
      | None => None
      end
  | _ => None
  end.

Definition parse (selector : string) : option (list Compound) :=
  match unescape Normal selector with
  | Some items =>
      match run (mkP [] None [] Begin) items with
      | Some st => finish st
      | None => None
      end
  | None => None
  end.

(** *** Matching *)

Definition class_tokens (e : Element) : list string :=
  filter truthy (split_space
    (string_of_list_ascii
       (map (fun c => if is_space c then " "%char else c)
            (list_ascii_of_string (className e))))).

Definition matches_simple (e : Element) (s : Simple) : bool :=
  match s with
  | ById v => match getAttribute e "id" with Some i => String.eqb i v | None => false end
  | ByClass v => existsb (String.eqb v) (class_tokens e)
  | HasAttr a => match getAttribute e a with Some _ => true | None => false end
  | ByAttr a v => match getAttribute e a with Some x => String.eqb x v | None => false end
  end.

Definition matches (e : Element) (c : Compound) : bool :=
  match c_tag c with
  | Some t => String.eqb (tagName e) t
  | None => true
  end && forallb (matches_simple e) (c_parts c).

(** [document.querySelectorAll(selector)] *)
Definition querySelectorAll (d : Document) (selector : string) : option (list Element) :=
  match parse selector with
  | Some cs => Some (filter (fun e => existsb (matches e) cs) (map elem (all_trees d)))
  | None => None
  end.

End Css.

(** ** Selector resolver *)

Module Selector.
Import Str Dom.

(** The character class [[\[\]{}:()\s]] of the two validity tests. *)
Definition forbidden_char (c : ascii) : bool :=
  Ascii.eqb c "[" || Ascii.eqb c "]" || Ascii.eqb c "{" || Ascii.eqb c "}"
  || Ascii.eqb c ":" || Ascii.eqb c "(" || Ascii.eqb c ")" || is_space c.

Definition starts_with_digit (s : string) : bool :=
  match s with String c _ => is_digit c | EmptyString => false end.

(** [isValidCSSSelector(id)] *)
Definition isValidCSSSelector (id : string) : bool :=
  negb (starts_with_digit id) && forallb_string (fun c => negb (forbidden_char c)) id.

(** [isValidCSSClass(className)] *)
Definition isValidCSSClass (className : string) : bool :=
  (0 <? String.length className)%nat
  && forallb_string (fun c => negb (forbidden_char c)) className.

(** [document.querySelectorAll(selector).length === 1]; [None] when the
    query throws. *)
Definition unique (d : Document) (selector : string) : option bool :=
  match Css.querySelectorAll d selector with
  | Some found => Some (List.length found =? 1)%nat
  | None => None
  end.

(** The escaped classes of both resolvers:
    [className.split(' ').filter(c => c.trim() && isValidCSSClass(c)).map(c => CSS.escape(c))] *)
Definition escaped_classes (e : Element) : list string :=
  map Css.escape
      (filter (fun c => truthy (trim c) && isValidCSSClass c)
              (split_space (className e))).

Definition decimal (n : nat) : string :=
  NilEmpty.string_of_uint (Nat.to_uint n).

(** [Array.from(parent.children).indexOf(current)] *)
Fixpoint indexOf (current : Element) (siblings : list Tree) (i : nat) : option nat :=
  match siblings with
  | [] => None
  | s :: rest => if same (elem s) current then Some i else indexOf current rest (S i)
  end.

(** One component of the structural path. *)
Definition path_component (d : Document) (current : Element) : string :=
  let selector := tagName current in
  if truthy (el_id current) && isValidCSSSelector (el_id current)
  then selector ++ "#" ++ Css.escape (el_id current)
  else if truthy (className current) then
    match escaped_classes current with
    | [] => selector
    | classes => selector ++ "." ++ join "." (firstn 2 classes)
    end
  else
    let siblings :=
      match parentElement d current with
      | Some parent => children_of d parent
      | None => []
      end in
    match indexOf current siblings 0 with
    | Some index => selector ++ ":nth-child(" ++ decimal (index + 1) ++ ")"
    | None => selector
    end.

(** The loop of [generateRobustSelector]: [budget] bounds the iterations
    the way [if (path.length > 5) break] does, the path being one longer
    after each. *)
Fixpoint robust_path (budget : nat) (d : Document) (current : Element)
         (path : list string) : list string :=
  match budget with
  | O => path
  | S budget' =>
      let path' := path_component d current :: path in
      match parentElement d current with
      | Some (Within parent) => robust_path budget' d (elem parent) path'
      | _ => path'
      end
  end.

(** [generateRobustSelector(element)]; the walk stops at the body. *)
Definition generateRobustSelector (d : Document) (element : Element) : string :=
  join " > " (robust_path 6 d element []).

(** The loop over [element.attributes] of step 3. *)
Fixpoint data_step (d : Document) (attrs : list (string * string))
  : option (option string) :=
  match attrs with
  | [] => Some None
  | (name, value) :: rest =>
      if String.prefix "data-" name then
        let selector := "[" ++ name ++ "=" ++ dq ++ value ++ dq ++ "]" in
        match unique d selector with
        | None => None
        | Some true => Some (Some selector)
        | Some false => data_step d rest
        end
      else data_step d rest
  end.

(** Steps 5 and 6 of [getElementSelector]. *)
Definition from_placeholder (d : Document) (element : Element) : option string :=
  if truthy (el_type element) && truthy (placeholder element) then
    let selector :=
      tagName element ++ "[type=" ++ dq ++ el_type element ++ dq
              ++ "][placeholder=" ++ dq ++ placeholder element ++ dq ++ "]" in
    match unique d selector with
    | None => None
    | Some true => Some selector
    | Some false => Some (generateRobustSelector d element)
    end
  else Some (generateRobustSelector d element).

(** Step 4; the query sits in a [try] block. *)
Definition from_classes (d : Document) (element : Element) : option string :=
  let next := from_placeholder d element in
  if truthy (className element) then
    match escaped_classes element with
    | [] => next
    | classes =>
        let classSelector := "." ++ join "." classes in
        match unique d classSelector with
        | Some true => Some classSelector
        | _ => next
        end
    end
  else next.

(** Steps 2 and 3; a query that throws ends the call. *)
Definition from_name (d : Document) (element : Element) : option string :=
  let name_selector := "[name=" ++ dq ++ el_name element ++ dq ++ "]" in
  let by_name :=
    if truthy (el_name element) then unique d name_selector else Some false in
  match by_name with
  | None => None
  | Some true => Some name_selector
  | Some false =>
      match data_step d (attributes element) with
      | None => None
      | Some (Some selector) => Some selector
      | Some None => from_classes d element
      end
  end.

(** [getElementSelector(element)]; [None] when the call throws.  Step 1
    sits in a [try] block. *)
Definition getElementSelector (d : Document) (element : Element) : option string :=
  if truthy (el_id element) && isValidCSSSelector (el_id element) then
    let escapedId := Css.escape (el_id element) in
    match unique d ("#" ++ escapedId) with
    | Some true => Some ("#" ++ escapedId)
    | _ => from_name d element
    end
  else from_name d element.

End Selector.

(** ** Form and cluster discovery *)

Module Discovery.
Import Str Dom Classifier.

Definition strongJobIndicators : list string :=
  [ "application"; "apply"; "resume"; "cv"; "career"; "hiring";
    "candidate"; "applicant"; "job application"; "employment" ].

Definition mediumJobIndicators : list string :=
  [ "job"; "position"; "work experience"; "education"; "contact us";
    "get in touch"; "join us"; "opportunities" ].

Definition jobUrlKeywords : list string :=
  [ "career"; "job"; "apply"; "hiring"; "employment"; "opportunities" ].

Definition jobFieldKeywords : list string :=
  [ "first name"; "last name"; "email"; "phone"; "resume"; "cv";
    "experience"; "education"; "cover letter"; "salary"; "skills";
    "portfolio"; "linkedin"; "github"; "years"; "degree" ].

(** [keywords.some(keyword => text.includes(keyword))] *)
Definition some_included (text : string) (keywords : list string) : bool :=
  existsb (fun keyword => includes text keyword) keywords.

(** [container.querySelectorAll('input, textarea, select')] *)
Definition inputs_of (container : Tree) : list Element :=
  controls (descendants container).

(** [document.querySelectorAll('input, textarea, select')] *)
Definition allInputs (d : Document) : list Element := controls (all_trees d).

(** [hasJobFormFields(container)] *)
Definition hasJobFormFields (container : Tree) : bool :=
  let fieldNames :=
    map (fun input =>
           toLowerCase (or_else (el_name input) (or_else (el_id input) (placeholder input))))
        (inputs_of container) in
  existsb (fun keyword => existsb (fun fieldName => includes fieldName keyword) fieldNames)
          jobFieldKeywords.

Definition classified (d : Document) (input : Element) : bool :=
  match category (identifyField d input) with Some _ => true | None => false end.

(** [calculateJobFieldScore(form)] for an element of the document. *)
Definition calculateJobFieldScore (d : Document) (form : Tree) : Q :=
  let inputs := inputs_of form in
  match List.length inputs with
  | O => 0%Q
  | S _ =>
      let jobFieldCount := List.length (filter (classified d) inputs) in
      (Z.of_nat jobFieldCount # Pos.of_nat (List.length inputs))%Q
  end.

(** The five indicators of [isJobApplicationForm]. *)
Record Indicators := mkIndicators {
  hasStrongIndicators : bool;
  hasMediumIndicators : bool;
  hasJobUrl : bool;
  hasJobFields : bool;
  denseFields : bool                  (* [fieldScore > 0.5] *)
}.

Definition indicators (d : Document) (form : Tree) : Indicators :=
  let f := elem form in
  let formText := toLowerCase (innerText f) in
  let formClasses := toLowerCase (className f) in
  let formId := toLowerCase (el_id f) in
  let formAction := toLowerCase (action f) in
  let allText := formText ++ " " ++ formClasses ++ " " ++ formId ++ " " ++ formAction in
  let url := toLowerCase (href d) in
  mkIndicators
    (some_included allText strongJobIndicators)
    (some_included allText mediumJobIndicators)
    (some_included url jobUrlKeywords)
    (hasJobFormFields form)
    (Matcher.Qgtb (calculateJobFieldScore d form) (1 # 2)%Q).

(** The combined score, accumulated on binary64 numbers in the order of
    the five [if] statements. *)
Definition confidenceOf (i : Indicators) : float :=
  let confidence := 0%float in
  let confidence := if hasStrongIndicators i then (confidence + 0.6)%float else confidence in
  let confidence := if hasMediumIndicators i then (confidence + 0.2)%float else confidence in
  let confidence := if hasJobUrl i then (confidence + 0.2)%float else confidence in
  let confidence := if hasJobFields i then (confidence + 0.3)%float else confidence in
  let confidence := if denseFields i then (confidence + 0.2)%float else confidence in
  confidence.

(** [isJobApplicationForm(form)]: [confidence > 0.3]. *)
Definition isJobApplicationForm (d : Document) (form : Tree) : bool :=
  PrimFloat.ltb 0.3%float (confidenceOf (indicators d form)).

(** *** Spatial clusters *)

(** Twice the centre of a rectangle, [left + width / 2] and
    [top + height / 2] being half-integers. *)
Definition centre2 (r : DOMRect) : Z * Z :=
  (2 * left r + width r, 2 * top r + height r)%Z.

(** [distance <= radius] between the centres, on the squares of the
    doubled coordinates. *)
Definition within (radius : Z) (a b : DOMRect) : bool :=
  let '(ax, ay) := centre2 a in
  let '(bx, b_y) := centre2 b in
  (0 <=? radius)%Z
  && ((ax - bx) * (ax - bx) + (ay - b_y) * (ay - b_y) <=? (2 * radius) * (2 * radius))%Z.

(** [findNearbyInputs(element, radius)] *)
Definition findNearbyInputs (d : Document) (element : Element) (radius : Z)
  : list Element :=
  filter (fun input => negb (same input element)
                       && within radius (rect element) (rect input))
         (allInputs d).

(** The body of [nearby.forEach]: [visited] holds exactly the elements
    of [cluster], which stands for both. *)
Definition visit (state : list Element * list Element) (input : Element)
  : list Element * list Element :=
  let '(cluster, queue) := state in
  if memb input cluster then (cluster, queue)
  else ((cluster ++ [input])%list, (queue ++ [input])%list).

(** The [while (queue.length > 0)] loop, at most [fuel] iterations. *)
Fixpoint bfs (fuel : nat) (d : Document) (cluster queue : list Element)
  : list Element :=
  match queue with
  | [] => cluster
  | current :: rest =>
      match fuel with
      | O => cluster
      | S fuel' =>
          let '(cluster', queue') :=
            fold_left visit (findNearbyInputs d current 200) (cluster, rest) in
          bfs fuel' d cluster' queue'
      end
  end.

(** [findInputCluster(startInput)]: every iteration takes a different
    element of the cluster off the queue, so one more iteration than
    there are inputs is never needed. *)
Definition findInputCluster (d : Document) (startInput : Element) : list Element :=
  bfs (S (List.length (allInputs d))) d [startInput] [startInput].

(** [Math.ceil(n * 0.6)]: the double nearest to 0.6 lies below it by
    less than half a unit in the last place, so the product rounds to
    [3n/5] when that is whole and stays strictly between the
    neighbouring integers otherwise. *)
Definition ceil_six_tenths (n : nat) : nat := (3 * n + 4) / 5.

(** [isJobInputCluster(inputs)] *)
Definition isJobInputCluster (d : Document) (inputs : list Element) : bool :=
  let validFields := filter (classified d) inputs in
  (ceil_six_tenths (List.length inputs) <=? List.length validFields)%nat.

(** *** The detector state *)

(** An entry of [this.forms]: an element of the document, or the object
    [{ inputs, isVirtual: true }]. *)
Inductive FormEntry :=
| RealForm (form : Tree)
| VirtualForm (inputs : list Element).

(** The keys of [this.formFields]: an index, ["container-<i>"] or
    ["cluster-<n>"]. *)
Inductive FormKey :=
| KIndex (i : nat)
| KContainer (i : nat)
| KCluster (n : nat).

Definition key_eqb (a b : FormKey) : bool :=
  match a, b with
  | KIndex i, KIndex j | KContainer i, KContainer j | KCluster i, KCluster j =>
      (i =? j)%nat
  | _, _ => false
  end.

(** The record stored per classified field ([detected], a time stamp,
    is left out). *)
Record FieldInfo := mkFieldInfo {
  fi_element : Element;
  fi_selector : string;
  fi_type : string;
  fi_required : bool;
  fi_confidence : Q
}.

(** [fields]: category, then field type, in insertion order. *)
Definition Fields := list (string * list (string * FieldInfo)).

Definition emptyFields : Fields :=
  [ ("personalInfo", []); ("experience", []); ("education", []);
    ("skills", []); ("other", []) ].

(** [obj[key] = value] on an object used as a map. *)
Fixpoint assign {A} (key : string) (value : A) (obj : list (string * A))
  : list (string * A) :=
  match obj with
  | [] => [(key, value)]
  | (k, v) :: rest =>
      if String.eqb k key then (k, value) :: rest else (k, v) :: assign key value rest
  end.

(** [fields[category][type] = info] *)
Fixpoint assign_field (category type : string) (info : FieldInfo) (fields : Fields)
  : Fields :=
  match fields with
  | [] => []
  | (c, byType) :: rest =>
      if String.eqb c category then (c, assign type info byType) :: rest
      else (c, byType) :: assign_field category type info rest
  end.

(** The loop of [mapFormFields] and of [mapVirtualFormFields]; [None]
    when [getElementSelector] throws. *)
Fixpoint map_fields (d : Document) (inputs : list Element) (fields : Fields)
  : option Fields :=
  match inputs with
  | [] => Some fields
  | input :: rest =>
      let fieldInfo := identifyField d input in
      match category fieldInfo, type fieldInfo with
      | Some c, Some t =>
          if truthy c && truthy t then
            match Selector.getElementSelector d input with
            | None => None
            | Some selector =>
                map_fields d rest
                  (assign_field c t
                     (mkFieldInfo input selector (el_type input) (required input)
                                  (confidence fieldInfo))
                     fields)
            end
          else map_fields d rest fields
      | _, _ => map_fields d rest fields
      end
  end.

Record Detector := mkDetector {
  forms : list FormEntry;
  formFields : list (FormKey * Fields)
}.

(** [this.formFields.set(key, fields)] *)
Fixpoint map_set (key : FormKey) (fields : Fields) (m : list (FormKey * Fields))
  : list (FormKey * Fields) :=
  match m with
  | [] => [(key, fields)]
  | (k, v) :: rest =>
      if key_eqb k key then (k, fields) :: rest else (k, v) :: map_set key fields rest
  end.

Definition push (entry : FormEntry) (s : Detector) : Detector :=
  mkDetector (forms s ++ [entry])%list (formFields s).

Definition set_fields (key : FormKey) (fields : Fields) (s : Detector) : Detector :=
  mkDetector (forms s) (map_set key fields (formFields s)).

(** How a part of the pass ends: normally, or by an exception that
    leaves the state as it was when thrown. *)
Inductive Outcome :=
| Completed (s : Detector)
| Thrown (s : Detector).

Definition state_of (o : Outcome) : Detector :=
  match o with Completed s | Thrown s => s end.

Definition and_then (o : Outcome) (k : Detector -> Outcome) : Outcome :=
  match o with
  | Completed s => k s
  | Thrown s => Thrown s
  end.

(** [mapFormFields(form, formIndex)] for an element of the document: the
    field map is stored when the loop has run through. *)
Definition mapFormFields (d : Document) (form : Tree) (formIndex : FormKey)
           (s : Detector) : Outcome :=
  match map_fields d (inputs_of form) emptyFields with
  | Some fields => Completed (set_fields formIndex fields s)
  | None => Thrown s
  end.

(** [mapVirtualFormFields(virtualForm, formIndex)] *)
Definition mapVirtualFormFields (d : Document) (inputs : list Element)
           (formIndex : FormKey) (s : Detector) : Outcome :=
  match map_fields d inputs emptyFields with
  | Some fields => Completed (set_fields formIndex fields s)
  | None => Thrown s
  end.

(** [allForms.forEach((form, index) => ...)] *)
Fixpoint forms_loop (d : Document) (allForms : list Tree) (index : nat)
         (s : Detector) : Outcome :=
  match allForms with
  | [] => Completed s
  | form :: rest =>
      if isJobApplicationForm d form then
        and_then (mapFormFields d form (KIndex index) (push (RealForm form) s))
                 (forms_loop d rest (S index))
      else forms_loop d rest (S index) s
  end.

(** The selector list [potentialSelectors.join(', ')], as a test on one
    element. *)
Definition has_attr (a : string) (e : Element) : bool :=
  match getAttribute e a with Some _ => true | None => false end.

Definition potentialContainer (t : Tree) : bool :=
  let e := elem t in
  let class_has s := includes (className e) s in
  let id_has s := includes (el_id e) s in
  let has_class s := existsb (String.eqb s) (Css.class_tokens e) in
  class_has "form" || class_has "application" || id_has "form" || id_has "application"
  || class_has "job" || class_has "career" || class_has "apply" || class_has "candidate"
  || has_class "application-form" || has_class "job-form" || has_class "apply-form"
  || has_class "contact-form"
  || match getAttribute e "role" with Some r => String.eqb r "form" | None => false end
  || has_attr "data-form" e || has_attr "data-application" e.

(** [this.forms.includes(container)] *)
Definition forms_include (s : Detector) (container : Tree) : bool :=
  existsb (fun entry =>
             match entry with
             | RealForm f => same (elem f) (elem container)
             | VirtualForm _ => false
             end) (forms s).

(** [potentialForms.forEach((container, index) => ...)] *)
Fixpoint containers_loop (d : Document) (potentialForms : list Tree) (index : nat)
         (s : Detector) : Outcome :=
  match potentialForms with
  | [] => Completed s
  | container :: rest =>
      if hasJobFormFields container && negb (forms_include s container) then
        and_then (mapFormFields d container (KContainer index)
                                (push (RealForm container) s))
                 (containers_loop d rest (S index))
      else containers_loop d rest (S index) s
  end.

(** [allInputs.forEach(input => ...)] of [detectInputClusters]. *)
Fixpoint clusters_loop (d : Document) (inputs processedInputs : list Element)
         (s : Detector) : Outcome :=
  match inputs with
  | [] => Completed s
  | input :: rest =>
      if memb input processedInputs then clusters_loop d rest processedInputs s
      else
        let cluster := findInputCluster d input in
        if (3 <=? List.length cluster)%nat && isJobInputCluster d cluster then
          let s1 := push (VirtualForm cluster) s in
          and_then (mapVirtualFormFields d cluster (KCluster (List.length (forms s1))) s1)
                   (clusters_loop d rest (processedInputs ++ cluster)%list)
        else clusters_loop d rest processedInputs s
  end.

(** [detectInputClusters()] *)
Definition detectInputClusters (d : Document) (s : Detector) : Outcome :=
  clusters_loop d (allInputs d) [] s.

(** [detectJobForms()], up to the refresh of the page indicator. *)
Definition detectJobForms (d : Document) : Outcome :=
  let s0 := mkDetector [] [] in
  and_then (forms_loop d (filter (has_tag ["form"]) (all_trees d)) 0 s0) (fun s1 =>
  and_then (containers_loop d (filter potentialContainer (all_trees d)) 0 s1) (fun s2 =>
  detectInputClusters d s2)).

End Discovery.

(** ** Writers for select and radio controls *)

Module Writers.
Import Str.

(** What a writer does to a control besides changing its state. *)
Inductive Event :=
| Focus
| Blur
| Dispatch (name : string).

(** [triggerFieldEvents(element)] *)
Definition triggerFieldEvents : list Event :=
  [Dispatch "input"; Dispatch "change"; Dispatch "keyup"; Dispatch "blur"].

(** An [<option>]: its [value] and [text]. *)
Record OptionEl := mkOption { o_value : string; o_text : string }.

(** A single-choice [<select>]: its options and [selectedIndex]
    ([-1] when none is selected). *)
Record SelectEl := mkSelect { options : list OptionEl; selectedIndex : Z }.

(** [element.value] of a select. *)
Definition select_value (element : SelectEl) : string :=
  if (selectedIndex element <? 0)%Z then ""
  else match nth_error (options element) (Z.to_nat (selectedIndex element)) with
       | Some o => o_value o
       | None => ""
       end.

(** The options paired with their index in [element.options]. *)
Fixpoint indexed {A} (i : nat) (l : list A) : list (nat * A) :=
  match l with
  | [] => []
  | x :: rest => (i, x) :: indexed (S i) rest
  end.

(** [options.filter(opt => opt.value && opt.text.trim())] *)
Definition validOptions (element : SelectEl) : list (nat * OptionEl) :=
  filter (fun o => truthy (o_value (snd o)) && truthy (trim (o_text (snd o))))
         (indexed 0 (options element)).

Definition optionTexts (opts : list (nat * OptionEl)) : list string :=
  map (fun o => toLowerCase (o_text (snd o))) opts.

Definition demographicMarkers : list string :=
  [ "american indian"; "asian"; "black"; "hispanic"; "white"; "decline";
    "prefer not"; "select..."; "bachelor"; "master"; "high school"; "doctorate" ].

(** [isDemographicDropdown] of [shouldSkipDropdownFill] *)
Definition isDemographicDropdown (texts : list string) : bool :=
  existsb (fun text => existsb (fun marker => includes text marker) demographicMarkers)
          texts.

(** [/^[a-zA-Z\s]+$/.test(value)] *)
Definition letters_and_spaces (value : string) : bool :=
  truthy value && forallb_string (fun c => is_letter c || is_space c) value.

(** [isPersonalName] of [shouldSkipDropdownFill] *)
Definition isPersonalName (value : string) : bool :=
  letters_and_spaces value
  && (2 <=? List.length (split_space value))%nat
  && negb (includes value "bachelor")
  && negb (includes value "master").

(** The first test of [shouldSkipDropdownFill]: an e-mail value and no
    option about e-mail. *)
Definition emailMismatch (value : string) (texts : list string) : bool :=
  includes (toLowerCase value) "@"
  && negb (existsb (fun text => includes text "email" || includes text "@") texts).

(** [shouldSkipDropdownFill(element, value, options)] *)
Definition shouldSkipDropdownFill (value : string) (opts : list (nat * OptionEl)) : bool :=
  let valueLower := toLowerCase value in
  let texts := optionTexts opts in
  if emailMismatch value texts then true
  else if isDemographicDropdown texts && isPersonalName value then true
  else
    let hasReasonableMatch :=
      existsb (fun text =>
                 includes text valueLower || includes valueLower text
                 || Matcher.Qgtb (Matcher.calculateSimilarity text valueLower) (3 # 10)%Q)
              texts in
    if negb hasReasonableMatch && (2 <? List.length opts)%nat then true
    else false.

(** [options.find(opt => p(opt.text.toLowerCase()))] *)
Definition find_text (p : string -> bool) (opts : list (nat * OptionEl))
  : option (nat * OptionEl) :=
  find (fun o => p (toLowerCase (o_text (snd o)))) opts.

(** [/^[a-z\s]+$/.test(valueLower)] *)
Definition lower_letters_and_spaces (value : string) : bool :=
  truthy value
  && forallb_string
       (fun c => ((97 <=? nat_of_ascii c)%nat && (nat_of_ascii c <=? 122)%nat) || is_space c)
       value.

(** [smartSelectMatch(options, value)] *)
Definition smartSelectMatch (opts : list (nat * OptionEl)) (value : string)
  : option (nat * OptionEl) :=
  if negb (truthy value) || (List.length opts =? 0)%nat then None
  else
    let valueLower := trim (toLowerCase value) in
    let has s := includes valueLower s in
    let texts := optionTexts opts in
    let isDemographic :=
      existsb (fun text =>
                 includes text "american indian" || includes text "asian"
                 || includes text "black" || includes text "hispanic"
                 || includes text "white" || includes text "decline"
                 || includes text "prefer not") texts in
    if isDemographic && (has "@" || lower_letters_and_spaces valueLower) then
      find_text (fun text => includes text "decline" || includes text "prefer not"
                             || includes text "not specified") opts
    else if has "authorized" || has "eligible" || has "citizen"
            || (has "yes" && has "work") then
      find_text (fun text =>
                   includes text "yes" || includes text "authorized"
                   || includes text "eligible" || includes text "citizen"
                   || includes text "legally" || includes text "able to work"
                   || (includes text "no" && includes text "sponsor")
                   || includes text "do not require") opts
    else if has "sponsor" || has "visa" || (has "require" && has "work") then
      find_text (fun text =>
                   includes text "sponsor" || includes text "visa"
                   || includes text "require"
                   || (includes text "yes" && includes text "future")) opts
    else if has "relocate" || has "location" then
      find_text (fun text => includes text "yes" || includes text "willing"
                             || includes text "open") opts
    else if has "senior" || has "5+" || has "5-" then
      find_text (fun text =>
                   includes text "senior" || includes text "5+" || includes text "7+"
                   || includes text "lead" || includes text "5-" || includes text "3-5") opts
    else if has "master" then find_text (fun text => includes text "master") opts
    else if has "bachelor" then find_text (fun text => includes text "bachelor") opts
    else if String.eqb valueLower "yes" || String.eqb valueLower "true" then
      find_text (fun text => includes text "yes") opts
    else if String.eqb valueLower "no" || String.eqb valueLower "false" then
      find_text (fun text => includes text "no") opts
    else None.

Definition or_find {A} (a : option A) (b : option A) : option A :=
  match a with Some _ => a | None => b end.

(** The three attempts of [fillSelectField] at a matching option. *)
Definition matchOption (opts : list (nat * OptionEl)) (value : string)
  : option (nat * OptionEl) :=
  let v := toLowerCase value in
  let exact :=
    find (fun o => String.eqb (toLowerCase (o_text (snd o))) v
                   || String.eqb (toLowerCase (o_value (snd o))) v) opts in
  let partial :=
    find (fun o => includes (toLowerCase (o_text (snd o))) v
                   || includes v (toLowerCase (o_text (snd o)))) opts in
  or_find exact (or_find partial (smartSelectMatch opts value)).

(** [fillSelectField(element, value)]: the control afterwards and the
    events raised on it.  The three assignments to the matched option
    leave [selectedIndex] at its index in [element.options]. *)
Definition fillSelectField (element : SelectEl) (value : string)
  : SelectEl * list Event :=
  let valid := validOptions element in
  if shouldSkipDropdownFill value valid then (element, [Focus; Blur])
  else
    match matchOption valid value with
    | Some (index, _) =>
        (mkSelect (options element) (Z.of_nat index),
         (Focus :: triggerFieldEvents ++ [Blur])%list)
    | None => (element, [Focus; Blur])
    end.

(** A radio button: its [value], its [checked] state, and the
    [textContent] of the node after it ([None] when there is no such
    node or it has no text content). *)
Record RadioEl := mkRadio {
  r_value : string;
  checked : bool;
  nextSiblingText : option string
}.

(** [shouldCheck] of [fillRadioField]; an [undefined] right operand is
    falsy. *)
Definition shouldCheck (element : RadioEl) (value : string) : bool :=
  String.eqb (toLowerCase (r_value element)) (toLowerCase value)
  || match nextSiblingText element with
     | Some text => includes (toLowerCase text) (toLowerCase value)
     | None => false
     end.

(** [fillRadioField(element, value)] *)
Definition fillRadioField (element : RadioEl) (value : string)
  : RadioEl * list Event :=
  if shouldCheck element value && negb (checked element) then
    (mkRadio (r_value element) true (nextSiblingText element),
     (Focus :: triggerFieldEvents ++ [Blur])%list)
  else (element, [Focus; Blur]).

End Writers.

(** ** Liveness signalling and invalidation *)

Module Session.
Import Str.

(** The fields of the detector and the parts of the page that the
    resilience code reads and writes. *)
Record State := mkState {
  isInitialized : bool;
  messageListenerActive : bool;
  contextInvalidated : bool;
  mutationObserver : bool;      (* an observer is attached *)
  pingInterval : bool;          (* the timer is armed *)
  indicator : bool;             (* #ai-form-filler-indicator is in the page *)
  notice : bool;                (* #ai-form-filler-context-error is in the page *)
  hasBody : bool                (* [document.body] exists *)
}.

(** What the code does to its surroundings. *)
Inductive Action :=
| WarnHandling                  (* the warning that invalidation is being handled *)
| RemoveIndicator
| DisconnectObserver
| ClearInterval
| ShowNotice
| SendPing.

Definition action_eqb (a b : Action) : bool :=
  match a, b with
  | WarnHandling, WarnHandling | RemoveIndicator, RemoveIndicator
  | DisconnectObserver, DisconnectObserver | ClearInterval, ClearInterval
  | ShowNotice, ShowNotice | SendPing, SendPing => true
  | _, _ => false
  end.

(** [showContextInvalidationMessage()] *)
Definition showContextInvalidationMessage (s : State) : State * list Action :=
  if notice s then (s, [])
  else if hasBody s then
    (mkState (isInitialized s) (messageListenerActive s) (contextInvalidated s)
             (mutationObserver s) (pingInterval s) (indicator s) true (hasBody s),
     [ShowNotice])
  else (s, []).

(** [handleContextInvalidation()] *)
Definition handleContextInvalidation (s : State) : State * list Action :=
  if contextInvalidated s then (s, [])
  else
    let cleared :=
      mkState false false true false false false (notice s) (hasBody s) in
    let '(s', shown) := showContextInvalidationMessage cleared in
    (s',
     ([WarnHandling]
        ++ (if indicator s then [RemoveIndicator] else [])
        ++ (if mutationObserver s then [DisconnectObserver] else [])
        ++ (if pingInterval s then [ClearInterval] else [])
        ++ shown)%list).

(** [isGreenhouseOrIframe] of [setupKeepAlive]; [framed] is
    [window !== window.top]. *)
Definition isGreenhouseOrIframe (href : string) (framed : bool) : bool :=
  includes href "greenhouse.io" || framed.

(** The period of the timer, in milliseconds. *)
Definition pingPeriod (hostile : bool) : Z := if hostile then 20000%Z else 15000%Z.

(** The timer callback up to its [await]: [runtime] is
    [chrome.runtime?.id] being set, [visible] is
    [document.visibilityState === 'visible']. *)
Definition pingTick (hostile runtime visible : bool) (s : State) : list Action :=
  if negb (isInitialized s) || negb runtime || contextInvalidated s then []
  else if hostile && negb visible then []
  else [SendPing].

Definition clearPingInterval (s : State) : State * list Action :=
  if pingInterval s then
    (mkState (isInitialized s) (messageListenerActive s) (contextInvalidated s)
             (mutationObserver s) false (indicator s) (notice s) (hasBody s),
     [ClearInterval])
  else (s, []).

Definition pingFailureSigns : list string :=
  [ "context invalidated"; "Extension context invalidated";
    "Could not establish connection"; "The message port closed" ].

Definition globalFailureSigns : list string :=
  [ "context invalidated"; "Extension context invalidated";
    "Could not establish connection" ].

Definition terminal (signs : list string) (message : option string) : bool :=
  match message with
  | Some m => truthy m && existsb (fun sign => includes m sign) signs
  | None => false
  end.

(** The [catch] block of the timer callback, run when the ping is
    rejected with [message]. *)
Definition pingRejected (message : option string) (s : State) : State * list Action :=
  if terminal pingFailureSigns message then
    let '(s1, a1) := handleContextInvalidation s in
    let '(s2, a2) := clearPingInterval s1 in
    (s2, (a1 ++ a2)%list)
  else (s, []).

(** The global [error] listener. *)
Definition globalError (message : option string) (s : State) : State * list Action :=
  if terminal globalFailureSigns message then handleContextInvalidation s
  else (s, []).

(** What can happen to a session, one handler at a time. *)
Inductive Occurrence :=
| Tick (hostile runtime visible : bool)
| PingRejected (message : option string)
| GlobalError (message : option string)
| Invalidate                    (* a direct call of the handler *)
| NoticeExpired.                (* the timer that takes the notice away *)

(** The callback set by [showContextInvalidationMessage]: ten seconds
    later the notice is removed from the page. *)
Definition removeNotice (s : State) : State :=
  mkState (isInitialized s) (messageListenerActive s) (contextInvalidated s)
          (mutationObserver s) (pingInterval s) (indicator s) false (hasBody s).

Definition handle (o : Occurrence) (s : State) : State * list Action :=
  match o with
  | Tick hostile runtime visible => (s, pingTick hostile runtime visible s)
  | PingRejected message => pingRejected message s
  | GlobalError message => globalError message s
  | Invalidate => handleContextInvalidation s
  | NoticeExpired => (removeNotice s, [])
  end.

(** A session: the state and the actions after a sequence of
    occurrences. *)
Fixpoint run (os : list Occurrence) (s : State) : State * list Action :=
  match os with
  | [] => (s, [])
  | o :: rest =>
      let '(s1, a1) := handle o s in
      let '(s2, a2) := run rest s1 in
      (s2, (a1 ++ a2)%list)
  end.

Definition count (a : Action) (l : list Action) : nat :=
  List.length (filter (action_eqb a) l).

(** An occurrence that calls the handler. *)
Definition is_failure (o : Occurrence) : bool :=
  match o with
  | Tick _ _ _ => false
  | PingRejected message => terminal pingFailureSigns message
  | GlobalError message => terminal globalFailureSigns message
  | Invalidate => true
  | NoticeExpired => false
  end.

End Session.

(** ** The specification's reading of the classifier and of discovery *)

Module Spec.
Import Str Matcher Classifier.





(** The cost of turning one character into another. *)
Definition cost (a b : ascii) : nat := if Ascii.eqb a b then 0 else 1.

(** The Levenshtein distance, by recursion on both strings: the first
    character of the second string is inserted, the first character of
    the first string is deleted, or the one is changed into the other. *)
Fixpoint lev (s : string) : string -> nat :=
  fix lev_s (t : string) : nat :=
    match s with
    | EmptyString => String.length t
    | String a s' =>
        match t with
        | EmptyString => String.length s
        | String b t' =>
            min3 (lev_s t' + 1) (lev s' t + 1) (lev s' t' + cost a b)
        end
    end.

(** [edits s t n]: [n] insertions, deletions and changes of one
    character turn [s] into [t]. *)
Inductive edits : string -> string -> nat -> Prop :=
| edits_nil : edits "" "" 0
| edits_delete (a : ascii) (s t : string) (n : nat) :
    edits s t n -> edits (String a s) t (S n)
| edits_insert (b : ascii) (s t : string) (n : nat) :
    edits s t n -> edits s (String b t) (S n)
| edits_change (a b : ascii) (s t : string) (n : nat) :
    edits s t n -> edits (String a s) (String b t) (n + cost a b).

(** A row of the matrix of [levenshteinDistance] from the column of
    [done1] on: the distances between the prefixes of the first string
    and the prefix [done2] of the second, prefixes being kept reversed. *)
Fixpoint row_from (done1 rest1 done2 : string) : list nat :=
  lev done1 done2
  :: match rest1 with
     | EmptyString => []
     | String c rest => row_from (String c done1) rest done2
     end.

(** [s] followed by one character. *)
Definition snoc (s : string) (a : ascii) : string := s ++ String a "".

(** The normalised similarity of the specification:
    [(longer.len - editDistance) / longer.len], and 1 for two empty
    strings. *)
Definition similarity (a b : string) : Q :=
  let len := Nat.max (String.length a) (String.length b) in
  match len with
  | O => 1%Q
  | S _ => ((Z.of_nat len - Z.of_nat (lev a b)) # Pos.of_nat len)%Q
  end.









(** Products of 0.6 and a multiple of five, on binary64 numbers. *)
Definition six_tenths_products : list (float * float) :=
  [ (5, 3); (10, 6); (15, 9); (20, 12); (25, 15); (30, 18); (35, 21); (40, 24);
    (45, 27); (50, 30); (55, 33); (60, 36); (65, 39); (70, 42); (75, 45);
    (80, 48); (85, 51); (90, 54); (95, 57); (100, 60) ]%float.

End Spec.

(** ** Documents and controls used as examples *)

Module Scenarios.
Import Str Dom.

Definition input_named (n : nat) (name : string) (r : DOMRect) : Element :=
  mkElement n "input" [("name", name)] "" "" "" r.

Definition page : string := "https://example.com/".

(** One form with the fields [first_name] and [email]. *)
Definition first_name_input : Element := input_named 1 "first_name" (mkRect 10 10 200 20).
Definition email_input : Element := input_named 2 "email" (mkRect 10 40 200 20).

Definition scenarioA : Document :=
  mkDocument page
    [ Node (mkElement 0 "form" [] "" "" page (mkRect 0 0 400 100))
           [ Node first_name_input []; Node email_input [] ] ].

(** Two inputs, the name of the first holding selector syntax. *)
Definition injected_name : string := "a" ++ dq ++ "],[name=" ++ dq ++ "b".
Definition injected_input : Element := input_named 1 injected_name (mkRect 10 10 200 20).
Definition other_input : Element := input_named 2 "b" (mkRect 10 40 200 20).

Definition injectionDoc : Document :=
  mkDocument page [ Node injected_input []; Node other_input [] ].

(** An input whose name holds a double quote. *)
Definition quoted_input : Element :=
  input_named 1 ("nick" ++ dq ++ "name") (mkRect 10 10 200 20).

Definition quoteDoc : Document := mkDocument page [ Node quoted_input [] ].

(** A form of three inputs that lie within 200 px of each other. *)
Definition form_email : Element := input_named 1 "email" (mkRect 0 0 100 20).
Definition form_phone : Element := input_named 2 "phone" (mkRect 0 40 100 20).
Definition form_resume : Element := input_named 3 "resume" (mkRect 0 80 100 20).

Definition theForm : Tree :=
  Node (mkElement 0 "form" [] "" "" page (mkRect 0 0 300 300))
       [ Node form_email []; Node form_phone []; Node form_resume [] ].

Definition formDoc : Document := mkDocument page [ theForm ].





(** A session that is up and running on a visible page. *)
Definition active : Session.State :=
  Session.mkState true true false true true true false true.

End Scenarios.

(** ** The form data and the values looked up in it *)

Module Data.
Import Str.

(** A value of the form data, as [JSON.parse] builds it; numbers are
    whole numbers that a binary64 number holds exactly.  [VNull] also
    stands for [undefined], which is what a message without data
    carries. *)
Inductive Value :=
| VNull
| VBool (b : bool)
| VNum (n : Z)
| VStr (s : string)
| VArr (items : list Value)
| VObj (props : list (string * Value)).

(** How a call ends: with a value, or by a [TypeError]. *)
Inductive Result (A : Type) :=
| Returns (a : A)
| TypeError.
Arguments Returns {A} a.
Arguments TypeError {A}.

(** JavaScript truthiness. *)
Definition is_truthy (v : Value) : bool :=
  match v with
  | VNull => false
  | VBool b => b
  | VNum n => negb (n =? 0)%Z
  | VStr s => truthy s
  | VArr _ | VObj _ => true
  end.

(** The result of a property read; [None] is [undefined]. *)
Definition truthy_read (r : option Value) : bool :=
  match r with
  | Some v => is_truthy v
  | None => false
  end.

(** [obj[key]] on the own properties of an object. *)
Fixpoint get {A} (key : string) (obj : list (string * A)) : option A :=
  match obj with
  | [] => None
  | (k, v) :: rest => if String.eqb k key then Some v else get key rest
  end.

(** [value[key]] for a value that is not [null]: the property names the
    script reads are those of the taxonomy and of the form data, none of
    which a string, an array or a prototype defines. *)
Definition read (value : Value) (key : string) : option Value :=
  match value with
  | VObj props => get key props
  | _ => None
  end.

(** [r?.[key]] *)
Definition read_opt (r : option Value) (key : string) : option Value :=
  match r with
  | Some VNull | None => None
  | Some v => read v key
  end.

(** [a || b] *)
Definition or_read (a b : option Value) : option Value :=
  if truthy_read a then a else b.

(** [s.split(/[...]+/)] for a class [sep] of characters: [tok] is the
    token read so far (reversed), [in_run] says that a separator has
    just been consumed. *)
Fixpoint split_runs (sep : ascii -> bool) (tok : string) (in_run : bool) (s : string)
  : list string :=
  match s with
  | EmptyString => [rev_string "" tok]
  | String c s' =>
      if sep c then
        if in_run then split_runs sep tok true s'
        else rev_string "" tok :: split_runs sep "" true s'
      else split_runs sep (String c tok) false s'
  end.

(** [fullName.trim().split(/\s+/)] *)
Definition nameParts (fullName : string) : list string :=
  split_runs is_space "" false (trim fullName).

Definition fieldMappings : list (string * list string) :=
  [ ("firstName", [ "first_name"; "fname"; "given_name" ]);
    ("lastName", [ "last_name"; "lname"; "family_name"; "surname" ]);
    ("email", [ "user_email"; "email_address"; "mail" ]);
    ("phone", [ "phone_number"; "telephone"; "mobile" ]);
    ("company", [ "current_company"; "employer" ]);
    ("position", [ "job_title"; "current_position"; "role" ]) ].

(** The loop over the alternative names of a field type. *)
Fixpoint alternative (formData : Value) (altNames : list string) : option Value :=
  match altNames with
  | [] => None
  | altName :: rest =>
      let altValue := read formData altName in
      if truthy_read altValue then altValue else alternative formData rest
  end.

(** [s || null] on a string. *)
Definition or_null (s : string) : Value := if truthy s then VStr s else VNull.

(** The defaults at the end of [getValueForField]. *)
Definition defaultValue (category fieldType : string) : Value :=
  let has s := includes fieldType s in
  if String.eqb fieldType "workAuthorization" || has "sponsor" || has "visa"
  then VStr "Yes, I am authorized to work"
  else if has "relocate" || has "location" then VStr "Open to relocation"
  else if has "phone" || (String.eqb category "personalInfo" && String.eqb fieldType "phone")
  then VStr "+1 (555) 123-4567"
  else if has "linkedin" || has "profile" then VStr "https://linkedin.com/in/divyanshgupta"
  else if has "github" || has "portfolio" then VStr "https://github.com/divyanshgupta"
  else if has "company" || has "employer" then VStr "Tech Innovations Inc."
  else if has "position" || has "title" || has "role" then VStr "Senior Software Engineer"
  else if has "experience" || has "years" then VStr "5+ years"
  else if has "degree" || has "education" then VStr "Bachelor of Computer Science"
  else if has "school" || has "university" then VStr "University of Technology"
  else if has "hear" || has "referral" || has "source" then VStr "Job search engines"
  else VNull.

(** The two special cases for names: [Some] when the branch returns. *)
Definition splitFirstName (formData : Value) : option Value :=
  let fullName :=
    or_read (or_read (read formData "firstName") (read formData "name"))
            (read formData "fullName") in
  match fullName with
  | Some (VStr s) =>
      if truthy s then
        match nameParts s with
        | first :: _ => Some (or_null first)
        | [] => Some VNull
        end
      else None
  | _ => None
  end.

Definition splitLastName (formData : Value) : option Value :=
  let fullName :=
    or_read (or_read (read formData "lastName") (read formData "name"))
            (read formData "fullName") in
  match fullName with
  | Some (VStr s) =>
      if truthy s then Some (or_null (join " " (tl (nameParts s)))) else None
  | _ => None
  end.

(** [getValueForField(formData, category, fieldType)] *)
Definition getValueForField (formData : Value) (category fieldType : string)
  : Result Value :=
  match formData with
  | VNull => TypeError
  | _ =>
      let directValue := read_opt (read formData category) fieldType in
      match (if truthy_read directValue then directValue else None) with
      | Some v => Returns v
      | None =>
      let flatValue := read formData fieldType in
      match (if truthy_read flatValue then flatValue else None) with
      | Some v => Returns v
      | None =>
      match (match get fieldType fieldMappings with
             | Some altNames => alternative formData altNames
             | None => None
             end) with
      | Some v => Returns v
      | None =>
      match (if String.eqb category "personalInfo" && String.eqb fieldType "firstName"
             then splitFirstName formData else None) with
      | Some v => Returns v
      | None =>
      match (if String.eqb category "personalInfo" && String.eqb fieldType "lastName"
             then splitLastName formData else None) with
      | Some v => Returns v
      | None => Returns (defaultValue category fieldType)
      end end end end end
  end.

End Data.


(** ** Filling the mapped fields *)

Module Filling.
Import Str Dom Discovery Data.

(** [String(value)] *)
Fixpoint to_string (v : Value) : string :=
  match v with
  | VNull => "null"
  | VBool true => "true"
  | VBool false => "false"
  | VNum n => NilZero.string_of_int (Z.to_int n)
  | VStr s => s
  | VArr items =>
      join "," (map (fun item => match item with VNull => "" | _ => to_string item end) items)
  | VObj _ => "[object Object]"
  end.

(** The writer that [fillField] hands a control to, and what it hands
    over. *)
Inductive WriterCall :=
| CallSelect (element : Element) (value : string)
| CallCheckbox (element : Element) (value : string)
| CallRadio (element : Element) (value : string)
| CallFile (element : Element) (resumeId : Value)
| CallText (element : Element) (value : string).

(** [element.type?.toLowerCase() || element.tagName.toLowerCase()] *)
Definition elementType (element : Element) : string :=
  if existsb (String.eqb (tagName element)) ["input"; "textarea"; "select"]
  then or_else (toLowerCase (el_type element)) (toLowerCase (tagName element))
  else toLowerCase (tagName element).

(** [fillField(element, value)], up to the writer it calls; [None] when
    it returns at once. *)
Definition fillField (element : Element) (value : Value) : option WriterCall :=
  if negb (is_truthy value) then None
  else
    let elementType := elementType element in
    let stringValue := trim (to_string value) in
    if String.eqb elementType "select" || String.eqb elementType "select-one"
    then Some (CallSelect element stringValue)
    else if String.eqb elementType "checkbox" then Some (CallCheckbox element stringValue)
    else if String.eqb elementType "radio" then Some (CallRadio element stringValue)
    else if String.eqb elementType "file" then Some (CallFile element value)
    else Some (CallText element stringValue).

(** The mapped fields in the order of the three nested loops of
    [fillFormWithData]: form by form, category by category, field type
    by field type. *)
Definition mappedFields (formFields : list (FormKey * Fields))
  : list (string * string * FieldInfo) :=
  flat_map (fun form =>
              flat_map (fun cat => map (fun ty => (fst cat, fst ty, snd ty)) (snd cat))
                       (snd form))
           formFields.

(** A count as a JavaScript number. *)
Fixpoint number_of_nat (n : nat) : float :=
  match n with
  | O => 0%float
  | S n' => (number_of_nat n' + 1)%float
  end.

(** [Math.round(x)]: the integer nearest to [x], the greater one of two
    that are equally near. *)
Definition Math_round (x : float) : Z :=
  match Prim2SF x with
  | SpecFloat.S754_finite s m e =>
      let num := if s then Z.neg m else Z.pos m in
      if (0 <=? e)%Z then (num * 2 ^ e)%Z
      else ((2 * num + 2 ^ (- e)) / 2 ^ (- e + 1))%Z
  | _ => 0%Z
  end.

(** [totalFields > 0 ? Math.round((filledFields / totalFields) * 100) : 0] *)
Definition accuracyOf (filledFields totalFields : nat) : Z :=
  match totalFields with
  | O => 0%Z
  | S _ => Math_round (number_of_nat filledFields / number_of_nat totalFields * 100)%float
  end.

(** The running state of the loops: the two counters and the writers
    called so far. *)
Record Progress := mkProgress {
  filledFields : nat;
  totalFields : nat;
  calls : list WriterCall
}.

Definition called (c : option WriterCall) (l : list WriterCall) : list WriterCall :=
  match c with
  | Some w => (l ++ [w])%list
  | None => l
  end.

(** The body of the innermost loop. *)
Definition fillOne (formData : Value) (field : string * string * FieldInfo) (p : Progress)
  : Result Progress :=
  let '(category, fieldType, fieldInfo) := field in
  let element := fi_element fieldInfo in
  match getValueForField formData category fieldType with
  | TypeError => TypeError
  | Returns value =>
      if is_truthy value && truthy (tagName element) then
        let call :=
          if String.eqb (el_type element) "file"
             && (String.eqb fieldType "resume" || String.eqb fieldType "coverLetterFile")
          then
            match read formData "resumeId" with
            | Some resumeId => if is_truthy resumeId then fillField element resumeId else None
            | None => None
            end
          else fillField element value in
        Returns (mkProgress (S (filledFields p)) (S (totalFields p)) (called call (calls p)))
      else Returns (mkProgress (filledFields p) (S (totalFields p)) (calls p))
  end.

Fixpoint fillAll (formData : Value) (fields : list (string * string * FieldInfo))
         (p : Progress) : Result Progress :=
  match fields with
  | [] => Returns p
  | field :: rest =>
      match fillOne formData field p with
      | Returns p' => fillAll formData rest p'
      | TypeError => TypeError
      end
  end.

(** The object that [fillFormWithData] resolves to. *)
Inductive FillResult :=
| Success (filledFields totalFields : nat) (accuracy : Z)
| Failure.                      (* [{ success: false, error }] *)

(** [fillFormWithData(formData)]: its result and the writers it calls,
    in order.  The report of the two counts to the backend, whose
    failure is caught, is left out. *)
Definition fillFormWithData (formFields : list (FormKey * Fields)) (formData : Value)
  : FillResult * list WriterCall :=
  match fillAll formData (mappedFields formFields) (mkProgress 0 0 []) with
  | Returns p =>
      (Success (filledFields p) (totalFields p)
               (accuracyOf (filledFields p) (totalFields p)),
       calls p)
  | TypeError => (Failure, [])
  end.

(** [analysis.fields[category] += n], the entry starting at 0. *)
Definition add_count (category : string) (n : nat) (fields : list (string * nat))
  : list (string * nat) :=
  match get category fields with
  | Some m => assign category (m + n) fields
  | None => assign category n fields
  end.

(** [analyzeFormStructure()]: the number of forms and the number of
    mapped fields per category. *)
Definition analyzeFormStructure (s : Detector) : nat * list (string * nat) :=
  (List.length (forms s),
   fold_left
     (fun fields form =>
        fold_left (fun fields cat => add_count (fst cat) (List.length (snd cat)) fields)
                  (snd form) fields)
     (formFields s) []).

End Filling.

(** ** Writers for check boxes and text fields *)

Module TextWriters.
Import Str Dom Data Writers.

(** A check box: its [checked] state. *)
Record CheckboxEl := mkCheckbox { c_checked : bool }.

Definition affirmative : list string := [ "true"; "yes"; "1"; "on"; "checked" ].

(** [fillCheckboxField(element, value)] *)
Definition fillCheckboxField (element : CheckboxEl) (value : string)
  : CheckboxEl * list Event :=
  let shouldCheck := existsb (String.eqb (toLowerCase value)) affirmative in
  if Bool.eqb (c_checked element) shouldCheck then (element, [Focus; Blur])
  else (mkCheckbox shouldCheck, (Focus :: triggerFieldEvents ++ [Blur])%list).

Definition is_upper (c : ascii) : bool :=
  let n := nat_of_ascii c in (65 <=? n)%nat && (n <=? 90)%nat.

(** The text before the first comma and the text after it. *)
Fixpoint at_comma (tok s : string) : option (string * string) :=
  match s with
  | EmptyString => None
  | String c rest =>
      if Ascii.eqb c "," then Some (rev_string "" tok, rest)
      else at_comma (String c tok) rest
  end.

(** [location.match(/^[^,]+,\s*[A-Z]{2}$/)]: some text without a comma,
    the first comma, white space, two capitals, and nothing more. *)
Definition matchesCityState (location : string) : bool :=
  match at_comma "" location with
  | Some (city, rest) =>
      truthy city
      && match trimStart rest with
         | String a (String b EmptyString) => is_upper a && is_upper b
         | _ => false
         end
  | None => false
  end.

(** [s.split(', ')] *)
Fixpoint split_comma_blank (tok s : string) : list string :=
  match s with
  | EmptyString => [rev_string "" tok]
  | String c rest =>
      match rest with
      | String c' rest' =>
          if Ascii.eqb c "," && Ascii.eqb c' " "
          then rev_string "" tok :: split_comma_blank "" rest'
          else split_comma_blank (String c tok) rest
      | EmptyString => split_comma_blank (String c tok) rest
      end
  end.

Definition stateExpansions : list (string * string) :=
  [ ("AZ", "Arizona"); ("CA", "California"); ("NY", "New York"); ("TX", "Texas");
    ("FL", "Florida"); ("WA", "Washington"); ("GA", "Georgia");
    ("NC", "North Carolina"); ("TN", "Tennessee") ].

(** A part of a template literal; [undefined] reads as its name. *)
Definition interpolate (part : option string) : string :=
  match part with
  | Some s => s
  | None => "undefined"
  end.

(** [getLocationFormats(location)] *)
Definition getLocationFormats (location : string) : list string :=
  if matchesCityState location then
    let parts := split_comma_blank "" location in
    let city := nth_error parts 0 in
    let state := nth_error parts 1 in
    let formats :=
      [ location;
        location ++ ", United States";
        interpolate city ++ ", " ++ interpolate state ++ ", United States" ] in
    let expanded :=
      match state with
      | Some st =>
          match get st stateExpansions with
          | Some full =>
              [ interpolate city ++ ", " ++ full;
                interpolate city ++ ", " ++ full ++ ", United States" ]
          | None => []
          end
      | None => []
      end in
    (formats ++ expanded)%list
  else [location].

(** The page at one moment of the location writer: the document and
    the layout heights that the script reads. *)
Record Snapshot := mkSnapshot {
  doc : Document;
  offsetHeight : Element -> Z
}.





Definition visible (p : Snapshot) (t : Tree) : bool :=
  (0 <? offsetHeight p (elem t))%Z.









End TextWriters.

(** ** What the detector reports about the page *)

Module Reports.
Import Str Dom Discovery.

(** [types.add(x)] on a [Set], kept in insertion order. *)
Definition set_add (x : string) (types : list string) : list string :=
  if existsb (String.eqb x) types then types else (types ++ [x])%list.

(** [(form.innerText || '').toLowerCase()]; a virtual form has no
    [innerText]. *)
Definition formText (form : FormEntry) : string :=
  match form with
  | RealForm t => toLowerCase (innerText (elem t))
  | VirtualForm _ => ""
  end.

(** [getFormTypes()] *)
Definition getFormTypes (s : Detector) : list string :=
  fold_left
    (fun types form =>
       let text := formText form in
       let types := if includes text "application" then set_add "Application" types
                    else types in
       let types := if includes text "career" || includes text "job"
                    then set_add "Career" types else types in
       let types := if includes text "resume" || includes text "cv"
                    then set_add "Resume Upload" types else types in
       if includes text "contact" then set_add "Contact" types else types)
    (forms s) [].

Definition atsSignatures : list (string * list string) :=
  [ ("workday",
      [ "workday.com"; "wd1.workdaycdn.com"; "[data-automation-id]";
        "workday-application" ]);
    ("greenhouse",
      [ "greenhouse.io"; "boards.greenhouse.io"; "job-boards.greenhouse.io";
        "greenhouse-application"; ".application--form" ]);
    ("icims", [ "icims.com"; "icitms"; "icims-application"; ".icims" ]);
    ("taleo", [ "taleo.net"; "tbe.taleo.net"; "taleo-application" ]);
    ("avature", [ "avature.net"; "avature-application" ]);
    ("lever", [ "lever.co"; "jobs.lever.co"; "lever-application" ]);
    ("smartrecruiters",
      [ "smartrecruiters.com"; "jobs.smartrecruiters.com";
        "smartrecruiters-application" ]);
    ("indeed", [ "indeed.com"; "indeed-apply" ]);
    ("linkedin", [ "linkedin.com/jobs"; "linkedin-job-apply" ]) ].

(** The two nested loops of [detectATSPlatform]. *)
Fixpoint firstPlatform (url pageHTML : string) (table : list (string * list string))
  : string :=
  match table with
  | [] => "generic"
  | (platform, signatures) :: rest =>
      if existsb (fun signature => includes url signature || includes pageHTML signature)
                 signatures
      then platform
      else firstPlatform url pageHTML rest
  end.

(** [detectATSPlatform()]: [href] is [window.location.href], [outerHTML]
    the serialisation of the document. *)
Definition detectATSPlatform (href outerHTML : string) : string :=
  firstPlatform (toLowerCase href) (toLowerCase outerHTML) atsSignatures.

(** A number of the bounding-box code: whole, or one of the two
    infinities the accumulators start from. *)
Inductive Ext :=
| NegInfinity
| Finite (z : Z)
| Infinity.

(** [Math.min(a, b)] and [Math.max(a, b)] for a whole [b]. *)
Definition ext_min (a : Ext) (b : Z) : Ext :=
  match a with
  | NegInfinity => NegInfinity
  | Finite z => Finite (Z.min z b)
  | Infinity => Finite b
  end.

Definition ext_max (a : Ext) (b : Z) : Ext :=
  match a with
  | NegInfinity => Finite b
  | Finite z => Finite (Z.max z b)
  | Infinity => Infinity
  end.

(** The object that [getBoundingClientRect] and [getVirtualFormBounds]
    return. *)
Record Bounds := mkBounds {
  b_left : Z; b_top : Z; b_right : Z; b_bottom : Z; b_width : Z; b_height : Z
}.

(** [element.getBoundingClientRect()] *)
Definition boundsOf (r : DOMRect) : Bounds :=
  mkBounds (left r) (top r) (left r + width r) (top r + height r) (width r) (height r).

(** The four accumulators [minX], [minY], [maxX], [maxY]. *)
Record Box := mkBox { minX : Ext; minY : Ext; maxX : Ext; maxY : Ext }.

Definition emptyBox : Box := mkBox Infinity Infinity NegInfinity NegInfinity.

(** The update of the accumulators by bounds of positive width and
    height. *)
Definition extend (box : Box) (bounds : Bounds) : Box :=
  if (0 <? b_width bounds)%Z && (0 <? b_height bounds)%Z then
    mkBox (ext_min (minX box) (b_left bounds)) (ext_min (minY box) (b_top bounds))
          (ext_max (maxX box) (b_right bounds)) (ext_max (maxY box) (b_bottom bounds))
  else box.

(** [getVirtualFormBounds(inputs)]; [None] is [null]. *)
Definition getVirtualFormBounds (inputs : list Element) : option Bounds :=
  match inputs with
  | [] => None
  | _ =>
      let box := fold_left (fun box input => extend box (boundsOf (rect input)))
                           inputs emptyBox in
      match minX box, minY box, maxX box, maxY box with
      | Finite x0, Finite y0, Finite x1, Finite y1 =>
          Some (mkBounds x0 y0 x1 y1 (x1 - x0) (y1 - y0))
      | _, _, _, _ => None
      end
  end.

(** The object that [getClusterBounds] returns. *)
Record Sides := mkSides { s_top : Z; s_left : Z; s_right : Z; s_bottom : Z }.

(** [Math.min(...xs)] and [Math.max(...xs)] of a list that is not
    empty. *)
Definition minimum (x : Z) (xs : list Z) : Z := fold_left Z.min xs x.
Definition maximum (x : Z) (xs : list Z) : Z := fold_left Z.max xs x.

(** [getClusterBounds(inputs)] *)
Definition getClusterBounds (inputs : list Element) : Sides :=
  match map (fun input => boundsOf (rect input)) inputs with
  | [] => mkSides 0 0 0 0
  | r :: rects =>
      mkSides (minimum (b_top r) (map b_top rects))
              (minimum (b_left r) (map b_left rects))
              (maximum (b_right r) (map b_right rects))
              (maximum (b_bottom r) (map b_bottom rects))
  end.

(** The bounds of a recorded form, as [getFormBounds] takes them. *)
Definition formBounds (form : FormEntry) : option Bounds :=
  match form with
  | VirtualForm inputs => getVirtualFormBounds inputs
  | RealForm t => Some (boundsOf (rect (elem t)))
  end.

(** The object that [getFormBounds] returns. *)
Record Crop := mkCrop { crop_left : Z; crop_top : Z; crop_width : Z; crop_height : Z }.

(** [getFormBounds()]: [innerWidth] and [innerHeight] are those of the
    window; [None] is [null]. *)
Definition getFormBounds (innerWidth innerHeight : Z) (s : Detector) : option Crop :=
  match forms s with
  | [] => None
  | _ =>
      let box :=
        fold_left (fun box form =>
                     match formBounds form with
                     | Some bounds => extend box bounds
                     | None => box
                     end)
                  (forms s) emptyBox in
      match minX box, minY box, maxX box, maxY box with
      | Finite x0, Finite y0, Finite x1, Finite y1 =>
          let padding := 20%Z in
          Some (mkCrop (Z.max 0 (x0 - padding))
                       (Z.max 0 (y0 - padding))
                       (Z.max (Z.min innerWidth (x1 - x0 + 2 * padding)) 300)
                       (Z.max (Z.min innerHeight (y1 - y0 + 2 * padding)) 200))
      | _, _, _, _ => None
      end
  end.

End Reports.

(** ** The background script

    [background.js] keeps, in the map [tabStatus], what it knows of the
    content script of each tab.  The handlers are modelled by what they
    do to that map; what they send and what they ask of the browser is
    left out. *)

Module Background.
Import Str.

(** A value of [tabStatus]; [None] is a property that is not there. *)
Record Status := mkStatus { ready : option bool; lastPing : option Z }.

(** A [Map] from tab ids, in the order of insertion. *)
Definition TabStatus := list (Z * Status).

Fixpoint map_get (tabId : Z) (m : TabStatus) : option Status :=
  match m with
  | [] => None
  | (k, v) :: rest => if (k =? tabId)%Z then Some v else map_get tabId rest
  end.

Fixpoint map_set (tabId : Z) (s : Status) (m : TabStatus) : TabStatus :=
  match m with
  | [] => [(tabId, s)]
  | (k, v) :: rest =>
      if (k =? tabId)%Z then (k, s) :: rest else (k, v) :: map_set tabId s rest
  end.

Definition map_delete (tabId : Z) (m : TabStatus) : TabStatus :=
  filter (fun entry => negb (fst entry =? tabId)%Z) m.

(** [isValidUrl(url)], as a condition. *)
Definition isValidUrl (url : string) : bool :=
  truthy url
  && negb (String.prefix "chrome://" url)
  && negb (String.prefix "chrome-extension://" url)
  && negb (String.prefix "moz-extension://" url)
  && negb (String.prefix "about:" url).

(** What the script reacts to: a message with [request.action],
    [sender.tab.id] when the sender is a tab, and the time; a tab
    updated, with [changeInfo.status] and [tab.url] (empty when there is
    none); a tab closed; the browser started; the extension installed or
    updated; and, in [injectContentScriptsIntoExistingTabs], a tab that
    answered the ping. *)
Inductive Event :=
| Message (action : string) (tab : option Z) (now : Z)
| Updated (tabId : Z) (status url : string)
| Removed (tabId : Z)
| Startup
| Installed
| Answered (tabId : Z) (now : Z).

(** The listener of [chrome.runtime.onMessage]. *)
Definition onMessage (tabStatus : TabStatus) (action : string) (tab : option Z) (now : Z)
  : TabStatus :=
  if String.eqb action "contentScriptReady" then
    match tab with
    | Some id => map_set id (mkStatus (Some true) (Some now)) tabStatus
    | None => tabStatus
    end
  else if String.eqb action "ping" then
    match tab with
    | Some id =>
        let status := match map_get id tabStatus with
                      | Some s => s
                      | None => mkStatus None None
                      end in
        map_set id (mkStatus (ready status) (Some now)) tabStatus
    | None => tabStatus
    end
  else tabStatus.

Definition on_event (tabStatus : TabStatus) (e : Event) : TabStatus :=
  match e with
  | Message action tab now => onMessage tabStatus action tab now
  | Updated tabId status url =>
      if String.eqb status "complete" && truthy url && isValidUrl url
      then map_delete tabId tabStatus
      else tabStatus
  | Removed tabId => map_delete tabId tabStatus
  | Startup | Installed => []
  | Answered tabId now => map_set tabId (mkStatus (Some true) (Some now)) tabStatus
  end.

(** The map after the events, from the empty map the script starts with. *)
Definition after (events : list Event) : TabStatus := fold_left on_event events [].

(** [status && status.ready], as a condition, for the tab [tabId]. *)
Definition isReady (tabStatus : TabStatus) (tabId : Z) : bool :=
  match map_get tabId tabStatus with
  | Some status => match ready status with Some b => b | None => false end
  | None => false
  end.

End Background.

(** ** Notions used to state the properties of the filling code *)

Module Props.
Import Str Dom Discovery Data.

(** A word: not empty, without white space. *)
Definition is_word (w : string) : bool :=
  truthy w && forallb_string (fun c => negb (is_space c)) w.

(** A text without a comma. *)
Definition no_comma (s : string) : bool :=
  forallb_string (fun c => negb (Ascii.eqb c ",")) s.

(** The keys under which [getValueForField] looks for a first or a last
    name before it splits a full name. *)
Definition nameKeys : list string :=
  [ "firstName"; "first_name"; "fname"; "given_name";
    "lastName"; "last_name"; "lname"; "family_name"; "surname" ].

(** The field types of the taxonomy that [getValueForField] has a
    default for, with the default. *)
Definition defaults : list (string * string) :=
  [ ("phone", "+1 (555) 123-4567");
    ("linkedin", "https://linkedin.com/in/divyanshgupta");
    ("portfolio", "https://github.com/divyanshgupta");
    ("company", "Tech Innovations Inc.");
    ("title", "Senior Software Engineer");
    ("years", "5+ years");
    ("degree", "Bachelor of Computer Science");
    ("university", "University of Technology");
    ("workAuthorization", "Yes, I am authorized to work") ].

(** The form data, or a default, has a value for the mapped field. *)
Definition has_value (formData : Value) (field : string * string * FieldInfo) : bool :=
  match getValueForField formData (fst (fst field)) (snd (fst field)) with
  | Returns v => is_truthy v && truthy (tagName (fi_element (snd field)))
  | TypeError => false
  end.

(** The control a writer is called on. *)
Definition call_element (call : Filling.WriterCall) : Element :=
  match call with
  | Filling.CallSelect e _ | Filling.CallCheckbox e _ | Filling.CallRadio e _
  | Filling.CallFile e _ | Filling.CallText e _ => e
  end.


(** The form types that the text of a form calls for, in the order of
    the four tests of [getFormTypes]. *)
Definition typesOf (text : string) : list string :=
  ((if includes text "application" then ["Application"] else [])
     ++ (if includes text "career" || includes text "job" then ["Career"] else [])
     ++ (if includes text "resume" || includes text "cv" then ["Resume Upload"] else [])
     ++ (if includes text "contact" then ["Contact"] else []))%list.

(** Bounds of positive width and height. *)
Definition positive (b : Reports.Bounds) : bool :=
  (0 <? Reports.b_width b)%Z && (0 <? Reports.b_height b)%Z.

(** [x0], [y0], [x1], [y1] are the sides of the least rectangle that
    holds all the bounds of the list. *)
Definition bounding (x0 y0 x1 y1 : Z) (bs : list Reports.Bounds) : Prop :=
  (forall b, In b bs ->
             (x0 <= Reports.b_left b /\ y0 <= Reports.b_top b
              /\ Reports.b_right b <= x1 /\ Reports.b_bottom b <= y1)%Z)
  /\ (exists b, In b bs /\ Reports.b_left b = x0)
  /\ (exists b, In b bs /\ Reports.b_top b = y0)
  /\ (exists b, In b bs /\ Reports.b_right b = x1)
  /\ (exists b, In b bs /\ Reports.b_bottom b = y1).

(** The bounds of the recorded forms that have bounds. *)
Definition boundsOfForms (forms : list FormEntry) : list Reports.Bounds :=
  flat_map (fun form => match Reports.formBounds form with
                        | Some b => [b]
                        | None => []
                        end) forms.

(** One of the signatures occurs in the address or in the page. *)
Definition found (url pageHTML : string) (signatures : list string) : bool :=
  existsb (fun signature => includes url signature || includes pageHTML signature)
          signatures.



(** What [CSS.escape] makes of the character [c] at index [i], as the
    selector engine reads it back: the character as it is, or the
    character escaped. *)
Definition escaped_item (i len : nat) (first c : ascii) : Css.item :=
  let n := nat_of_ascii c in
  if ((1 <=? n)%nat && (n <=? 31)%nat) || (n =? 127)%nat then Css.Esc c
  else if (i =? 0)%nat && is_digit c then Css.Esc c
  else if (i =? 1)%nat && is_digit c && Ascii.eqb first "-" then Css.Esc c
  else if (i =? 0)%nat && (len =? 1)%nat && Ascii.eqb c "-" then Css.Esc c
  else if Css.plain_ident_char c then Css.Plain c
  else Css.Esc c.

Fixpoint escaped_items (i len : nat) (first : ascii) (s : string) : list Css.item :=
  match s with
  | EmptyString => []
  | String c rest => escaped_item i len first c :: escaped_items (S i) len first rest
  end.

(** A text without the character of code 0. *)
Definition no_nul (s : string) : bool :=
  forallb_string (fun c => negb (nat_of_ascii c =? 0)%nat) s.

(** The element is the one element of the document with its id. *)
Definition only_with_its_id (d : Document) (element : Element) : Prop :=
  filter (fun x => match getAttribute x "id" with
                   | Some i => String.eqb i (el_id element)
                   | None => false
                   end)
         (map elem (all_trees d))
  = [element].








(** The event makes the tab ready: its content script says so, or it
    has answered a ping of the background script. *)
Definition announces (tabId : Z) (e : Background.Event) : bool :=
  match e with
  | Background.Message action (Some id) _ =>
      String.eqb action "contentScriptReady" && (id =? tabId)%Z
  | Background.Answered id _ => (id =? tabId)%Z
  | _ => false
  end.

(** The event makes the script forget the tab: a page has finished
    loading in it, it was closed, or the script starts anew. *)
Definition clears (tabId : Z) (e : Background.Event) : bool :=
  match e with
  | Background.Updated id status url =>
      String.eqb status "complete" && Background.isValidUrl url && (id =? tabId)%Z
  | Background.Removed id => (id =? tabId)%Z
  | Background.Startup | Background.Installed => true
  | _ => false
  end.

(** The sum of the counts of an analysis. *)
Definition total (fields : list (string * nat)) : nat :=
  fold_right (fun entry n => snd entry + n) 0 fields.

End Props.

(** ** Pages and form data to try the properties on *)

Module Examples.
Import Str Dom Discovery Data.

(** A form that asks for a first name, a last name and an address. *)
Definition first_name : Element :=
  Scenarios.input_named 1 "first_name" (mkRect 10 10 200 20).
Definition last_name : Element :=
  Scenarios.input_named 2 "last_name" (mkRect 10 40 200 20).
Definition email_field : Element :=
  Scenarios.input_named 3 "email" (mkRect 10 70 200 20).

Definition names : list Element := [ first_name; last_name; email_field ].

Definition namesDoc : Document :=
  mkDocument Scenarios.page
    [ Node (mkElement 0 "form" [] "" "" Scenarios.page (mkRect 0 0 400 100))
           [ Node first_name []; Node last_name []; Node email_field [] ] ].

(** The field map of the three inputs. *)
Definition namesFields : Fields :=
  match map_fields namesDoc names emptyFields with
  | Some fields => fields
  | None => emptyFields
  end.


(** An input with an id, beside one without. *)
Definition with_id : Element :=
  mkElement 1 "input" [("id", "applicant-email"); ("name", "email")] "" "" ""
            (mkRect 10 10 200 20).

Definition idDoc : Document :=
  mkDocument Scenarios.page [ Node with_id []; Node Scenarios.other_input [] ].

(** Form data that hold an address only. *)
Definition addressOnly : Value := VObj [ ("email", VStr "ada@example.com") ].

End Examples.

(** * Properties *)

(** ** The classifier on the fields of scenario A *)

Section ClassifierOnNames.
Import Str Matcher Classifier.

(** The list of [fullName] comes first in the taxonomy and holds the
    pattern [name]: every haystack with [name] in it is a full name. *)
Lemma name_is_fullName (text : string) :
  includes text "name" = true ->
  category (classify text) = Some "personalInfo"
  /\ type (classify text) = Some "fullName".
Proof.
  intros Hname.
  unfold classify. cbn [Taxonomy.entries Taxonomy.fieldPatterns flat_map map fst snd app classify_in].
  unfold fuzzyMatchField. cbn [existsb].
  rewrite Hname, !orb_true_r. cbn. split; reflexivity.
Qed.

(** C1.  In a document of one form with the fields [first_name] and
    [email], [identifyField] classifies [email] as
    (personalInfo, email, 1.0), but [first_name] as
    (personalInfo, fullName, 1.0) and not as firstName: the pattern
    [name] of the earlier list [fullName] is a substring of the
    haystack. *)
Theorem scenarioA_first_name_is_classified_fullName :
  identifyField Scenarios.scenarioA Scenarios.first_name_input
  = mkResult (Some "personalInfo") (Some "fullName") 1%Q
  /\ identifyField Scenarios.scenarioA Scenarios.email_input
     = mkResult (Some "personalInfo") (Some "email") 1%Q.
Proof. split; vm_compute; reflexivity. Qed.

End ClassifierOnNames.

(** ** The matcher and the classifier *)

Section MatcherFacts.
Import Str Matcher Classifier.

Lemma lev_nil_l (t : string) : Spec.lev "" t = String.length t.
Proof. destruct t; reflexivity. Qed.

Lemma lev_nil_r (s : string) : Spec.lev s "" = String.length s.
Proof. destruct s; reflexivity. Qed.

Lemma lev_cons (a b : ascii) (s t : string) :
  Spec.lev (String a s) (String b t)
  = min3 (Spec.lev (String a s) t + 1) (Spec.lev s (String b t) + 1) (Spec.lev s t + Spec.cost a b).
Proof. reflexivity. Qed.

Lemma edits_delete_all (s : string) : Spec.edits s "" (String.length s).
Proof. induction s; cbn; constructor; assumption. Qed.

Lemma edits_insert_all (t : string) : Spec.edits "" t (String.length t).
Proof. induction t; cbn; constructor; assumption. Qed.

(** [Spec.lev s t] Spec.edits turn [s] into [t]. *)
Lemma lev_edits (s t : string) : Spec.edits s t (Spec.lev s t).
Proof.
  revert t. induction s as [|a s IHs]; intros t.
  - rewrite lev_nil_l. apply edits_insert_all.
  - induction t as [|b t IHt].
    + rewrite lev_nil_r. apply edits_delete_all.
    + rewrite lev_cons. unfold min3.
      destruct (Nat.min_dec (Nat.min (Spec.lev (String a s) t + 1) (Spec.lev s (String b t) + 1))
                            (Spec.lev s t + Spec.cost a b)) as [E | E]; rewrite E.
      * destruct (Nat.min_dec (Spec.lev (String a s) t + 1) (Spec.lev s (String b t) + 1))
          as [E' | E']; rewrite E'; rewrite Nat.add_1_r.
        -- apply Spec.edits_insert. exact IHt.
        -- apply Spec.edits_delete. apply IHs.
      * apply Spec.edits_change. apply IHs.
Qed.

(** No fewer Spec.edits do. *)
Lemma edits_lev (s t : string) (n : nat) : Spec.edits s t n -> Spec.lev s t <= n.
Proof.
  induction 1 as [|a s t n H IH|b s t n H IH|a b s t n H IH].
  - cbn. lia.
  - destruct t as [|b t].
    + rewrite lev_nil_r in *. cbn [String.length]. lia.
    + rewrite lev_cons. unfold min3. lia.
  - destruct s as [|a s].
    + rewrite lev_nil_l in *. cbn [String.length]. lia.
    + rewrite lev_cons. unfold min3. lia.
  - rewrite lev_cons. unfold min3. lia.
Qed.

Lemma edits_snoc_delete (a : ascii) (s t : string) (n : nat) :
  Spec.edits s t n -> Spec.edits (Spec.snoc s a) t (S n).
Proof.
  induction 1; cbn [Spec.snoc append] in *.
  - apply Spec.edits_delete. constructor.
  - apply Spec.edits_delete. assumption.
  - apply Spec.edits_insert. assumption.
  - change (S (n + Spec.cost a0 b)) with (S n + Spec.cost a0 b). apply Spec.edits_change. assumption.
Qed.

Lemma edits_snoc_insert (b : ascii) (s t : string) (n : nat) :
  Spec.edits s t n -> Spec.edits s (Spec.snoc t b) (S n).
Proof.
  induction 1; cbn [Spec.snoc append] in *.
  - apply Spec.edits_insert. constructor.
  - apply Spec.edits_delete. assumption.
  - apply Spec.edits_insert. assumption.
  - change (S (n + Spec.cost a b0)) with (S n + Spec.cost a b0). apply Spec.edits_change. assumption.
Qed.

Lemma edits_snoc_change (a b : ascii) (s t : string) (n : nat) :
  Spec.edits s t n -> Spec.edits (Spec.snoc s a) (Spec.snoc t b) (n + Spec.cost a b).
Proof.
  induction 1; cbn [Spec.snoc append] in *.
  - apply (Spec.edits_change a b "" "" 0). constructor.
  - apply Spec.edits_delete. assumption.
  - apply Spec.edits_insert. assumption.
  - replace (n + Spec.cost a0 b0 + Spec.cost a b) with (n + Spec.cost a b + Spec.cost a0 b0) by lia.
    apply Spec.edits_change. assumption.
Qed.

Lemma rev_string_snoc (acc s : string) (a : ascii) :
  rev_string acc (Spec.snoc s a) = String a (rev_string acc s).
Proof.
  revert acc. induction s as [|c s IH]; intros acc; [reflexivity|].
  cbn [Spec.snoc append rev_string]. apply IH.
Qed.

Lemma rev_string_acc (s acc1 acc2 : string) :
  rev_string (acc1 ++ acc2) s = rev_string acc1 s ++ acc2.
Proof.
  revert acc1. induction s as [|c s IH]; intros acc1; [reflexivity|].
  cbn [rev_string]. apply (IH (String c acc1)).
Qed.

Lemma rev_string_cons (s : string) (a : ascii) :
  rev_string "" (String a s) = Spec.snoc (rev_string "" s) a.
Proof. cbn [rev_string]. apply (rev_string_acc s "" (String a "")). Qed.

Lemma rev_string_involutive (s : string) : rev_string "" (rev_string "" s) = s.
Proof.
  induction s as [|a s IH]; [reflexivity|].
  rewrite rev_string_cons, rev_string_snoc, IH. reflexivity.
Qed.

(** Edits of the reversed strings. *)
Lemma edits_rev (s t : string) (n : nat) :
  Spec.edits s t n -> Spec.edits (rev_string "" s) (rev_string "" t) n.
Proof.
  induction 1; rewrite ?rev_string_cons.
  - constructor.
  - apply edits_snoc_delete. assumption.
  - apply edits_snoc_insert. assumption.
  - apply edits_snoc_change. assumption.
Qed.

(** The distance does not change when both strings are reversed. *)
Lemma lev_rev (s t : string) : Spec.lev (rev_string "" s) (rev_string "" t) = Spec.lev s t.
Proof.
  apply Nat.le_antisymm.
  - apply edits_lev, edits_rev, lev_edits.
  - rewrite <- (rev_string_involutive s) at 1. rewrite <- (rev_string_involutive t) at 1.
    apply edits_lev, edits_rev, lev_edits.
Qed.


Lemma row_from_eq (done1 rest1 done2 : string) :
  Spec.row_from done1 rest1 done2
  = Spec.lev done1 done2
    :: match rest1 with
       | EmptyString => []
       | String c rest => Spec.row_from (String c done1) rest done2
       end.
Proof. destruct rest1; reflexivity. Qed.

(** A row of the matrix, from the column of [done1] on: the distances
    between the prefixes of the first string and the prefix [done2] of
    the second, prefixes being kept reversed. *)
Lemma lev_row_spec (c2 : ascii) (rest1 done1 done2 : string) :
  lev_row c2 rest1 (Spec.row_from done1 rest1 done2) (Spec.lev done1 (String c2 done2))
  = match rest1 with
    | EmptyString => []
    | String c rest => Spec.row_from (String c done1) rest (String c2 done2)
    end.
Proof.
  revert done1. induction rest1 as [|c1 rest IH]; intros done1; [reflexivity|].
  rewrite (row_from_eq done1 (String c1 rest) done2).
  rewrite (row_from_eq (String c1 done1) rest done2).
  cbn [lev_row].
  rewrite <- (row_from_eq (String c1 done1) rest done2).
  change (if Ascii.eqb c1 c2 then 0 else 1) with (Spec.cost c1 c2).
  rewrite <- lev_cons. rewrite IH.
  rewrite (row_from_eq (String c1 done1) rest (String c2 done2)). reflexivity.
Qed.

Lemma lev_rows_spec (str1 rest2 done2 : string) :
  lev_rows str1 rest2 (String.length done2) (Spec.row_from "" str1 done2)
  = Spec.row_from "" str1 (rev_string done2 rest2).
Proof.
  revert done2. induction rest2 as [|c2 rest IH]; intros done2; [reflexivity|].
  cbn [lev_rows rev_string]. rewrite <- (IH (String c2 done2)). cbn [String.length].
  f_equal. rewrite (row_from_eq "" str1 (String c2 done2)).
  rewrite <- (lev_row_spec c2 str1 "" done2).
  rewrite lev_nil_l. reflexivity.
Qed.

Lemma row_from_first (done1 rest1 : string) :
  Spec.row_from done1 rest1 "" = seq (String.length done1) (S (String.length rest1)).
Proof.
  revert done1. induction rest1 as [|c rest IH]; intros done1.
  - cbn. rewrite lev_nil_r. reflexivity.
  - cbn [Spec.row_from String.length seq]. rewrite lev_nil_r. f_equal.
    rewrite IH. reflexivity.
Qed.

Lemma row_from_last (done1 rest1 done2 : string) :
  last (Spec.row_from done1 rest1 done2) 0 = Spec.lev (rev_string done1 rest1) done2.
Proof.
  revert done1. induction rest1 as [|c rest IH]; intros done1; [reflexivity|].
  cbn [rev_string]. rewrite <- IH. cbn [Spec.row_from].
  destruct rest; reflexivity.
Qed.

(** The matrix of [levenshteinDistance] computes the edit distance. *)
Lemma levenshteinDistance_is_lev (str1 str2 : string) :
  levenshteinDistance str1 str2 = Spec.lev str1 str2.
Proof.
  unfold levenshteinDistance.
  replace (seq 0 (S (String.length str1))) with (Spec.row_from "" str1 "")
    by (rewrite row_from_first; reflexivity).
  change 0 with (String.length "") at 1.
  rewrite (lev_rows_spec str1 str2 ""), row_from_last. apply lev_rev.
Qed.

Lemma edits_sym (s t : string) (n : nat) : Spec.edits s t n -> Spec.edits t s n.
Proof.
  induction 1 as [|a s t n H IH|b s t n H IH|a b s t n H IH].
  - constructor.
  - apply Spec.edits_insert. exact IH.
  - apply Spec.edits_delete. exact IH.
  - replace (Spec.cost a b) with (Spec.cost b a)
      by (unfold Spec.cost; rewrite Ascii.eqb_sym; reflexivity).
    apply Spec.edits_change. exact IH.
Qed.

(** The distance is symmetric. *)
Lemma lev_sym (s t : string) : Spec.lev s t = Spec.lev t s.
Proof.
  apply Nat.le_antisymm; apply edits_lev, edits_sym, lev_edits.
Qed.

(** [calculateSimilarity] is the normalised Levenshtein similarity. *)
Lemma calculateSimilarity_spec (str1 str2 : string) :
  calculateSimilarity str1 str2 = Spec.similarity str1 str2.
Proof.
  unfold calculateSimilarity, Spec.similarity. rewrite !levenshteinDistance_is_lev.
  destruct (String.length str2 <? String.length str1)%nat eqn:E.
  - apply Nat.ltb_lt in E.
    replace (Nat.max (String.length str1) (String.length str2))
      with (String.length str1) by lia.
    reflexivity.
  - apply Nat.ltb_ge in E.
    replace (Nat.max (String.length str1) (String.length str2))
      with (String.length str2) by lia.
    rewrite (lev_sym str2 str1). reflexivity.
Qed.

(** The edit distance is at most the length of the longer string. *)
Lemma lev_bound (s t : string) :
  Spec.lev s t <= Nat.max (String.length s) (String.length t).
Proof.
  revert t. induction s as [|a s IH]; intros t.
  - rewrite lev_nil_l. lia.
  - destruct t as [|b t].
    + rewrite lev_nil_r. lia.
    + rewrite lev_cons. specialize (IH t). unfold min3, Spec.cost.
      cbn [String.length]. destruct (Ascii.eqb a b); lia.
Qed.

Lemma levenshtein_bound (str1 str2 : string) :
  levenshteinDistance str1 str2 <= Nat.max (String.length str1) (String.length str2).
Proof. rewrite levenshteinDistance_is_lev. apply lev_bound. Qed.

Lemma similarity_bounds (str1 str2 : string) :
  (0 <= calculateSimilarity str1 str2 <= 1)%Q.
Proof.
  unfold calculateSimilarity.
  set (longer := if (String.length str2 <? String.length str1)%nat then str1 else str2).
  set (shorter := if (String.length str2 <? String.length str1)%nat then str2 else str1).
  assert (Hmax : Nat.max (String.length longer) (String.length shorter)
                 = String.length longer).
  { unfold longer, shorter.
    destruct (String.length str2 <? String.length str1)%nat eqn:E.
    - apply Nat.ltb_lt in E. lia.
    - apply Nat.ltb_ge in E. lia. }
  pose proof (levenshtein_bound longer shorter) as Hd. rewrite Hmax in Hd.
  destruct (String.length longer) eqn:EL.
  - split; [discriminate | apply Qle_refl].
  - unfold Qle. cbn [Qnum Qden]. split; lia.
Qed.


















End MatcherFacts.

(** ** The resolver on attribute values that hold selector syntax *)

Section ResolverEscaping.
Import Str Dom Selector.

(** C2.  The name step of [getElementSelector] puts the attribute value
    into the selector as it is.  For an input whose name closes the
    attribute selector and opens a second one ([injected_name]) next to
    an input named [b], the resolver returns a list of two attribute
    selectors, which resolves to the other input; for an input whose
    name holds one double quote the query is malformed and the call
    throws. *)
Theorem name_step_is_not_escaped :
  getElementSelector Scenarios.injectionDoc Scenarios.injected_input
  = Some ("[name=" ++ dq ++ "a" ++ dq ++ "],[name=" ++ dq ++ "b" ++ dq ++ "]")
  /\ Css.querySelectorAll Scenarios.injectionDoc
       ("[name=" ++ dq ++ "a" ++ dq ++ "],[name=" ++ dq ++ "b" ++ dq ++ "]")
     = Some [Scenarios.other_input]
  /\ same Scenarios.other_input Scenarios.injected_input = false
  /\ getElementSelector Scenarios.quoteDoc Scenarios.quoted_input = None.
Proof. repeat split; vm_compute; reflexivity. Qed.

End ResolverEscaping.

(** ** Inputs of a form that also make a cluster *)

Section Reassignment.
Import Dom Discovery.

(** C3.  One pass over a document whose only form holds three
    classified inputs within 200 px of each other records the form and,
    from the same three inputs, a virtual form: the clustering step
    starts from every input of the document, those of a recorded form
    included. *)
Theorem form_inputs_are_clustered_again :
  forms (state_of (detectJobForms Scenarios.formDoc))
  = [ RealForm Scenarios.theForm;
      VirtualForm [Scenarios.form_email; Scenarios.form_phone; Scenarios.form_resume] ]
  /\ inputs_of Scenarios.theForm
     = [Scenarios.form_email; Scenarios.form_phone; Scenarios.form_resume].
Proof. split; vm_compute; reflexivity. Qed.

End Reassignment.

(** ** The score of a form *)

Section FormScore.
Import Dom Discovery.



End FormScore.

(** ** The liveness ping on a hidden page *)

Section HiddenPage.
Import Session.



End HiddenPage.

(** ** The radio writer *)

Section RadioWriter.
Import Str Writers.

(** C10.  [fillRadioField] never unchecks: a checked control stays
    checked, a control is checked afterwards only if it was before or
    its value equals the source value or the text after it contains the
    source value (letter case aside), and without such a match, or when
    already checked, the control is left as it was and no event is
    dispatched. *)
Theorem radio_writer_never_unchecks (element : RadioEl) (value : string) :
  (checked element = true -> checked (fst (fillRadioField element value)) = true)
  /\ (checked (fst (fillRadioField element value)) = true ->
      checked element = true
      \/ toLowerCase (r_value element) = toLowerCase value
      \/ exists text, nextSiblingText element = Some text
                      /\ includes (toLowerCase text) (toLowerCase value) = true)
  /\ (shouldCheck element value = false \/ checked element = true ->
      fillRadioField element value = (element, [Focus; Blur]))
  /\ (shouldCheck element value = true -> checked element = false ->
      fillRadioField element value
      = (mkRadio (r_value element) true (nextSiblingText element),
         [Focus; Dispatch "input"; Dispatch "change"; Dispatch "keyup";
          Dispatch "blur"; Blur]))
  /\ r_value (fst (fillRadioField element value)) = r_value element
  /\ nextSiblingText (fst (fillRadioField element value)) = nextSiblingText element.
Proof.
  unfold fillRadioField.
  destruct (shouldCheck element value) eqn:Hs, (checked element) eqn:Hc; cbn;
    repeat split; intros; auto; try discriminate; try congruence;
    try (destruct H; discriminate).
  - unfold shouldCheck in Hs. apply orb_true_iff in Hs. destruct Hs as [Hv | Ht].
    + right; left. apply String.eqb_eq. exact Hv.
    + right; right. destruct (nextSiblingText element) as [text|]; [|discriminate].
      exists text. split; [reflexivity | exact Ht].
Qed.

(** The theorem at a checked control and a value that matches
    nothing. *)
Lemma radio_writer_never_unchecks_witness :
  checked (fst (fillRadioField (mkRadio "yes" true (Some "Yes")) "no")) = true.
Proof.
  apply (radio_writer_never_unchecks (mkRadio "yes" true (Some "Yes")) "no").
  reflexivity.
Defined.

End RadioWriter.

(** ** The select writer *)

Section SelectWriter.
Import Str Writers.

Lemma includes_cons (text pattern : string) (c : ascii) :
  includes (String c text) pattern
  = if String.prefix pattern (String c text) then true else includes text pattern.
Proof. reflexivity. Qed.







End SelectWriter.

(** ** Invalidation of a session *)

Section InvalidatedOnce.
Import Session.

Lemma count_app (a : Action) (l1 l2 : list Action) :
  count a (l1 ++ l2)%list = count a l1 + count a l2.
Proof. unfold count. rewrite filter_app, length_app. reflexivity. Qed.

(** The handler on an invalidated session does nothing. *)
Lemma handler_reentry (s : State) :
  contextInvalidated s = true -> handleContextInvalidation s = (s, []).
Proof. intros H. unfold handleContextInvalidation. rewrite H. reflexivity. Qed.

(** The handler on a session that is not invalidated. *)
Lemma handler_first_entry (s : State) :
  contextInvalidated s = false ->
  let s' := fst (handleContextInvalidation s) in
  let acts := snd (handleContextInvalidation s) in
  contextInvalidated s' = true /\ isInitialized s' = false
  /\ pingInterval s' = false /\ mutationObserver s' = false
  /\ (pingInterval s = true -> In ClearInterval acts)
  /\ (mutationObserver s = true -> In DisconnectObserver acts)
  /\ (hasBody s = true -> notice s' = true)
  /\ (hasBody s = true -> notice s = false -> In ShowNotice acts)
  /\ count WarnHandling acts = 1
  /\ count ShowNotice acts <= 1
  /\ count SendPing acts = 0.
Proof.
  destruct s as [i m c o p ind n b]. cbn [contextInvalidated]. intros ->.
  destruct i, m, o, p, ind, n, b; vm_compute;
    repeat split; intros; try discriminate; auto 6; lia.
Qed.

(** One occurrence on an invalidated session: it stays invalidated, and
    nothing of the invalidation is done again, nor is a ping sent. *)
Lemma handle_invalidated (o : Occurrence) (s : State) :
  contextInvalidated s = true ->
  contextInvalidated (fst (handle o s)) = true
  /\ count WarnHandling (snd (handle o s)) = 0
  /\ count ShowNotice (snd (handle o s)) = 0
  /\ count SendPing (snd (handle o s)) = 0.
Proof.
  intros H. destruct o as [h r v | msg | msg | |]; cbn [handle].
  - unfold pingTick. rewrite H.
    destruct (negb (isInitialized s) || negb r); cbn; auto.
  - unfold pingRejected. destruct (terminal pingFailureSigns msg); [|cbn; auto].
    rewrite (handler_reentry s H). unfold clearPingInterval.
    destruct (pingInterval s); cbn; auto.
  - unfold globalError. destruct (terminal globalFailureSigns msg); [|cbn; auto].
    rewrite (handler_reentry s H). cbn; auto.
  - rewrite (handler_reentry s H). cbn; auto.
  - cbn. auto.
Qed.

Lemma run_cons (o : Occurrence) (os : list Occurrence) (s : State) :
  run (o :: os) s
  = (fst (run os (fst (handle o s))),
     (snd (handle o s) ++ snd (run os (fst (handle o s))))%list).
Proof.
  cbn [run]. destruct (handle o s) as [s1 a1]. cbn [fst snd].
  destruct (run os s1) as [s2 a2]. reflexivity.
Qed.

Lemma run_invalidated (os : list Occurrence) (s : State) :
  contextInvalidated s = true ->
  contextInvalidated (fst (run os s)) = true
  /\ count WarnHandling (snd (run os s)) = 0
  /\ count ShowNotice (snd (run os s)) = 0
  /\ count SendPing (snd (run os s)) = 0.
Proof.
  revert s. induction os as [|o os IH]; intros s H.
  - cbn. auto.
  - rewrite run_cons. cbn [fst snd].
    destruct (handle_invalidated o s H) as [H1 [H2 [H3 H4]]].
    destruct (IH _ H1) as [I1 [I2 [I3 I4]]].
    rewrite !count_app, H2, H3, H4, I2, I3, I4. auto.
Qed.

(** One occurrence on a session that is not invalidated: a failure
    invalidates it, with one warning; anything else leaves it as it is. *)
Lemma handle_active (o : Occurrence) (s : State) :
  contextInvalidated s = false ->
  (is_failure o = true ->
   contextInvalidated (fst (handle o s)) = true
   /\ count WarnHandling (snd (handle o s)) = 1
   /\ count ShowNotice (snd (handle o s)) <= 1)
  /\ (is_failure o = false ->
      contextInvalidated (fst (handle o s)) = false
      /\ count WarnHandling (snd (handle o s)) = 0
      /\ count ShowNotice (snd (handle o s)) = 0).
Proof.
  intros H.
  destruct (handler_first_entry s H) as [F1 [_ [F3 [_ [_ [_ [_ [_ [F9 [F10 _]]]]]]]]]].
  destruct o as [h r v | msg | msg | |]; cbn [handle is_failure];
    [| | | | split; [discriminate | intros _; cbn; auto]].
  - split; [discriminate|]. intros _. cbn [fst snd]. unfold pingTick. rewrite H.
    destruct (negb (isInitialized s) || negb r), (h && negb v); cbn; auto.
  - unfold pingRejected. destruct (terminal pingFailureSigns msg).
    + split; [intros _ | discriminate].
      destruct (handleContextInvalidation s) as [s1 a1]. cbn [fst snd] in *.
      unfold clearPingInterval. rewrite F3. cbn [fst snd].
      rewrite !count_app. cbn. rewrite !Nat.add_0_r. auto.
    + split; [discriminate | intros _]. cbn. auto.
  - unfold globalError. destruct (terminal globalFailureSigns msg).
    + split; [intros _ | discriminate]. auto.
    + split; [discriminate | intros _]. cbn. auto.
  - split; [intros _ | discriminate]. auto.
Qed.

Lemma run_active (os : list Occurrence) (s : State) :
  contextInvalidated s = false ->
  count WarnHandling (snd (run os s)) <= 1
  /\ count ShowNotice (snd (run os s)) <= 1
  /\ (existsb is_failure os = true ->
      contextInvalidated (fst (run os s)) = true
      /\ count WarnHandling (snd (run os s)) = 1)
  /\ (existsb is_failure os = false ->
      contextInvalidated (fst (run os s)) = false
      /\ count WarnHandling (snd (run os s)) = 0).
Proof.
  revert s. induction os as [|o os IH]; intros s H.
  - cbn. repeat split; intros; try lia; try assumption; try discriminate.
  - rewrite run_cons. cbn [fst snd existsb]. rewrite !count_app.
    destruct (handle_active o s H) as [Hf Hn].
    destruct (is_failure o) eqn:E; cbn [orb].
    + destruct (Hf eq_refl) as [H1 [H2 H3]].
      destruct (run_invalidated os _ H1) as [I1 [I2 [I3 _]]].
      repeat split; intros; try lia; try assumption; try discriminate.
    + destruct (Hn eq_refl) as [H1 [H2 H3]].
      destruct (IH _ H1) as [J1 [J2 [J3 J4]]].
      repeat split; intros; try lia; try (apply J3; assumption);
        try (apply J4; assumption).
      * destruct J3 as [_ J3]; [assumption | lia].
      * destruct J4 as [_ J4]; [assumption | lia].
Qed.

Lemma repeated_reentry (n : nat) (s : State) :
  contextInvalidated s = true -> run (repeat Invalidate n) s = (s, []).
Proof.
  intros H. induction n as [|n IH].
  - reflexivity.
  - cbn [repeat]. rewrite run_cons. cbn [handle].
    rewrite (handler_reentry s H). cbn [fst snd]. rewrite IH. reflexivity.
Qed.

(** Calling the handler again and again is calling it once. *)
Lemma repeated_invalidation (n : nat) (s : State) :
  run (repeat Invalidate (S n)) s = handleContextInvalidation s.
Proof.
  cbn [repeat]. rewrite run_cons. cbn [handle].
  destruct (contextInvalidated s) eqn:E.
  - rewrite (handler_reentry s E). cbn [fst snd].
    rewrite (repeated_reentry n s E). reflexivity.
  - destruct (handler_first_entry s E) as [F1 _].
    destruct (handleContextInvalidation s) as [s1 a1]. cbn [fst snd] in *.
    rewrite (repeated_reentry n s1 F1). cbn [fst snd]. rewrite app_nil_r. reflexivity.
Qed.

(** C8.  The session is invalidated once.  The first call of
    [handleContextInvalidation] sets [contextInvalidated], clears the ping
    timer, disconnects the observer and shows the notice; a call on an
    invalidated session changes nothing and does nothing.  In every
    sequence of ticks, rejected pings, global errors and direct calls
    that starts from a session not yet invalidated, the invalidation is
    performed at most once, exactly once when a failure occurs, with at
    most one notice shown; once invalidated, a session stays so and sends
    no ping. *)
Theorem invalidated_exactly_once (s : State) (os : list Occurrence) :
  (contextInvalidated s = true -> handleContextInvalidation s = (s, []))
  /\ (contextInvalidated s = false ->
      contextInvalidated (fst (handleContextInvalidation s)) = true
      /\ pingInterval (fst (handleContextInvalidation s)) = false
      /\ mutationObserver (fst (handleContextInvalidation s)) = false
      /\ (pingInterval s = true -> In ClearInterval (snd (handleContextInvalidation s)))
      /\ (mutationObserver s = true ->
          In DisconnectObserver (snd (handleContextInvalidation s)))
      /\ (hasBody s = true -> notice s = false ->
          In ShowNotice (snd (handleContextInvalidation s)))
      /\ count ShowNotice (snd (handleContextInvalidation s)) <= 1)
  /\ (forall n, run (repeat Invalidate (S n)) s = handleContextInvalidation s)
  /\ (contextInvalidated s = false ->
      count WarnHandling (snd (run os s)) <= 1
      /\ count ShowNotice (snd (run os s)) <= 1
      /\ (existsb is_failure os = true ->
          contextInvalidated (fst (run os s)) = true
          /\ count WarnHandling (snd (run os s)) = 1))
  /\ (contextInvalidated s = true ->
      contextInvalidated (fst (run os s)) = true
      /\ count WarnHandling (snd (run os s)) = 0
      /\ count ShowNotice (snd (run os s)) = 0
      /\ count SendPing (snd (run os s)) = 0).
Proof.
  split; [apply handler_reentry|].
  split.
  { intros H. destruct (handler_first_entry s H)
      as [F1 [_ [F3 [F4 [F5 [F6 [_ [F8 [_ [F10 _]]]]]]]]]].
    repeat split; assumption. }
  split; [intros n; apply repeated_invalidation|].
  split.
  { intros H. destruct (run_active os s H) as [R1 [R2 [R3 _]]].
    repeat split; try assumption; apply R3; assumption. }
  apply run_invalidated.
Qed.

(** The theorem on a running session hit by two failures in a row, a
    rejected ping and a global error. *)
Lemma invalidated_exactly_once_witness :
  contextInvalidated
    (fst (run [PingRejected (Some "Extension context invalidated.");
               GlobalError (Some "Extension context invalidated.")]
              Scenarios.active)) = true
  /\ count WarnHandling
       (snd (run [PingRejected (Some "Extension context invalidated.");
                  GlobalError (Some "Extension context invalidated.")]
                 Scenarios.active)) = 1.
Proof.
  apply (invalidated_exactly_once Scenarios.active
           [PingRejected (Some "Extension context invalidated.");
            GlobalError (Some "Extension context invalidated.")]);
    reflexivity.
Defined.

End InvalidatedOnce.

(** ** Spatial clusters *)

Section Clusters.
Import Dom Discovery Spec Scenarios.

























(** On binary64 numbers the product of 0.6 and a multiple of five is the
    whole number, so [Math.ceil] leaves it as it is. *)
Lemma six_tenths_products_exact :
  forallb (fun p => PrimFloat.eqb (fst p * 0.6)%float (snd p)) six_tenths_products = true.
Proof. vm_compute. reflexivity. Qed.



End Clusters.

(** ** The edit distance and the similarity *)

Section EditDistance.
Import Str Matcher.

Lemma cost_triangle (a b c : ascii) : Spec.cost a c <= Spec.cost a b + Spec.cost b c.
Proof.
  unfold Spec.cost.
  destruct (Ascii.eqb a b) eqn:E1; destruct (Ascii.eqb b c) eqn:E2;
    destruct (Ascii.eqb a c) eqn:E3; try lia.
  apply Ascii.eqb_eq in E1, E2. subst. rewrite Ascii.eqb_refl in E3. discriminate.
Qed.

(** Edit scripts compose. *)
Lemma edits_trans (s t : string) (n : nat) :
  Spec.edits s t n ->
  forall u m, Spec.edits t u m -> exists k, k <= n + m /\ Spec.edits s u k.
Proof.
  induction 1 as [|a s t n H IH|b s t n H IH|a b s t n H IH]; intros u m Hu.
  - exists m. split; [lia | exact Hu].
  - destruct (IH u m Hu) as [k [Hk Hs]].
    exists (S k). split; [lia | constructor; exact Hs].
  - remember (String b t) as bt eqn:Ebt. revert Ebt.
    induction Hu as [|b' t' u' m' Hu' IHu|c t' u' m' Hu' IHu|b' c t' u' m' Hu' IHu];
      intros Ebt; try discriminate.
    + injection Ebt as -> ->.
      destruct (IH u' m' Hu') as [k [Hk Hs]]. exists k. split; [lia | exact Hs].
    + destruct (IHu Ebt) as [k [Hk Hs]].
      exists (S k). split; [lia | constructor; exact Hs].
    + injection Ebt as -> ->.
      destruct (IH u' m' Hu') as [k [Hk Hs]].
      exists (S k). split; [lia | constructor; exact Hs].
  - remember (String b t) as bt eqn:Ebt. revert Ebt.
    induction Hu as [|b' t' u' m' Hu' IHu|c t' u' m' Hu' IHu|b' c t' u' m' Hu' IHu];
      intros Ebt; try discriminate.
    + injection Ebt as -> ->.
      destruct (IH u' m' Hu') as [k [Hk Hs]].
      exists (S k). split; [lia | constructor; exact Hs].
    + destruct (IHu Ebt) as [k [Hk Hs]].
      exists (S k). split; [lia | constructor; exact Hs].
    + injection Ebt as -> ->.
      destruct (IH u' m' Hu') as [k [Hk Hs]].
      exists (k + Spec.cost a c). split.
      * pose proof (cost_triangle a b c). lia.
      * constructor. exact Hs.
Qed.

Lemma edits_length (s t : string) (n : nat) :
  Spec.edits s t n ->
  String.length s <= String.length t + n /\ String.length t <= String.length s + n.
Proof.
  induction 1; cbn [String.length]; lia.
Qed.

Lemma lev_refl (s : string) : Spec.lev s s = 0.
Proof.
  induction s as [|a s IH]; [reflexivity|].
  rewrite lev_cons, IH. unfold Spec.cost. rewrite Ascii.eqb_refl.
  unfold min3. lia.
Qed.

Lemma lev_zero (s t : string) : Spec.lev s t = 0 -> s = t.
Proof.
  revert t. induction s as [|a s IH]; intros [|b t] H.
  - reflexivity.
  - rewrite lev_nil_l in H. discriminate.
  - rewrite lev_nil_r in H. discriminate.
  - rewrite lev_cons in H. unfold min3, Spec.cost in H.
    destruct (Ascii.eqb a b) eqn:E.
    + apply Ascii.eqb_eq in E. subst b. f_equal. apply IH. lia.
    + lia.
Qed.

(** The edit distance of [levenshteinDistance] is a metric on strings,
    between the difference and the greater of the two lengths. *)
Theorem levenshteinDistance_is_a_metric (a b c : string) :
  (levenshteinDistance a b = 0 <-> a = b)
  /\ levenshteinDistance a b = levenshteinDistance b a
  /\ levenshteinDistance a c <= levenshteinDistance a b + levenshteinDistance b c
  /\ String.length a - String.length b <= levenshteinDistance a b
  /\ String.length b - String.length a <= levenshteinDistance a b
  /\ levenshteinDistance a b <= Nat.max (String.length a) (String.length b).
Proof.
  rewrite !levenshteinDistance_is_lev.
  split; [|split; [|split; [|split; [|split]]]].
  - split; [apply lev_zero | intros ->; apply lev_refl].
  - apply lev_sym.
  - destruct (edits_trans _ _ _ (lev_edits a b) _ _ (lev_edits b c)) as [k [Hk Hs]].
    apply edits_lev in Hs. lia.
  - pose proof (edits_length _ _ _ (lev_edits a b)). lia.
  - pose proof (edits_length _ _ _ (lev_edits a b)). lia.
  - apply lev_bound.
Qed.

(** [calculateSimilarity] does not depend on the order of its
    arguments, lies between 0 and 1, and is 1 for equal strings only. *)
Theorem calculateSimilarity_symmetric_and_bounded (a b : string) :
  calculateSimilarity a b = calculateSimilarity b a
  /\ (0 <= calculateSimilarity a b <= 1)%Q
  /\ ((calculateSimilarity a b == 1)%Q <-> a = b)
  /\ ((calculateSimilarity a b == 0)%Q
      <-> levenshteinDistance a b = Nat.max (String.length a) (String.length b)
          /\ a <> b).
Proof.
  split; [|split; [apply similarity_bounds|]].
  - rewrite !calculateSimilarity_spec. unfold Spec.similarity.
    rewrite (Nat.max_comm (String.length b)), (lev_sym b a). reflexivity.
  - rewrite calculateSimilarity_spec, levenshteinDistance_is_lev.
    unfold Spec.similarity.
    pose proof (lev_bound a b) as Hb.
    destruct (Nat.max (String.length a) (String.length b)) as [|n] eqn:E.
    + assert (a = b) as ->.
      { destruct a; destruct b; cbn [String.length] in E; try lia; reflexivity. }
      split.
      * split; [reflexivity|]. intros _. reflexivity.
      * split; [discriminate|]. intros [_ H]. contradiction H. reflexivity.
    + unfold Qeq. cbn [Qnum Qden]. split.
      * split.
        -- intros H. apply lev_zero. lia.
        -- intros ->. rewrite lev_refl. lia.
      * split.
        -- intros H. split; [lia|]. intros ->. rewrite lev_refl in H. lia.
        -- intros [H _]. lia.
Qed.

End EditDistance.

(** ** Virtual forms are components of the proximity graph *)

Section VirtualForms.
Import Dom Discovery Spec.











End VirtualForms.

(** ** Forms and their field maps *)

Section FieldMaps.
Import Dom Discovery Data Props.








End FieldMaps.

(** ** What a field map keeps *)

Section LastInputWins.
Import Str Dom Classifier Discovery Data Props.









End LastInputWins.

(** ** The range of the classifier *)

Section ClassifierRange.
Import Str Matcher Classifier Dom.


End ClassifierRange.

(** ** What the selector resolver returns *)

Section ResolverResults.
Import Str Dom Selector.

Lemma unique_one (d : Document) (selector : string) :
  unique d selector = Some true ->
  exists x, Css.querySelectorAll d selector = Some [x].
Proof.
  unfold unique. destruct (Css.querySelectorAll d selector) as [found|]; [|discriminate].
  intros [= H]. apply Nat.eqb_eq in H.
  destruct found as [|x [|y rest]]; try discriminate. exists x. reflexivity.
Qed.

Lemma data_step_unique (d : Document) (attrs : list (string * string)) (s : string) :
  data_step d attrs = Some (Some s) ->
  exists x, Css.querySelectorAll d s = Some [x].
Proof.
  induction attrs as [|[name value] rest IH]; cbn [data_step]; [discriminate|].
  destruct (String.prefix "data-" name); [|exact IH].
  destruct (unique d _) as [[|]|] eqn:E; [|exact IH|discriminate].
  intros [= <-]. apply unique_one. exact E.
Qed.

Lemma data_step_none (d : Document) (attrs : list (string * string)) :
  (forall a, In a attrs -> String.prefix "data-" (fst a) = false) ->
  data_step d attrs = Some None.
Proof.
  induction attrs as [|[name value] rest IH]; intros H; [reflexivity|].
  cbn [data_step]. pose proof (H (name, value) (or_introl eq_refl)) as E.
  cbn [fst] in E. rewrite E. apply IH. intros a Ha. apply H. right. exact Ha.
Qed.

(** A selector that [getElementSelector] returns is the structural path
    of [generateRobustSelector] or resolves, in the document of the call,
    to exactly one element.  The call can throw only in the steps on the
    name, on the data attributes and on type and placeholder: for an
    element with no name, no data attribute and no placeholder it
    returns. *)
Theorem resolved_selector_is_unique_or_structural (d : Document) (element : Element) :
  (forall s, getElementSelector d element = Some s ->
             s = generateRobustSelector d element
             \/ exists x, Css.querySelectorAll d s = Some [x])
  /\ (el_name element = "" ->
      (forall a, In a (attributes element) -> String.prefix "data-" (fst a) = false) ->
      placeholder element = "" ->
      exists s, getElementSelector d element = Some s).
Proof.
  assert (P : forall s, from_placeholder d element = Some s ->
                        s = generateRobustSelector d element
                        \/ exists x, Css.querySelectorAll d s = Some [x]).
  { unfold from_placeholder. intros s.
    destruct (truthy (el_type element) && truthy (placeholder element)).
    - destruct (unique d _) as [[|]|] eqn:E; [| |discriminate].
      + intros [= <-]. right. apply unique_one. exact E.
      + intros [= <-]. left. reflexivity.
    - intros [= <-]. left. reflexivity. }
  assert (C : forall s, from_classes d element = Some s ->
                        s = generateRobustSelector d element
                        \/ exists x, Css.querySelectorAll d s = Some [x]).
  { unfold from_classes. intros s. destruct (truthy (className element)); [|apply P].
    destruct (escaped_classes element) as [|c cs]; [apply P|].
    destruct (unique d _) as [[|]|] eqn:E; [|apply P|apply P].
    intros [= <-]. right. apply unique_one. exact E. }
  assert (N : forall s, from_name d element = Some s ->
                        s = generateRobustSelector d element
                        \/ exists x, Css.querySelectorAll d s = Some [x]).
  { unfold from_name. intros s.
    destruct (if truthy (el_name element) then unique d _ else Some false)
      as [[|]|] eqn:E; [| |discriminate].
    - destruct (truthy (el_name element)); [|discriminate].
      intros [= <-]. right. apply unique_one. exact E.
    - destruct (data_step d (attributes element)) as [[t|]|] eqn:Ed; [| |discriminate].
      + intros [= <-]. right. eapply data_step_unique. exact Ed.
      + apply C. }
  split.
  - intros s. unfold getElementSelector.
    destruct (truthy (el_id element) && isValidCSSSelector (el_id element)); [|apply N].
    destruct (unique d _) as [[|]|] eqn:E; [|apply N|apply N].
    intros [= <-]. right. apply unique_one. exact E.
  - intros Hname Hdata Hph.
    assert (P' : exists s, from_placeholder d element = Some s).
    { unfold from_placeholder. rewrite Hph, andb_false_r. eexists. reflexivity. }
    assert (C' : exists s, from_classes d element = Some s).
    { unfold from_classes. destruct (truthy (className element)); [|exact P'].
      destruct (escaped_classes element) as [|c cs]; [exact P'|].
      destruct (unique d _) as [[|]|]; [eexists; reflexivity | exact P' | exact P']. }
    assert (N' : exists s, from_name d element = Some s).
    { unfold from_name. rewrite Hname. cbn [truthy].
      rewrite (data_step_none d _ Hdata). exact C'. }
    unfold getElementSelector.
    destruct (truthy (el_id element) && isValidCSSSelector (el_id element)); [|exact N'].
    destruct (unique d _) as [[|]|]; [eexists; reflexivity | exact N' | exact N'].
Qed.

Lemma prefix_append (a s : string) : String.prefix a (a ++ s) = true.
Proof.
  induction a as [|c a IH]; cbn.
  - destruct s; reflexivity.
  - destruct (ascii_dec c c); [exact IH | contradiction].
Qed.

Lemma prefix_refl (a : string) : String.prefix a a = true.
Proof.
  induction a as [|c a IH]; cbn; [reflexivity|].
  destruct (ascii_dec c c); [exact IH | contradiction].
Qed.

Lemma robust_path_length (budget : nat) (d : Document) (current : Element)
      (path : list string) :
  List.length path < List.length (robust_path budget d current path)
                     \/ budget = 0.
Proof.
  destruct budget as [|b]; [right; reflexivity | left].
  revert current path. induction b as [|b IH]; intros current path.
  - cbn [robust_path]. destruct (parentElement d current) as [[|p]|]; cbn [List.length]; lia.
  - cbn [robust_path] in *. destruct (parentElement d current) as [[|p]|];
      cbn [List.length]; try lia.
    specialize (IH (elem p) (path_component d current :: path)).
    cbn [List.length] in IH. lia.
Qed.

Lemma robust_path_bound (budget : nat) (d : Document) (current : Element)
      (path : list string) :
  List.length (robust_path budget d current path) <= budget + List.length path.
Proof.
  revert current path. induction budget as [|b IH]; intros current path; [cbn; lia|].
  cbn [robust_path]. destruct (parentElement d current) as [[|p]|]; cbn [List.length]; try lia.
  specialize (IH (elem p) (path_component d current :: path)).
  cbn [List.length] in IH. lia.
Qed.

Lemma robust_path_last (budget : nat) (d : Document) (current : Element)
      (path : list string) (x : string) :
  last (robust_path budget d current (path ++ [x])) "" = x.
Proof.
  revert current path. induction budget as [|b IH]; intros current path.
  - cbn [robust_path]. apply last_last.
  - cbn [robust_path]. destruct (parentElement d current) as [[|p]|].
    + rewrite app_comm_cons. apply last_last.
    + rewrite app_comm_cons. apply IH.
    + rewrite app_comm_cons. apply last_last.
Qed.

(** The structural path of [generateRobustSelector] has between one and
    six components, the last of which describes the element itself. *)
Theorem robust_selector_has_at_most_six_components (d : Document) (element : Element) :
  generateRobustSelector d element = join " > " (robust_path 6 d element [])
  /\ 1 <= List.length (robust_path 6 d element []) <= 6
  /\ last (robust_path 6 d element []) "" = path_component d element
  /\ String.prefix (tagName element) (path_component d element) = true.
Proof.
  split; [reflexivity|]. split; [|split].
  - pose proof (robust_path_length 6 d element []) as H1.
    pose proof (robust_path_bound 6 d element []) as H2.
    cbn [List.length] in *. lia.
  - cbn [robust_path]. destruct (parentElement d element) as [[|p]|]; try reflexivity.
    apply (robust_path_last 5 d (elem p) [] (path_component d element)).
  - unfold path_component.
    pose proof (prefix_append (tagName element)) as H.
    pose proof (prefix_refl (tagName element)) as H0.
    destruct (truthy (el_id element) && isValidCSSSelector (el_id element)); [apply H|].
    destruct (truthy (className element)).
    + destruct (escaped_classes element); [exact H0 | apply H].
    + destruct (indexOf element _ 0); [apply H | exact H0].
Qed.

End ResolverResults.

(** ** The option a select is left with *)

Section SelectedOption.
Import Str Writers.

Lemma indexed_nth {A} (l : list A) (k i : nat) (x : A) :
  In (i, x) (indexed k l) -> k <= i /\ nth_error l (i - k) = Some x.
Proof.
  revert k. induction l as [|y l IH]; intros k H; [destruct H|].
  destruct H as [[= <- <-] | H].
  - split; [lia|]. rewrite Nat.sub_diag. reflexivity.
  - apply IH in H. destruct H as [H1 H2]. split; [lia|].
    replace (i - k) with (S (i - S k)) by lia. exact H2.
Qed.

Lemma validOptions_nth (element : SelectEl) (i : nat) (o : OptionEl) :
  In (i, o) (validOptions element) ->
  nth_error (options element) i = Some o
  /\ truthy (o_value o) = true /\ truthy (trim (o_text o)) = true.
Proof.
  unfold validOptions. intros H. apply filter_In in H. destruct H as [H T].
  apply indexed_nth in H. destruct H as [_ H]. rewrite Nat.sub_0_r in H.
  cbn [snd] in T. apply andb_true_iff in T. tauto.
Qed.

Lemma or_find_some {A} (a b : option A) (x : A) :
  or_find a b = Some x -> a = Some x \/ b = Some x.
Proof. destruct a; cbn; auto. Qed.

Lemma smartSelectMatch_in (opts : list (nat * OptionEl)) (value : string)
      (o : nat * OptionEl) :
  smartSelectMatch opts value = Some o -> In o opts.
Proof.
  unfold smartSelectMatch, find_text.
  repeat match goal with
         | |- context [if ?b then _ else _] => destruct b
         end;
    try discriminate; intros H; apply find_some in H; tauto.
Qed.

Lemma matchOption_in (opts : list (nat * OptionEl)) (value : string) (o : nat * OptionEl) :
  matchOption opts value = Some o -> In o opts.
Proof.
  unfold matchOption. intros H.
  apply or_find_some in H. destruct H as [H | H].
  - apply find_some in H. tauto.
  - apply or_find_some in H. destruct H as [H | H].
    + apply find_some in H. tauto.
    + eapply smartSelectMatch_in. exact H.
Qed.

(** [fillSelectField] never changes the options.  It leaves the control
    as it was, with focus and blur only, or selects an option that has a
    value and a text that is not blank: [selectedIndex] is the index of
    that option, [element.value] is its value, and the four field events
    are dispatched between focus and blur.  *)
Theorem select_writer_selects_a_valid_option (element : SelectEl) (value : string) :
  options (fst (fillSelectField element value)) = options element
  /\ (fillSelectField element value = (element, [Focus; Blur])
      \/ exists index o,
          nth_error (options element) index = Some o
          /\ truthy (o_value o) = true
          /\ truthy (trim (o_text o)) = true
          /\ matchOption (validOptions element) value = Some (index, o)
          /\ selectedIndex (fst (fillSelectField element value)) = Z.of_nat index
          /\ select_value (fst (fillSelectField element value)) = o_value o
          /\ snd (fillSelectField element value)
             = (Focus :: triggerFieldEvents ++ [Blur])%list).
Proof.
  unfold fillSelectField.
  destruct (shouldSkipDropdownFill value (validOptions element));
    [split; [reflexivity | left; reflexivity]|].
  destruct (matchOption (validOptions element) value) as [[index o]|] eqn:E;
    [|split; [reflexivity | left; reflexivity]].
  split; [reflexivity|]. right. exists index, o.
  apply matchOption_in in E. apply validOptions_nth in E. destruct E as [H1 [H2 H3]].
  cbn [fst snd selectedIndex]. repeat split; try assumption.
  unfold select_value. cbn [selectedIndex options].
  destruct (Z.of_nat index <? 0)%Z eqn:L; [apply Z.ltb_lt in L; lia|].
  rewrite Nat2Z.id, H1. reflexivity.
Qed.

Lemma find_all_false {A} (f : A -> bool) (l : list A) :
  (forall x, In x l -> f x = false) -> find f l = None.
Proof.
  induction l as [|x l IH]; intros H; [reflexivity|].
  cbn [find]. rewrite (H x (or_introl eq_refl)). apply IH.
  intros y Hy. apply H. right. exact Hy.
Qed.

Lemma includes_empty (text : string) : includes text "" = true.
Proof. destruct text; reflexivity. Qed.

Lemma truthy_lower (s : string) : truthy (toLowerCase s) = truthy s.
Proof. destruct s; reflexivity. Qed.

Lemma trimStart_truthy (s : string) : truthy (trimStart s) = true -> truthy s = true.
Proof. destruct s; [discriminate | reflexivity]. Qed.

Lemma trim_truthy (s : string) : truthy (trim s) = true -> truthy s = true.
Proof.
  unfold trim. intros H. destruct s; [discriminate H | reflexivity].
Qed.

(** With the empty string as the value, which is what [fillField] passes
    on for a value of blanks, [fillSelectField] selects the first option
    that has a value and a text, whatever it is; a control without such
    an option is left as it was. *)
Theorem select_writer_takes_first_option_for_blank_value (element : SelectEl) :
  fillSelectField element ""
  = match validOptions element with
    | (index, _) :: _ =>
        (mkSelect (options element) (Z.of_nat index),
         (Focus :: triggerFieldEvents ++ [Blur])%list)
    | [] => (element, [Focus; Blur])
    end.
Proof.
  unfold fillSelectField.
  assert (Hexact : find (fun o : nat * OptionEl =>
                           String.eqb (toLowerCase (o_text (snd o))) ""
                           || String.eqb (toLowerCase (o_value (snd o))) "")
                        (validOptions element) = None).
  { apply find_all_false. intros [i o] Hin. apply validOptions_nth in Hin.
    destruct Hin as [_ [Hv Ht]]. apply trim_truthy in Ht. cbn [snd].
    rewrite <- truthy_lower in Hv, Ht.
    destruct (toLowerCase (o_text o)); [discriminate Ht|].
    destruct (toLowerCase (o_value o)); [discriminate Hv|]. reflexivity. }
  destruct (validOptions element) as [|[index o] rest] eqn:E; [reflexivity|].
  assert (Hskip : shouldSkipDropdownFill "" ((index, o) :: rest) = false).
  { unfold shouldSkipDropdownFill, emailMismatch, isPersonalName, letters_and_spaces.
    cbn [toLowerCase includes String.prefix truthy andb optionTexts map existsb snd].
    rewrite includes_empty, andb_false_r. cbn [orb negb andb]. reflexivity. }
  rewrite Hskip. unfold matchOption. cbn [toLowerCase]. rewrite Hexact.
  cbn [find snd or_find]. rewrite includes_empty. reflexivity.
Qed.

End SelectedOption.


(** ** A cluster and the input it is grown from *)

Section SameCluster.
Import Dom Discovery Spec.





End SameCluster.

(** ** The value looked up for a field *)

Section ValuesForFields.
Import Str Data.

Lemma guarded_truthy (r : option Value) (v : Value) :
  (if truthy_read r then r else None) = Some v -> is_truthy v = true /\ r = Some v.
Proof.
  destruct (truthy_read r) eqn:E; [|discriminate].
  intros ->. split; [exact E | reflexivity].
Qed.

Lemma alternative_truthy (formData : Value) (altNames : list string) (v : Value) :
  alternative formData altNames = Some v -> is_truthy v = true.
Proof.
  induction altNames as [|n rest IH]; cbn [alternative]; [discriminate|].
  destruct (truthy_read (read formData n)) eqn:E; [|exact IH].
  intros H. rewrite H in E. exact E.
Qed.

Lemma or_null_cases (s : string) : or_null s = VNull \/ is_truthy (or_null s) = true.
Proof. destruct s; [left | right]; reflexivity. Qed.

Lemma defaultValue_cases (category fieldType : string) :
  defaultValue category fieldType = VNull
  \/ is_truthy (defaultValue category fieldType) = true.
Proof.
  unfold defaultValue.
  repeat match goal with
         | |- context [if ?b then _ else _] => destruct b; [right; reflexivity|]
         end.
  left. reflexivity.
Qed.

Lemma getValueForField_object (formData : Value) (category fieldType : string) :
  formData <> VNull ->
  getValueForField formData category fieldType
  = match (if truthy_read (read_opt (read formData category) fieldType)
           then read_opt (read formData category) fieldType else None) with
    | Some v => Returns v
    | None =>
    match (if truthy_read (read formData fieldType) then read formData fieldType else None) with
    | Some v => Returns v
    | None =>
    match (match get fieldType fieldMappings with
           | Some altNames => alternative formData altNames
           | None => None
           end) with
    | Some v => Returns v
    | None =>
    match (if String.eqb category "personalInfo" && String.eqb fieldType "firstName"
           then splitFirstName formData else None) with
    | Some v => Returns v
    | None =>
    match (if String.eqb category "personalInfo" && String.eqb fieldType "lastName"
           then splitLastName formData else None) with
    | Some v => Returns v
    | None => Returns (defaultValue category fieldType)
    end end end end end.
Proof. destruct formData; try reflexivity. intros H. contradiction H. reflexivity. Qed.

Lemma getValueForField_throws (formData : Value) (category fieldType : string) :
  getValueForField formData category fieldType = TypeError <-> formData = VNull.
Proof.
  split.
  - intros H. destruct formData; try reflexivity; cbn in H;
      repeat match type of H with
             | context [match ?x with _ => _ end] => destruct x
             end; discriminate H.
  - intros ->. reflexivity.
Qed.

Lemma getValueForField_cases (formData : Value) (category fieldType : string) (v : Value) :
  getValueForField formData category fieldType = Returns v ->
  v = VNull \/ is_truthy v = true.
Proof.
  intros H.
  assert (Hn : formData <> VNull) by (intros ->; discriminate H).
  rewrite (getValueForField_object _ _ _ Hn) in H.
  destruct (if truthy_read (read_opt (read formData category) fieldType) then _ else None)
    as [v1|] eqn:E1.
  { injection H as <-. right. apply guarded_truthy in E1. tauto. }
  destruct (if truthy_read (read formData fieldType) then _ else None) as [v2|] eqn:E2.
  { injection H as <-. right. apply guarded_truthy in E2. tauto. }
  destruct (match get fieldType fieldMappings with Some _ => _ | None => _ end)
    as [v3|] eqn:E3.
  { injection H as <-. right. destruct (get fieldType fieldMappings); [|discriminate].
    eapply alternative_truthy. exact E3. }
  destruct (if String.eqb category "personalInfo" && String.eqb fieldType "firstName"
            then _ else None) as [v4|] eqn:E4.
  { injection H as <-.
    destruct (String.eqb category "personalInfo" && String.eqb fieldType "firstName");
      [|discriminate].
    unfold splitFirstName in E4.
    destruct (or_read _ _) as [[| | |s| |]|]; try discriminate.
    destruct (truthy s); [|discriminate].
    destruct (nameParts s); injection E4 as <-; [left; reflexivity | apply or_null_cases]. }
  destruct (if String.eqb category "personalInfo" && String.eqb fieldType "lastName"
            then _ else None) as [v5|] eqn:E5.
  { injection H as <-.
    destruct (String.eqb category "personalInfo" && String.eqb fieldType "lastName");
      [|discriminate].
    unfold splitLastName in E5.
    destruct (or_read _ _) as [[| | |s| |]|]; try discriminate.
    destruct (truthy s); [|discriminate].
    injection E5 as <-. apply or_null_cases. }
  injection H as <-. apply defaultValue_cases.
Qed.

(** [getValueForField] throws exactly for form data that is [null] or
    missing.  Otherwise it returns [null] or a truthy value, never an
    empty string, zero or [false]; the value under the category of the
    field comes first, the value under the field type at the top of the
    form data second, before any alternative name, split name or
    default. *)
Theorem getValueForField_prefers_the_data (formData : Value) (category fieldType : string) :
  (getValueForField formData category fieldType = TypeError <-> formData = VNull)
  /\ (forall v, getValueForField formData category fieldType = Returns v ->
                v = VNull \/ is_truthy v = true)
  /\ (forall v, formData <> VNull ->
                read_opt (read formData category) fieldType = Some v ->
                is_truthy v = true ->
                getValueForField formData category fieldType = Returns v)
  /\ (forall v, formData <> VNull ->
                truthy_read (read_opt (read formData category) fieldType) = false ->
                read formData fieldType = Some v ->
                is_truthy v = true ->
                getValueForField formData category fieldType = Returns v).
Proof.
  split; [apply getValueForField_throws|].
  split; [apply getValueForField_cases|]. split.
  - intros v Hn Hr Ht. rewrite (getValueForField_object _ _ _ Hn).
    unfold truthy_read. rewrite Hr, Ht. reflexivity.
  - intros v Hn Hd Hr Ht. rewrite (getValueForField_object _ _ _ Hn).
    rewrite Hd. unfold truthy_read at 1. rewrite Hr, Ht. reflexivity.
Qed.

End ValuesForFields.

(** ** First and last name from a full name *)

Section NameSplitting.
Import Str Data Props.

Lemma rev_string_app (acc a b : string) :
  rev_string acc (a ++ b) = rev_string (rev_string acc a) b.
Proof.
  revert acc. induction a as [|c a IH]; intros acc; [reflexivity|].
  cbn [append rev_string]. apply IH.
Qed.

Lemma trimStart_word (w s : string) : is_word w = true -> trimStart (w ++ s) = w ++ s.
Proof.
  unfold is_word. destruct w as [|c w]; [discriminate|].
  cbn [truthy forallb_string andb append trimStart]. intros H.
  apply andb_true_iff in H. destruct H as [H _].
  destruct (is_space c); [discriminate | reflexivity].
Qed.

Lemma append_empty (s : string) : s ++ "" = s.
Proof. induction s; cbn; congruence. Qed.

Lemma rev_word (acc w : string) :
  forallb_string (fun c => negb (is_space c)) w = true ->
  truthy w = true ->
  exists c rest, rev_string acc w = String c rest /\ is_space c = false.
Proof.
  revert acc. induction w as [|a w IH]; intros acc Hall Ht; [discriminate|].
  cbn [forallb_string] in Hall. apply andb_true_iff in Hall. destruct Hall as [Ha Hall].
  cbn [rev_string]. destruct w as [|b w].
  - cbn [rev_string]. exists a, acc. split; [reflexivity|].
    destruct (is_space a); [discriminate | reflexivity].
  - apply IH; [exact Hall | reflexivity].
Qed.

Lemma join_cons (sepr p : string) (rest : list string) :
  rest <> [] -> join sepr (p :: rest) = p ++ sepr ++ join sepr rest.
Proof. destruct rest; [intros H; contradiction H; reflexivity | reflexivity]. Qed.

(** A string that starts and ends with a word is left alone by [trim]. *)
Lemma trim_words (words : list string) :
  words <> [] -> forallb is_word words = true ->
  trim (join " " words) = join " " words.
Proof.
  intros Hne Hall. unfold trim.
  assert (H1 : trimStart (join " " words) = join " " words).
  { destruct words as [|w [|w2 rest]]; [contradiction Hne; reflexivity| |].
    - cbn [forallb] in Hall. apply andb_true_iff in Hall.
      cbn [join]. rewrite <- (append_empty w). apply trimStart_word. tauto.
    - cbn [forallb] in Hall. apply andb_true_iff in Hall.
      rewrite join_cons by discriminate. apply trimStart_word. tauto. }
  rewrite H1.
  assert (H2 : forall acc, exists c rest, rev_string acc (join " " words) = String c rest
                                          /\ is_space c = false).
  { clear H1.
    induction words as [|w rest IH]; [contradiction Hne; reflexivity|].
    cbn [forallb] in Hall. apply andb_true_iff in Hall. destruct Hall as [Hw Hrest].
    unfold is_word in Hw. apply andb_true_iff in Hw. destruct Hw as [Hw1 Hw2].
    intros acc. destruct rest as [|w2 rest].
    - cbn [join]. apply rev_word; assumption.
    - rewrite join_cons by discriminate. rewrite !rev_string_app.
      apply IH; [discriminate | exact Hrest]. }
  destruct (H2 "") as [c [rest [E Hc]]]. rewrite E. cbn [trimStart]. rewrite Hc.
  rewrite <- E. apply rev_string_involutive.
Qed.

Lemma split_runs_word (sep : ascii -> bool) (w tok s : string) :
  forallb_string (fun c => negb (sep c)) w = true ->
  forall in_run, truthy w = true \/ in_run = false ->
  split_runs sep tok in_run (w ++ s)
  = match w with
    | EmptyString => split_runs sep tok in_run s
    | _ => split_runs sep (rev_string tok w) false s
    end.
Proof.
  revert tok. induction w as [|c w IH]; intros tok Hall in_run Hr; [reflexivity|].
  cbn [forallb_string] in Hall. apply andb_true_iff in Hall. destruct Hall as [Hc Hall].
  cbn [append split_runs rev_string].
  destruct (sep c); [discriminate|].
  rewrite (IH (String c tok) Hall false (or_intror eq_refl)).
  destruct w; reflexivity.
Qed.

(** Splitting at white space gives back the words that single blanks
    join. *)
Lemma nameParts_join (words : list string) :
  words <> [] -> forallb is_word words = true ->
  nameParts (join " " words) = words.
Proof.
  intros Hne Hall. unfold nameParts. rewrite trim_words by assumption.
  assert (G : forall in_run, forallb is_word words = true -> words <> [] ->
                             split_runs is_space "" in_run (join " " words) = words).
  { clear Hne Hall.
    induction words as [|w rest IH]; intros in_run Hall Hne; [contradiction Hne; reflexivity|].
    cbn [forallb] in Hall. apply andb_true_iff in Hall. destruct Hall as [Hw Hrest].
    unfold is_word in Hw. apply andb_true_iff in Hw. destruct Hw as [Hw1 Hw2].
    destruct rest as [|w2 rest].
    - cbn [join]. rewrite <- (append_empty w) at 1.
      rewrite split_runs_word by (try exact Hw2; left; exact Hw1).
      destruct w as [|c w]; [discriminate|]. cbn [split_runs].
      rewrite rev_string_involutive. reflexivity.
    - rewrite join_cons by discriminate.
      rewrite split_runs_word by (try exact Hw2; left; exact Hw1).
      destruct w as [|c w]; [discriminate|].
      change (" " ++ join " " (w2 :: rest)) with (String " " (join " " (w2 :: rest))).
      remember (rev_string "" (String c w)) as tok eqn:Etok.
      cbn [split_runs]. change (is_space " ") with true. cbn iota.
      rewrite Etok, rev_string_involutive. f_equal.
      apply IH; [exact Hrest | discriminate]. }
  apply G; assumption.
Qed.

(** When the form data holds a full name under [name], written as words
    joined by single blanks, and nothing under the keys for a first or a
    last name, the first name looked up is the first word and the last
    name is all the other words, joined by blanks: the two, joined by a
    blank, give the full name back.  A name of one word has no last
    name. *)
Theorem full_name_is_split_after_the_first_word
        (props : list (string * Value)) (first : string) (others : list string) :
  forallb is_word (first :: others) = true ->
  get "name" props = Some (VStr (join " " (first :: others))) ->
  (forall key, In key nameKeys -> truthy_read (get key props) = false) ->
  truthy_read (read_opt (get "personalInfo" props) "firstName") = false ->
  truthy_read (read_opt (get "personalInfo" props) "lastName") = false ->
  getValueForField (VObj props) "personalInfo" "firstName" = Returns (VStr first)
  /\ getValueForField (VObj props) "personalInfo" "lastName"
     = Returns (or_null (join " " others))
  /\ (others <> [] ->
      getValueForField (VObj props) "personalInfo" "lastName"
      = Returns (VStr (join " " others))
      /\ first ++ " " ++ join " " others = join " " (first :: others)).
Proof.
  intros Hwords Hname Hkeys Hd1 Hd2.
  assert (Hparts : nameParts (join " " (first :: others)) = first :: others)
    by (apply nameParts_join; [discriminate | exact Hwords]).
  assert (Hfull : truthy (join " " (first :: others)) = true).
  { cbn [forallb] in Hwords. apply andb_true_iff in Hwords. destruct Hwords as [Hw _].
    unfold is_word in Hw. apply andb_true_iff in Hw. destruct Hw as [Hw _].
    destruct first; [discriminate|]. destruct others; reflexivity. }
  assert (K : forall key, In key nameKeys -> truthy_read (read (VObj props) key) = false)
    by exact Hkeys.
  assert (Hfirst : is_truthy (VStr first) = true).
  { cbn [forallb] in Hwords. apply andb_true_iff in Hwords. destruct Hwords as [Hw _].
    unfold is_word in Hw. apply andb_true_iff in Hw. tauto. }
  assert (R1 : getValueForField (VObj props) "personalInfo" "firstName"
               = Returns (VStr first)).
  { unfold getValueForField. cbn [read]. rewrite Hd1.
    rewrite (Hkeys "firstName") by (cbn; tauto).
    cbn [get fieldMappings String.eqb Ascii.eqb Bool.eqb alternative read].
    rewrite (Hkeys "first_name"), (Hkeys "fname"), (Hkeys "given_name") by (cbn; tauto).
    cbn [andb]. unfold splitFirstName, or_read. cbn [read].
    rewrite (Hkeys "firstName") by (cbn; tauto).
    rewrite Hname. cbn [truthy_read is_truthy]. rewrite Hfull. cbn iota. rewrite Hfull, Hparts.
    unfold or_null. cbn [is_truthy] in Hfirst. rewrite Hfirst. reflexivity. }
  assert (R2 : getValueForField (VObj props) "personalInfo" "lastName"
               = Returns (or_null (join " " others))).
  { unfold getValueForField. cbn [read]. rewrite Hd2.
    rewrite (Hkeys "lastName") by (cbn; tauto).
    cbn [get fieldMappings String.eqb Ascii.eqb Bool.eqb alternative read].
    rewrite (Hkeys "last_name"), (Hkeys "lname"), (Hkeys "family_name"),
      (Hkeys "surname") by (cbn; tauto).
    cbn [andb]. unfold splitLastName, or_read. cbn [read].
    rewrite (Hkeys "lastName") by (cbn; tauto).
    rewrite Hname. cbn [truthy_read is_truthy]. rewrite Hfull. cbn iota. rewrite Hfull, Hparts.
    reflexivity. }
  split; [exact R1|]. split; [exact R2|].
  intros Hne. split.
  - rewrite R2. f_equal. unfold or_null.
    destruct others as [|w rest]; [contradiction Hne; reflexivity|].
    cbn [forallb] in Hwords. apply andb_true_iff in Hwords. destruct Hwords as [_ Hw].
    apply andb_true_iff in Hw. destruct Hw as [Hw _].
    unfold is_word in Hw. apply andb_true_iff in Hw. destruct Hw as [Hw _].
    destruct w; [discriminate|]. destruct rest; reflexivity.
  - symmetry. apply join_cons. exact Hne.
Qed.

(** The theorem at the form data [{ name: "Ada Mary Lovelace" }]. *)
Lemma full_name_is_split_after_the_first_word_witness :
  getValueForField (VObj [("name", VStr "Ada Mary Lovelace")]) "personalInfo" "firstName"
  = Returns (VStr "Ada")
  /\ getValueForField (VObj [("name", VStr "Ada Mary Lovelace")]) "personalInfo" "lastName"
     = Returns (VStr "Mary Lovelace").
Proof.
  destruct (full_name_is_split_after_the_first_word
              [("name", VStr "Ada Mary Lovelace")] "Ada" ["Mary"; "Lovelace"])
    as [H1 [_ H3]]; try reflexivity.
  - intros key Hkey. cbn in Hkey.
    repeat (destruct Hkey as [<- | Hkey]; [reflexivity|]). destruct Hkey.
  - split; [exact H1|]. apply H3. discriminate.
Defined.

End NameSplitting.

(** ** Values that are not in the form data *)

Section Defaults.
Import Str Data Props.

Lemma is_truthy_not_null (v : Value) : is_truthy v = true -> v <> VNull.
Proof. intros H ->. discriminate H. Qed.

Lemma value_or_default (formData : Value) (category fieldType : string) (v : Value) :
  formData <> VNull ->
  String.eqb fieldType "firstName" = false ->
  String.eqb fieldType "lastName" = false ->
  getValueForField formData category fieldType = Returns v ->
  is_truthy v = true \/ v = defaultValue category fieldType.
Proof.
  intros Hn H1 H2. rewrite (getValueForField_object _ _ _ Hn).
  rewrite H1, H2, !andb_false_r.
  destruct (if truthy_read (read_opt (read formData category) fieldType) then _ else None)
    as [v1|] eqn:E1.
  { intros [= <-]. left. apply guarded_truthy in E1. tauto. }
  destruct (if truthy_read (read formData fieldType) then _ else None) as [v2|] eqn:E2.
  { intros [= <-]. left. apply guarded_truthy in E2. tauto. }
  destruct (match get fieldType fieldMappings with Some _ => _ | None => _ end)
    as [v3|] eqn:E3.
  { intros [= <-]. left. destruct (get fieldType fieldMappings); [|discriminate].
    eapply alternative_truthy. exact E3. }
  intros [= <-]. right. reflexivity.
Qed.

Lemma defaults_of_taxonomy (category fieldType text : string) (patterns : list string) :
  In (category, fieldType, patterns) (Taxonomy.entries Taxonomy.fieldPatterns) ->
  get fieldType defaults = Some text ->
  defaultValue category fieldType = VStr text
  /\ String.eqb fieldType "firstName" = false
  /\ String.eqb fieldType "lastName" = false.
Proof.
  assert (H : forallb (fun e =>
                         match get (snd (fst e)) defaults with
                         | Some b =>
                             match defaultValue (fst (fst e)) (snd (fst e)) with
                             | VStr a => String.eqb a b
                             | _ => false
                             end
                             && negb (String.eqb (snd (fst e)) "firstName")
                             && negb (String.eqb (snd (fst e)) "lastName")
                         | None => true
                         end) (Taxonomy.entries Taxonomy.fieldPatterns) = true)
    by (vm_compute; reflexivity).
  rewrite forallb_forall in H. intros Hin Hd. specialize (H _ Hin). cbn [fst snd] in H.
  rewrite Hd in H. apply andb_true_iff in H. destruct H as [H H3].
  apply andb_true_iff in H. destruct H as [H1 H2].
  apply negb_true_iff in H2, H3.
  destruct (defaultValue category fieldType); try discriminate.
  apply String.eqb_eq in H1. subst. auto.
Qed.

(** For nine field types of the taxonomy, [getValueForField] never
    returns [null]: where the form data has no value it makes one up,
    the same for every applicant, and for the field type [portfolio] it
    is the address of a GitHub profile.  For every other field type of
    the taxonomy, empty form data give [null]; [willingToRelocate] is
    among these, its name not holding [relocate] in lower case. *)
Theorem missing_values_are_made_up (category fieldType : string) (patterns : list string) :
  In (category, fieldType, patterns) (Taxonomy.entries Taxonomy.fieldPatterns) ->
  getValueForField (VObj []) category fieldType
  = Returns (match get fieldType defaults with
             | Some text => VStr text
             | None => VNull
             end)
  /\ (forall formData text,
         get fieldType defaults = Some text ->
         formData <> VNull ->
         exists v, getValueForField formData category fieldType = Returns v
                   /\ (is_truthy v = true \/ v = VStr text)
                   /\ v <> VNull).
Proof.
  intros Hin. split.
  - revert Hin.
    assert (H : forallb (fun e =>
                           match getValueForField (VObj []) (fst (fst e)) (snd (fst e)),
                                 get (snd (fst e)) defaults with
                           | Returns (VStr a), Some b => String.eqb a b
                           | Returns VNull, None => true
                           | _, _ => false
                           end) (Taxonomy.entries Taxonomy.fieldPatterns) = true)
      by (vm_compute; reflexivity).
    rewrite forallb_forall in H. intros Hin. specialize (H _ Hin). cbn [fst snd] in H.
    destruct (getValueForField (VObj []) category fieldType) as [[| | |a| |]|];
      destruct (get fieldType defaults) as [txt|]; try discriminate; try reflexivity.
    apply String.eqb_eq in H. subst. reflexivity.
  - intros formData text Hd Hn.
    destruct (defaults_of_taxonomy _ _ _ _ Hin Hd) as [Hdef [H1 H2]].
    destruct (getValueForField formData category fieldType) as [v|] eqn:E.
    2:{ apply getValueForField_throws in E. contradiction. }
    exists v. split; [reflexivity|].
    destruct (value_or_default _ _ _ _ Hn H1 H2 E) as [Ht | ->].
    + split; [left; exact Ht | apply is_truthy_not_null; exact Ht].
    + rewrite Hdef. split; [right; reflexivity | discriminate].
Qed.

(** The theorem at the field type [portfolio]. *)
Lemma missing_values_are_made_up_witness :
  getValueForField (VObj []) "personalInfo" "portfolio"
  = Returns (VStr "https://github.com/divyanshgupta").
Proof.
  apply (missing_values_are_made_up "personalInfo" "portfolio"
           [ "portfolio"; "website"; "github"; "personal_site"; "web";
             "homepage"; "blog"; "portfolio_url" ]).
  cbn. tauto.
Defined.

End Defaults.

(** ** What filling a page reports *)

Section FillingCounts.
Import Str Dom Discovery Data Filling Props.

Lemma fillOne_counts (formData : Value) (field : string * string * FieldInfo) (p : Progress) :
  formData <> VNull ->
  exists call,
    fillOne formData field p
    = Returns (mkProgress
                 ((if has_value formData field then 1 else 0) + filledFields p)
                 (S (totalFields p))
                 (called call (calls p)))
    /\ (forall w, call = Some w ->
                  has_value formData field = true
                  /\ call_element w = fi_element (snd field)).
Proof.
  intros Hn. destruct field as [[category fieldType] fieldInfo].
  unfold fillOne, has_value. cbn [fst snd].
  destruct (getValueForField formData category fieldType) as [value|] eqn:E.
  2:{ apply getValueForField_throws in E. contradiction. }
  destruct (is_truthy value && truthy (tagName (fi_element fieldInfo))) eqn:T.
  - eexists. split; [reflexivity|]. intros w Hw. split; [reflexivity|].
    revert Hw. unfold fillField.
    repeat match goal with
           | |- context [match ?x with _ => _ end] => destruct x
           end; intros [= <-]; reflexivity.
  - exists None. split; [reflexivity | discriminate].
Qed.

Lemma fillAll_counts (formData : Value) (fields : list (string * string * FieldInfo)) :
  formData <> VNull ->
  forall p, exists p',
    fillAll formData fields p = Returns p'
    /\ filledFields p' = List.length (filter (has_value formData) fields) + filledFields p
    /\ totalFields p' = List.length fields + totalFields p
    /\ List.length (calls p') <= List.length (filter (has_value formData) fields)
                                 + List.length (calls p)
    /\ (forall w, In w (calls p') ->
                  In w (calls p)
                  \/ exists field, In field fields /\ has_value formData field = true
                                   /\ call_element w = fi_element (snd field)).
Proof.
  intros Hn. induction fields as [|field rest IH]; intros p.
  - exists p. cbn. repeat split; auto.
  - cbn [fillAll]. destruct (fillOne_counts formData field p Hn) as [call [E Hc]].
    rewrite E. destruct (IH (mkProgress
                               ((if has_value formData field then 1 else 0) + filledFields p)
                               (S (totalFields p)) (called call (calls p))))
      as [p' [E' [H1 [H2 [H3 H4]]]]].
    exists p'. split; [exact E'|]. cbn [filledFields totalFields calls] in *.
    cbn [filter List.length].
    assert (Hlen : List.length (called call (calls p))
                   <= (if has_value formData field then 1 else 0) + List.length (calls p)).
    { destruct call as [w|]; cbn [called].
      - destruct (Hc w eq_refl) as [Hv _]. rewrite Hv, length_app. cbn. lia.
      - lia. }
    split; [|split; [|split]].
    + rewrite H1. destruct (has_value formData field); cbn [List.length]; lia.
    + rewrite H2. lia.
    + destruct (has_value formData field); cbn [List.length] in *; lia.
    + intros w Hw. destruct (H4 w Hw) as [Hin | [f [Hf [Hv He]]]].
      * destruct call as [w'|]; cbn [called] in Hin; [|left; exact Hin].
        apply in_app_or in Hin. destruct Hin as [Hin | [<- | []]]; [left; exact Hin|].
        right. exists field. destruct (Hc w' eq_refl) as [Hv He].
        split; [left; reflexivity|]. split; assumption.
      * right. exists f. split; [right; exact Hf|]. split; assumption.
Qed.

(** For form data that is not [null], [fillFormWithData] succeeds.
    [totalFields] is the number of mapped fields of all recorded forms,
    [filledFields] the number of those that the form data or a default
    has a value for: what the writers do with the values, and whether
    one is called at all, does not enter the count.  Every writer called
    is called on the control of a mapped field with a value, at most one
    per such field. *)
Theorem filled_fields_are_the_fields_with_a_value
        (formFields : list (FormKey * Fields)) (formData : Value) :
  formData <> VNull ->
  let fields := mappedFields formFields in
  let filled := List.length (filter (has_value formData) fields) in
  fst (fillFormWithData formFields formData)
  = Success filled (List.length fields) (accuracyOf filled (List.length fields))
  /\ filled <= List.length fields
  /\ List.length (snd (fillFormWithData formFields formData)) <= filled
  /\ (forall w, In w (snd (fillFormWithData formFields formData)) ->
                exists field, In field fields /\ has_value formData field = true
                              /\ call_element w = fi_element (snd field)).
Proof.
  intros Hn fields filled. unfold fillFormWithData.
  destruct (fillAll_counts formData (mappedFields formFields) Hn (mkProgress 0 0 []))
    as [p' [E [H1 [H2 [H3 H4]]]]].
  rewrite E. cbn [fst snd filledFields totalFields calls List.length] in *.
  rewrite Nat.add_0_r in H1, H2, H3. fold fields in H1, H2, H3, H4. fold filled in H1, H3.
  rewrite H1, H2. split; [reflexivity|]. split; [apply filter_length_le|].
  split; [exact H3|]. intros w Hw. destruct (H4 w Hw) as [[] | H]. exact H.
Qed.

(** The theorem at a form with a name and an address, and form data
    that hold an address only: one of two fields is filled. *)
Lemma filled_fields_are_the_fields_with_a_value_witness :
  fst (fillFormWithData [(KIndex 0, Examples.namesFields)] Examples.addressOnly)
  = Success 1 2 50.
Proof.
  assert (Hdata : Examples.addressOnly <> VNull) by discriminate.
  destruct (filled_fields_are_the_fields_with_a_value
              [(KIndex 0, Examples.namesFields)] Examples.addressOnly Hdata)
    as (Hresult & _).
  rewrite Hresult. vm_compute. reflexivity.
Defined.

(** With form data that is [null] or missing, [fillFormWithData] fails
    as soon as one field is mapped, before any writer is called, and
    succeeds with nothing to do when none is. *)
Theorem filling_without_data_fails (formFields : list (FormKey * Fields)) :
  fillFormWithData formFields VNull
  = (match mappedFields formFields with
     | [] => Success 0 0 0
     | _ :: _ => Failure
     end, []).
Proof.
  unfold fillFormWithData. destruct (mappedFields formFields) as [|[[c t] info] rest].
  - reflexivity.
  - reflexivity.
Qed.

End FillingCounts.

(** ** The analysis of the recorded forms *)

Section Analysis.
Import Str Dom Discovery Data Filling Props.

Lemma total_cons (k : string) (n : nat) (rest : list (string * nat)) :
  total ((k, n) :: rest) = n + total rest.
Proof. reflexivity. Qed.

Lemma total_assign_old (category : string) (m v : nat) (fields : list (string * nat)) :
  get category fields = Some m ->
  total (assign category v fields) + m = total fields + v
  /\ map fst (assign category v fields) = map fst fields.
Proof.
  induction fields as [|[k n] rest IH]; cbn [get assign]; [discriminate|].
  destruct (String.eqb k category) eqn:E.
  - intros [= ->]. rewrite !total_cons. cbn [map fst]. split; [lia | reflexivity].
  - intros H. destruct (IH H) as [H1 H2]. rewrite !total_cons. cbn [map fst].
    split; [lia | congruence].
Qed.

Lemma total_assign_new (category : string) (v : nat) (fields : list (string * nat)) :
  get category fields = None ->
  total (assign category v fields) = total fields + v
  /\ map fst (assign category v fields) = (map fst fields ++ [category])%list
  /\ ~ In category (map fst fields).
Proof.
  induction fields as [|[k n] rest IH]; cbn [get assign].
  - intros _. rewrite total_cons. cbn [map fst app]. split; [cbn; lia|].
    split; [reflexivity | tauto].
  - destruct (String.eqb k category) eqn:E; [discriminate|].
    intros H. destruct (IH H) as [H1 [H2 H3]].
    rewrite !total_cons. cbn [map fst app].
    split; [lia|]. split; [congruence|].
    intros [-> | Hin]; [rewrite String.eqb_refl in E; discriminate | contradiction].
Qed.

Lemma add_count_total (category : string) (n : nat) (fields : list (string * nat)) :
  NoDup (map fst fields) ->
  total (add_count category n fields) = total fields + n
  /\ NoDup (map fst (add_count category n fields)).
Proof.
  intros Hnd. unfold add_count. destruct (get category fields) as [m|] eqn:E.
  - destruct (total_assign_old category m (m + n) fields E) as [H1 H2].
    split; [lia | rewrite H2; exact Hnd].
  - destruct (total_assign_new category n fields E) as [H1 [H2 H3]].
    split; [exact H1|]. rewrite H2. apply NoDup_app; [exact Hnd | repeat constructor; tauto|].
    intros x Hx [<- | []]. contradiction.
Qed.

Lemma categories_total (cats : Fields) (fields : list (string * nat)) :
  NoDup (map fst fields) ->
  let fields' :=
    fold_left (fun fields cat => add_count (fst cat) (List.length (snd cat)) fields)
              cats fields in
  total fields'
  = total fields
    + List.length (flat_map (fun cat => map (fun ty => (fst cat, fst ty, snd ty)) (snd cat))
                            cats)
  /\ NoDup (map fst fields').
Proof.
  revert fields. induction cats as [|cat rest IH]; intros fields Hnd; cbn [fold_left flat_map].
  - cbn [List.length]. rewrite Nat.add_0_r. split; [reflexivity | exact Hnd].
  - destruct (add_count_total (fst cat) (List.length (snd cat)) fields Hnd) as [H1 H2].
    destruct (IH _ H2) as [H3 H4]. cbn zeta in *.
    split; [|exact H4]. rewrite H3, H1, length_app, length_map. lia.
Qed.

(** [analyzeFormStructure] reports the number of recorded forms and,
    category by category, each category once, the number of mapped
    fields; the counts add up to the number that [fillFormWithData]
    reports as [totalFields]. *)
Theorem analysis_counts_the_mapped_fields (s : Detector) :
  fst (analyzeFormStructure s) = List.length (forms s)
  /\ NoDup (map fst (snd (analyzeFormStructure s)))
  /\ total (snd (analyzeFormStructure s)) = List.length (mappedFields (formFields s))
  /\ (forall formData,
         formData <> VNull ->
         exists filled accuracy,
           fst (fillFormWithData (formFields s) formData)
           = Success filled (total (snd (analyzeFormStructure s))) accuracy).
Proof.
  split; [reflexivity|].
  assert (G : forall ff fields,
             NoDup (map fst fields) ->
             let fields' :=
               fold_left
                 (fun fields (form : FormKey * Fields) =>
                    fold_left (fun fields cat =>
                                 add_count (fst cat) (List.length (snd cat)) fields)
                              (snd form) fields)
                 ff fields in
             total fields' = total fields + List.length (mappedFields ff)
             /\ NoDup (map fst fields')).
  { induction ff as [|form rest IH]; intros fields Hnd; cbn [fold_left].
    - cbn [mappedFields flat_map List.length]. rewrite Nat.add_0_r.
      split; [reflexivity | exact Hnd].
    - destruct (categories_total (snd form) fields Hnd) as [H1 H2]. cbn zeta in *.
      destruct (IH _ H2) as [H3 H4]. split; [|exact H4].
      rewrite H3, H1. unfold mappedFields. cbn [flat_map]. rewrite length_app. cbn beta.
      symmetry. apply Nat.add_assoc. }
  destruct (G (formFields s) [] (NoDup_nil _)) as [H1 H2]. cbn zeta in *.
  change (fold_left _ (formFields s) []) with (snd (analyzeFormStructure s)) in H1, H2.
  change (total []) with 0 in H1. rewrite Nat.add_0_l in H1.
  split; [exact H2|]. split; [exact H1|].
  intros formData Hn. unfold fillFormWithData.
  destruct (fillAll_counts formData (mappedFields (formFields s)) Hn (mkProgress 0 0 []))
    as [p' [E [_ [Ht _]]]].
  rewrite E. cbn [fst]. rewrite H1. cbn [totalFields] in Ht.
  rewrite Ht, Nat.add_0_r. eexists. eexists. reflexivity.
Qed.

End Analysis.

(** ** From a value to a writer *)

Section Dispatch.
Import Str Dom Data Filling Props.




End Dispatch.

(** ** The writer for checkboxes *)

Section Checkbox.
Import Str Writers TextWriters.

(** [fillCheckboxField] leaves the box checked exactly when the value
    is one of the words true, yes, 1, on and checked, whatever the
    letter case: with any other value, the empty string among them, it
    unchecks a box that was checked.  The field events are dispatched
    exactly when the state changes, so that a second call with the same
    value changes nothing and dispatches nothing. *)
Theorem checkbox_writer_sets_or_clears (element : CheckboxEl) (value : string) :
  let shouldCheck := existsb (String.eqb (toLowerCase value)) affirmative in
  c_checked (fst (fillCheckboxField element value)) = shouldCheck
  /\ (c_checked element = shouldCheck ->
      fillCheckboxField element value = (element, [Focus; Blur]))
  /\ (c_checked element <> shouldCheck ->
      fillCheckboxField element value
      = (mkCheckbox shouldCheck, (Focus :: triggerFieldEvents ++ [Blur])%list))
  /\ fillCheckboxField (fst (fillCheckboxField element value)) value
     = (fst (fillCheckboxField element value), [Focus; Blur])
  /\ (c_checked element = true -> shouldCheck = false ->
      c_checked (fst (fillCheckboxField element value)) = false).
Proof.
  intros shouldCheck. unfold fillCheckboxField. fold shouldCheck.
  destruct element as [c]. cbn [c_checked].
  destruct c; destruct shouldCheck eqn:E; cbn [Bool.eqb fst snd c_checked];
    rewrite ?E; cbn [Bool.eqb];
    repeat split; try reflexivity; try congruence; intros H; try discriminate;
      contradiction H; reflexivity.
Qed.

End Checkbox.

(** ** The formats tried for a location *)

Section LocationFormats.
Import Str Data TextWriters Props.

Lemma append_assoc (a b c : string) : (a ++ b) ++ c = a ++ b ++ c.
Proof. induction a as [|x a IH]; cbn; congruence. Qed.

Lemma upper_not_space (c : ascii) : is_upper c = true -> is_space c = false.
Proof.
  unfold is_upper, is_space. intros H. apply andb_true_iff in H.
  destruct H as [H1 H2]. apply Nat.leb_le in H1, H2.
  apply orb_false_iff. split.
  - apply andb_false_iff. right. apply Nat.leb_gt. lia.
  - apply Nat.eqb_neq. lia.
Qed.

Lemma upper_not_comma (c : ascii) : is_upper c = true -> Ascii.eqb c "," = false.
Proof.
  intros H. destruct (Ascii.eqb c ",") eqn:E; [|reflexivity].
  apply Ascii.eqb_eq in E. subst c. discriminate H.
Qed.

Lemma at_comma_first (city rest tok : string) :
  no_comma city = true ->
  at_comma tok (city ++ String "," rest) = Some (rev_string "" (rev_string tok city), rest).
Proof.
  revert tok. induction city as [|c city IH]; intros tok H.
  - reflexivity.
  - cbn [no_comma forallb_string] in H. apply andb_true_iff in H. destruct H as [Hc H].
    cbn [append at_comma]. apply negb_true_iff in Hc. rewrite Hc.
    rewrite (IH (String c tok) H). reflexivity.
Qed.

Lemma at_comma_city (city rest : string) :
  no_comma city = true -> at_comma "" (city ++ String "," rest) = Some (city, rest).
Proof.
  intros H. rewrite (at_comma_first city rest "" H).
  rewrite rev_string_involutive. reflexivity.
Qed.

Lemma split_no_comma (s tok : string) :
  no_comma s = true -> split_comma_blank tok s = [rev_string "" (rev_string tok s)].
Proof.
  revert tok. induction s as [|c s IH]; intros tok H; [reflexivity|].
  cbn [no_comma forallb_string] in H. apply andb_true_iff in H. destruct H as [Hc H].
  apply negb_true_iff in Hc.
  cbn [split_comma_blank]. destruct s as [|c' s'].
  - reflexivity.
  - rewrite Hc. cbn [andb]. rewrite (IH (String c tok) H). reflexivity.
Qed.

(** Up to the first comma, [split(', ')] copies; at the comma it splits
    exactly when a blank follows. *)
Lemma split_at_first_comma (city rest tok : string) :
  no_comma city = true ->
  split_comma_blank tok (city ++ String "," rest)
  = match rest with
    | String " " rest' => rev_string "" (rev_string tok city) :: split_comma_blank "" rest'
    | _ => split_comma_blank (String "," (rev_string tok city)) rest
    end.
Proof.
  revert tok. induction city as [|c city IH]; intros tok H.
  - cbn [append rev_string split_comma_blank].
    destruct rest as [|c' rest']; [reflexivity|].
    cbn [Ascii.eqb Bool.eqb andb].
    destruct (Ascii.eqb c' " ") eqn:E.
    + apply Ascii.eqb_eq in E. subst c'. reflexivity.
    + destruct c' as [[] [] [] [] [] [] [] []]; try reflexivity. discriminate E.
  - cbn [no_comma forallb_string] in H. apply andb_true_iff in H. destruct H as [Hc H].
    apply negb_true_iff in Hc.
    cbn [append split_comma_blank rev_string].
    specialize (IH (String c tok) H).
    destruct (city ++ String "," rest) eqn:E.
    + destruct city; discriminate E.
    + rewrite Hc. cbn [andb]. exact IH.
Qed.

Lemma rev_rev_acc (tok s : string) :
  rev_string "" (rev_string tok s) = rev_string "" tok ++ s.
Proof.
  revert tok. induction s as [|c s IH]; intros tok.
  - cbn [rev_string]. symmetry. apply append_empty.
  - cbn [rev_string]. rewrite IH. rewrite rev_string_cons. unfold Spec.snoc.
    rewrite append_assoc. reflexivity.
Qed.

(** For a location written as a city, a comma, one blank and two
    capitals, [getLocationFormats] gives the location, then twice the
    same text, the location followed by the country, and for the nine
    states it knows the city with the name of the state, without and
    with the country. *)
Theorem location_formats_of_city_and_state (city : string) (a b : ascii) :
  truthy city = true -> no_comma city = true ->
  is_upper a = true -> is_upper b = true ->
  let state := String a (String b "") in
  let location := city ++ ", " ++ state in
  getLocationFormats location
  = List.app
      [ location; location ++ ", United States"; location ++ ", United States" ]
      match get state stateExpansions with
      | Some full => [ city ++ ", " ++ full; city ++ ", " ++ full ++ ", United States" ]
      | None => []
      end.
Proof.
  intros Hc Hn Ha Hb state location.
  assert (Hm : matchesCityState location = true).
  { unfold matchesCityState, location. change (", " ++ state) with (String "," (" " ++ state)).
    rewrite (at_comma_city city _ Hn). rewrite Hc. cbn [andb append trimStart].
    change (is_space " ") with true. cbn iota. unfold state. cbn [trimStart].
    rewrite (upper_not_space a Ha), Ha, Hb. reflexivity. }
  assert (Hs : split_comma_blank "" location = [city; state]).
  { unfold location. change (", " ++ state) with (String "," (String " " state)).
    rewrite (split_at_first_comma city _ "" Hn).
    change (rev_string "" (rev_string "" city)) with (rev_string "" (rev_string "" city)).
    rewrite rev_string_involutive. f_equal.
    unfold state. cbn [split_comma_blank].
    rewrite (upper_not_comma a Ha). reflexivity. }
  unfold getLocationFormats. rewrite Hm, Hs. cbn [nth_error interpolate].
  f_equal. f_equal. f_equal. unfold location. rewrite !append_assoc. reflexivity.
Qed.

(** The theorem at Austin, TX. *)
Lemma location_formats_of_city_and_state_witness :
  getLocationFormats "Austin, TX"
  = [ "Austin, TX"; "Austin, TX, United States"; "Austin, TX, United States";
      "Austin, Texas"; "Austin, Texas, United States" ].
Proof.
  apply (location_formats_of_city_and_state "Austin" "T" "X"); reflexivity.
Defined.

(** For a location whose comma is not followed by a blank (no white
    space before the two capitals, or white space that starts with
    another character), [split(', ')] does not split: the city is the
    whole location, the state is [undefined], and the third format
    holds the word [undefined]; the name of the state is not expanded. *)
Theorem location_formats_without_blank_after_comma (city gap : string) (a b : ascii) :
  truthy city = true -> no_comma city = true ->
  forallb_string is_space gap = true -> String.prefix " " gap = false ->
  is_upper a = true -> is_upper b = true ->
  let location := city ++ "," ++ gap ++ String a (String b "") in
  getLocationFormats location
  = [ location; location ++ ", United States";
      location ++ ", undefined, United States" ].
Proof.
  intros Hc Hn Hg Hp Ha Hb location.
  assert (Hgap : trimStart (gap ++ String a (String b "")) = String a (String b "")).
  { clear Hp. induction gap as [|c gap IH]; cbn [append trimStart].
    - rewrite (upper_not_space a Ha). reflexivity.
    - cbn [forallb_string] in Hg. apply andb_true_iff in Hg. destruct Hg as [H1 H2].
      rewrite H1. apply IH. exact H2. }
  assert (Hm : matchesCityState location = true).
  { unfold matchesCityState, location.
    change ("," ++ gap ++ String a (String b "")) with
      (String "," (gap ++ String a (String b ""))).
    rewrite (at_comma_city city _ Hn), Hc, Hgap, Ha, Hb. reflexivity. }
  assert (Hgc : no_comma (gap ++ String a (String b "")) = true).
  { clear Hp Hgap Hm. induction gap as [|c gap IH]; cbn [append no_comma forallb_string].
    - rewrite (upper_not_comma a Ha), (upper_not_comma b Hb). reflexivity.
    - cbn [forallb_string] in Hg. apply andb_true_iff in Hg. destruct Hg as [H1 H2].
      fold (no_comma (gap ++ String a (String b ""))). rewrite (IH H2).
      destruct (Ascii.eqb c ",") eqn:E; [|reflexivity].
      apply Ascii.eqb_eq in E. subst c. discriminate H1. }
  assert (Hs : split_comma_blank "" location = [location]).
  { unfold location.
    change ("," ++ gap ++ String a (String b "")) with
      (String "," (gap ++ String a (String b ""))).
    rewrite (split_at_first_comma city _ "" Hn).
    assert (E : match gap ++ String a (String b "") with
                | String " " rest' =>
                    rev_string "" (rev_string "" city) :: split_comma_blank "" rest'
                | _ => split_comma_blank (String "," (rev_string "" city))
                                         (gap ++ String a (String b ""))
                end
                = split_comma_blank (String "," (rev_string "" city))
                                    (gap ++ String a (String b ""))).
    { destruct gap as [|c gap]; cbn [append].
      - destruct a as [[] [] [] [] [] [] [] []]; try reflexivity. discriminate Ha.
      - destruct c as [[] [] [] [] [] [] [] []]; try reflexivity.
        cbn in Hp. destruct gap; discriminate Hp. }
    rewrite E, (split_no_comma _ _ Hgc), rev_rev_acc.
    change (rev_string "" (String "," (rev_string "" city)))
      with (rev_string "" (String "," (rev_string "" city))).
    rewrite rev_string_cons, rev_string_involutive. unfold Spec.snoc.
    rewrite append_assoc. reflexivity. }
  unfold getLocationFormats. rewrite Hm, Hs. reflexivity.
Qed.

(** The theorem at Austin,TX. *)
Lemma location_formats_without_blank_after_comma_witness :
  getLocationFormats "Austin,TX"
  = [ "Austin,TX"; "Austin,TX, United States"; "Austin,TX, undefined, United States" ].
Proof.
  apply (location_formats_without_blank_after_comma "Austin" "" "T" "X"); reflexivity.
Defined.

End LocationFormats.

(** ** The types of the recorded forms *)

Section FormTypes.
Import Str Dom Discovery Reports Props.

Lemma set_add_in (x y : string) (types : list string) :
  In y (set_add x types) <-> In y types \/ y = x.
Proof.
  unfold set_add. destruct (existsb (String.eqb x) types) eqn:E.
  - split; [left; assumption|]. intros [H | ->]; [exact H|].
    apply existsb_exists in E. destruct E as [z [Hz Ez]].
    apply String.eqb_eq in Ez. subst z. exact Hz.
  - rewrite in_app_iff. cbn [In]. intuition (subst; auto).
Qed.

Lemma set_add_nodup (x : string) (types : list string) :
  NoDup types -> NoDup (set_add x types).
Proof.
  intros H. unfold set_add. destruct (existsb (String.eqb x) types) eqn:E; [exact H|].
  apply NoDup_app; [exact H | repeat constructor; intros [] |].
  intros y Hy [-> | []].
  assert (T : existsb (String.eqb y) types = true).
  { apply existsb_exists. exists y. split; [exact Hy | apply String.eqb_refl]. }
  congruence.
Qed.

Lemma add_all_spec (xs types : list string) :
  let result := fold_left (fun t x => set_add x t) xs types in
  (forall y, In y result <-> In y types \/ In y xs)
  /\ (NoDup types -> NoDup result).
Proof.
  revert types. induction xs as [|x xs IH]; intros types; cbn [fold_left].
  - cbn zeta. split; [intros y; cbn; tauto | auto].
  - destruct (IH (set_add x types)) as [H1 H2]. cbn zeta in *. split.
    + intros y. rewrite H1, set_add_in. cbn [In]. intuition (subst; auto).
    + intros Hn. apply H2. apply set_add_nodup. exact Hn.
Qed.

Lemma getFormTypes_step (types : list string) (form : FormEntry) :
  (let text := formText form in
   let types := if includes text "application" then set_add "Application" types
                else types in
   let types := if includes text "career" || includes text "job"
                then set_add "Career" types else types in
   let types := if includes text "resume" || includes text "cv"
                then set_add "Resume Upload" types else types in
   if includes text "contact" then set_add "Contact" types else types)
  = fold_left (fun t x => set_add x t) (typesOf (formText form)) types.
Proof.
  cbn zeta. unfold typesOf.
  destruct (includes (formText form) "application");
    destruct (includes (formText form) "career" || includes (formText form) "job");
    destruct (includes (formText form) "resume" || includes (formText form) "cv");
    destruct (includes (formText form) "contact"); reflexivity.
Qed.

Lemma getFormTypes_fold (forms : list FormEntry) (types : list string) :
  let result :=
    fold_left
      (fun types form =>
         let text := formText form in
         let types := if includes text "application" then set_add "Application" types
                      else types in
         let types := if includes text "career" || includes text "job"
                      then set_add "Career" types else types in
         let types := if includes text "resume" || includes text "cv"
                      then set_add "Resume Upload" types else types in
         if includes text "contact" then set_add "Contact" types else types)
      forms types in
  (forall y, In y result
             <-> In y types \/ exists form, In form forms /\ In y (typesOf (formText form)))
  /\ (NoDup types -> NoDup result).
Proof.
  revert types. induction forms as [|form rest IH]; intros types; cbn [fold_left].
  - cbn zeta. split; [|auto]. intros y. split; [auto|]. intros [H | [f [[] _]]]. exact H.
  - rewrite getFormTypes_step.
    destruct (add_all_spec (typesOf (formText form)) types) as [A1 A2].
    destruct (IH (fold_left (fun t x => set_add x t) (typesOf (formText form)) types))
      as [H1 H2].
    cbn zeta in *. split.
    + intros y. rewrite H1, A1. split.
      * intros [[H | H] | [f [Hf Hy]]]; [left; exact H | right | right].
        -- exists form. split; [left; reflexivity | exact H].
        -- exists f. split; [right; exact Hf | exact Hy].
      * intros [H | [f [[<- | Hf] Hy]]]; [left; left; exact H | left; right; exact Hy|].
        right. exists f. split; assumption.
    + intros Hn. apply H2. apply A2. exact Hn.
Qed.

(** [getFormTypes] lists each type once.  A type is listed exactly when
    the text of an element recorded as a form calls for it: Application
    for the word application, Career for career or job, Resume Upload
    for resume or cv, Contact for contact.  Virtual forms have no text
    and contribute nothing, so that a page whose forms are all virtual
    has no form type. *)
Theorem form_types_come_from_the_text_of_real_forms (s : Detector) :
  NoDup (getFormTypes s)
  /\ (forall type,
         In type (getFormTypes s)
         <-> exists t, In (RealForm t) (forms s)
                       /\ In type (typesOf (toLowerCase (innerText (elem t)))))
  /\ (forall type, In type (getFormTypes s) ->
                   In type ["Application"; "Career"; "Resume Upload"; "Contact"])
  /\ ((forall form, In form (forms s) -> exists inputs, form = VirtualForm inputs) ->
      getFormTypes s = []).
Proof.
  destruct (getFormTypes_fold (forms s) []) as [H1 H2]. cbn zeta in *.
  fold (getFormTypes s) in H1, H2.
  assert (C : forall type,
             In type (getFormTypes s)
             <-> exists t, In (RealForm t) (forms s)
                           /\ In type (typesOf (toLowerCase (innerText (elem t))))).
  { intros type. rewrite H1. split.
    - intros [[] | [form [Hf Hy]]]. destruct form as [t|inputs].
      + exists t. split; assumption.
      + destruct Hy.
    - intros [t [Ht Hy]]. right. exists (RealForm t). split; assumption. }
  split; [apply H2; constructor|]. split; [exact C|]. split.
  - intros type Ht. apply C in Ht. destruct Ht as [t [_ Hy]].
    unfold typesOf in Hy. cbn [In].
    repeat (apply in_app_or in Hy; destruct Hy as [Hy | Hy]);
      match type of Hy with
      | In _ (if ?b then _ else _) => destruct b
      end; cbn [In] in Hy; tauto.
  - intros Hv. destruct (getFormTypes s) as [|x l]; [reflexivity|].
    assert (Hx : In x (x :: l)) by (left; reflexivity).
    apply C in Hx. destruct Hx as [t [Ht _]].
    destruct (Hv _ Ht) as [inputs Hi]. discriminate Hi.
Qed.

End FormTypes.

(** ** Bounding rectangles *)

Section BoundingBoxes.
Import Dom Discovery Reports Props.
Open Scope Z_scope.

Lemma extend_positive (box : Box) (b : Bounds) :
  extend box b
  = if positive b
    then mkBox (ext_min (minX box) (b_left b)) (ext_min (minY box) (b_top b))
               (ext_max (maxX box) (b_right b)) (ext_max (maxY box) (b_bottom b))
    else box.
Proof. reflexivity. Qed.

(** What the loop over the bounds keeps true: the accumulators are as at
    the start and no bounds of positive size have been seen, or they are
    the sides of the least rectangle around those seen. *)
Lemma box_spec (bs : list Bounds) :
  (filter positive bs = [] /\ fold_left extend bs emptyBox = emptyBox)
  \/ exists x0 y0 x1 y1,
      fold_left extend bs emptyBox = mkBox (Finite x0) (Finite y0) (Finite x1) (Finite y1)
      /\ bounding x0 y0 x1 y1 (filter positive bs).
Proof.
  induction bs as [|b bs IH] using rev_ind.
  - left. split; reflexivity.
  - rewrite fold_left_app, filter_app. cbn [fold_left filter].
    rewrite extend_positive. destruct (positive b) eqn:Ep.
    2:{ rewrite app_nil_r. exact IH. }
    right. destruct IH as [[Hnone Hbox] | [x0 [y0 [x1 [y1 [Hbox Hb]]]]]].
    + rewrite Hbox, Hnone. cbn [minX minY maxX maxY emptyBox ext_min ext_max app].
      exists (b_left b), (b_top b), (b_right b), (b_bottom b).
      split; [reflexivity|]. unfold bounding. split.
      * intros b' [<- | []]. lia.
      * repeat split; exists b; (split; [left; reflexivity | reflexivity]).
    + rewrite Hbox. cbn [minX minY maxX maxY ext_min ext_max].
      exists (Z.min x0 (b_left b)), (Z.min y0 (b_top b)),
             (Z.max x1 (b_right b)), (Z.max y1 (b_bottom b)).
      split; [reflexivity|].
      destruct Hb as [Hall [[bl [Hl El]] [[bt [Ht Et]] [[br [Hr Er]] [bb [Hb Eb]]]]]].
      unfold bounding. split; [|split; [|split; [|split]]].
      * intros b' Hin. apply in_app_or in Hin. destruct Hin as [Hin | [<- | []]].
        -- specialize (Hall b' Hin). lia.
        -- lia.
      * destruct (Z.min_spec x0 (b_left b)) as [[_ E] | [_ E]]; rewrite E.
        -- exists bl. split; [apply in_or_app; left; exact Hl | exact El].
        -- exists b. split; [apply in_or_app; right; left; reflexivity | reflexivity].
      * destruct (Z.min_spec y0 (b_top b)) as [[_ E] | [_ E]]; rewrite E.
        -- exists bt. split; [apply in_or_app; left; exact Ht | exact Et].
        -- exists b. split; [apply in_or_app; right; left; reflexivity | reflexivity].
      * destruct (Z.max_spec x1 (b_right b)) as [[_ E] | [_ E]]; rewrite E.
        -- exists b. split; [apply in_or_app; right; left; reflexivity | reflexivity].
        -- exists br. split; [apply in_or_app; left; exact Hr | exact Er].
      * destruct (Z.max_spec y1 (b_bottom b)) as [[_ E] | [_ E]]; rewrite E.
        -- exists b. split; [apply in_or_app; right; left; reflexivity | reflexivity].
        -- exists bb. split; [apply in_or_app; left; exact Hb | exact Eb].
Qed.

Lemma fold_left_map {A B C} (f : A -> B -> A) (g : C -> B) (l : list C) (a : A) :
  fold_left (fun acc x => f acc (g x)) l a = fold_left f (map g l) a.
Proof. revert a. induction l as [|x l IH]; intros a; cbn; [reflexivity | apply IH]. Qed.

Lemma fold_forms (forms : list FormEntry) (box : Box) :
  fold_left (fun box form =>
               match formBounds form with
               | Some bounds => extend box bounds
               | None => box
               end) forms box
  = fold_left extend (boundsOfForms forms) box.
Proof.
  revert box. induction forms as [|form rest IH]; intros box; [reflexivity|].
  cbn [fold_left boundsOfForms flat_map]. rewrite fold_left_app.
  destruct (formBounds form); cbn [fold_left]; apply IH.
Qed.

(** [getVirtualFormBounds] returns [null] exactly when no input has a
    positive width and height.  Otherwise the four sides are those of
    the least rectangle around the inputs of positive width and height:
    each of them lies within it, and each side is the side of one of
    them; the width and the height are the differences of the sides,
    and are positive. *)
Theorem virtual_form_bounds_enclose_the_inputs (inputs : list Element) :
  let bs := filter positive (map (fun input => boundsOf (rect input)) inputs) in
  match getVirtualFormBounds inputs with
  | None => bs = []
  | Some b =>
      bounding (b_left b) (b_top b) (b_right b) (b_bottom b) bs
      /\ b_width b = b_right b - b_left b
      /\ b_height b = b_bottom b - b_top b
      /\ 0 < b_width b /\ 0 < b_height b
  end.
Proof.
  intros bs. unfold getVirtualFormBounds.
  destruct inputs as [|input rest]; [reflexivity|].
  set (inputs := input :: rest) in *.
  change (match inputs with [] => None | _ :: _ => ?x end) with x.
  rewrite (fold_left_map extend (fun input => boundsOf (rect input))).
  destruct (box_spec (map (fun input => boundsOf (rect input)) inputs))
    as [[Hnone Hbox] | [x0 [y0 [x1 [y1 [Hbox Hb]]]]]].
  - rewrite Hbox. cbn [minX emptyBox]. exact Hnone.
  - rewrite Hbox. cbn [minX minY maxX maxY b_left b_top b_right b_bottom b_width b_height].
    fold bs in Hb. split; [exact Hb|]. split; [reflexivity|]. split; [reflexivity|].
    destruct Hb as [Hall [[bl [Hl El]] [[bt [Ht Et]] _]]].
    assert (P : forall b, In b bs ->
                          0 < b_width b /\ 0 < b_height b
                          /\ b_right b = b_left b + b_width b
                          /\ b_bottom b = b_top b + b_height b).
    { intros b Hin. unfold bs in Hin. apply filter_In in Hin. destruct Hin as [Hin Hp].
      apply in_map_iff in Hin. destruct Hin as [i [<- _]].
      unfold positive in Hp. apply andb_true_iff in Hp. destruct Hp as [H1 H2].
      apply Z.ltb_lt in H1, H2. cbn in *. lia. }
    pose proof (Hall bl Hl). pose proof (Hall bt Ht).
    pose proof (P bl Hl). pose proof (P bt Ht). lia.
Qed.

(** [getFormBounds] returns [null] exactly when no recorded form has
    bounds of positive width and height.  Otherwise it returns the
    least rectangle around the forms that have, widened by 20 px on
    each side, moved to the right of and below the origin, cut to the
    size of the window and then enlarged to 300 by 200 px at least,
    also in a smaller window.  When the widened rectangle is not wider
    than the window, every such form lies between the left and the
    right side of the result with its 20 px; likewise for the height. *)
Theorem form_bounds_are_the_padded_bounding_box (innerWidth innerHeight : Z)
        (s : Detector) :
  let bs := filter positive (boundsOfForms (forms s)) in
  match getFormBounds innerWidth innerHeight s with
  | None => bs = []
  | Some crop =>
      exists x0 y0 x1 y1,
        bounding x0 y0 x1 y1 bs
        /\ crop = mkCrop (Z.max 0 (x0 - 20)) (Z.max 0 (y0 - 20))
                         (Z.max (Z.min innerWidth (x1 - x0 + 40)) 300)
                         (Z.max (Z.min innerHeight (y1 - y0 + 40)) 200)
        /\ 0 <= crop_left crop /\ 0 <= crop_top crop
        /\ 300 <= crop_width crop /\ 200 <= crop_height crop
        /\ (x1 - x0 + 40 <= innerWidth ->
            forall b, In b bs ->
                      crop_left crop <= Z.max 0 (b_left b - 20)
                      /\ b_right b + 20 <= crop_left crop + crop_width crop)
        /\ (y1 - y0 + 40 <= innerHeight ->
            forall b, In b bs ->
                      crop_top crop <= Z.max 0 (b_top b - 20)
                      /\ b_bottom b + 20 <= crop_top crop + crop_height crop)
  end.
Proof.
  intros bs. unfold getFormBounds.
  destruct (forms s) as [|form rest]; [reflexivity|].
  set (fs := form :: rest) in *.
  change (match fs with [] => None | _ :: _ => ?x end) with x.
  rewrite fold_forms.
  destruct (box_spec (boundsOfForms fs))
    as [[Hnone Hbox] | [x0 [y0 [x1 [y1 [Hbox Hb]]]]]].
  - rewrite Hbox. cbn [minX emptyBox]. exact Hnone.
  - rewrite Hbox. cbn [minX minY maxX maxY]. fold bs in Hb.
    exists x0, y0, x1, y1. split; [exact Hb|].
    replace (2 * 20) with 40 by reflexivity.
    split; [reflexivity|]. cbn [crop_left crop_top crop_width crop_height].
    destruct Hb as [Hall _].
    repeat split; try lia.
    + specialize (Hall b H0). lia.
    + specialize (Hall b H0). lia.
    + specialize (Hall b H0). lia.
    + specialize (Hall b H0). lia.
Qed.

End BoundingBoxes.

(** ** The platform of the page *)

Section Platform.
Import Str Reports Props.

Lemma prefix_lower (p s : string) :
  String.prefix p s = true -> String.prefix (toLowerCase p) (toLowerCase s) = true.
Proof.
  revert s. induction p as [|c p IH]; intros s H.
  - destruct s; reflexivity.
  - destruct s as [|c' s]; [discriminate H|].
    cbn [String.prefix] in H. cbn [toLowerCase String.prefix].
    destruct (ascii_dec c c') as [<- | Hne]; [|discriminate H].
    destruct (ascii_dec (lower_char c) (lower_char c)); [|contradiction].
    apply IH. exact H.
Qed.

(** Lower-casing keeps what a text includes. *)
Lemma includes_lower (s p : string) :
  includes s p = true -> includes (toLowerCase s) (toLowerCase p) = true.
Proof.
  induction s as [|c s IH]; intros H.
  - cbn [includes] in H. destruct (String.prefix p "") eqn:E; [|discriminate H].
    apply prefix_lower in E. cbn [toLowerCase includes] in *. rewrite E. reflexivity.
  - rewrite includes_cons in H. cbn [toLowerCase]. rewrite includes_cons.
    destruct (String.prefix p (String c s)) eqn:E.
    + apply prefix_lower in E. cbn [toLowerCase] in E. rewrite E. reflexivity.
    + destruct (String.prefix (toLowerCase p) _); [reflexivity | apply IH; exact H].
Qed.

Lemma firstPlatform_spec (url pageHTML : string) (table : list (string * list string)) :
  (exists before platform signatures after,
      table = (before ++ (platform, signatures) :: after)%list
      /\ found url pageHTML signatures = true
      /\ (forall row, In row before -> found url pageHTML (snd row) = false)
      /\ firstPlatform url pageHTML table = platform)
  \/ ((forall row, In row table -> found url pageHTML (snd row) = false)
      /\ firstPlatform url pageHTML table = "generic").
Proof.
  induction table as [|[platform signatures] rest IH].
  - right. split; [intros row [] | reflexivity].
  - cbn [firstPlatform]. fold (found url pageHTML signatures).
    destruct (found url pageHTML signatures) eqn:E.
    + left. exists [], platform, signatures, rest.
      split; [reflexivity|]. split; [exact E|]. split; [intros row [] | reflexivity].
    + destruct IH as [[before [p [sigs [after [Et [Ef [Hb Er]]]]]]] | [Hnone Er]].
      * left. exists ((platform, signatures) :: before), p, sigs, after.
        subst rest. split; [reflexivity|]. split; [exact Ef|]. split; [|exact Er].
        intros row [<- | Hrow]; [exact E | apply Hb; exact Hrow].
      * right. split; [|exact Er].
        intros row [<- | Hrow]; [exact E | apply Hnone; exact Hrow].
Qed.

Lemma firstPlatform_at (url pageHTML platform : string) (signatures : list string)
      (before after : list (string * list string)) :
  found url pageHTML signatures = true ->
  (forall row, In row before -> found url pageHTML (snd row) = false) ->
  firstPlatform url pageHTML (before ++ (platform, signatures) :: after)%list = platform.
Proof.
  intros Hf. induction before as [|[p sigs] before IH]; intros Hb; cbn [app firstPlatform].
  - fold (found url pageHTML signatures). rewrite Hf. reflexivity.
  - fold (found url pageHTML sigs).
    pose proof (Hb (p, sigs) (or_introl eq_refl)) as E. cbn [snd] in E.
    rewrite E. apply IH.
    intros row Hrow. apply Hb. right. exact Hrow.
Qed.

(** [detectATSPlatform] names the first platform of its table one of
    whose signatures occurs, as it is written and letter case aside, in
    the address or in the text of the page, and says generic exactly
    when none does.  An address that the liveness timer takes for
    Greenhouse is one of Workday, when the page also bears a signature
    of Workday, or of Greenhouse. *)
Theorem ats_platform_is_the_first_with_a_signature (href outerHTML : string) :
  let url := toLowerCase href in
  let pageHTML := toLowerCase outerHTML in
  (detectATSPlatform href outerHTML = "generic"
   <-> forall row, In row atsSignatures -> found url pageHTML (snd row) = false)
  /\ (forall before platform signatures after,
         atsSignatures = (before ++ (platform, signatures) :: after)%list ->
         found url pageHTML signatures = true ->
         (forall row, In row before -> found url pageHTML (snd row) = false) ->
         detectATSPlatform href outerHTML = platform)
  /\ In (detectATSPlatform href outerHTML) ("generic" :: map fst atsSignatures)
  /\ (Session.isGreenhouseOrIframe href false = true ->
      detectATSPlatform href outerHTML = "workday"
      \/ detectATSPlatform href outerHTML = "greenhouse").
Proof.
  intros url pageHTML. unfold detectATSPlatform. fold url pageHTML.
  assert (Hnames : ~ In "generic" (map fst atsSignatures)).
  { cbn. intros H. repeat (destruct H as [H | H]; [discriminate H|]). exact H. }
  split; [|split; [|split]].
  - destruct (firstPlatform_spec url pageHTML atsSignatures)
      as [[before [p [sigs [after [Et [Ef [Hb Er]]]]]]] | [Hnone Er]].
    + split.
      * intros Hg. exfalso. apply Hnames. rewrite Et, map_app, in_app_iff.
        right. left. cbn [fst]. congruence.
      * intros Hnone.
        assert (Hrow : In (p, sigs) atsSignatures)
          by (rewrite Et; apply in_or_app; right; left; reflexivity).
        apply Hnone in Hrow. cbn [snd] in Hrow. congruence.
    + split; [intros _; exact Hnone | intros _; exact Er].
  - intros before platform signatures after Et Hf Hb. rewrite Et.
    apply firstPlatform_at; assumption.
  - destruct (firstPlatform_spec url pageHTML atsSignatures)
      as [[before [p [sigs [after [Et [Ef [Hb Er]]]]]]] | [Hnone Er]].
    + right. rewrite Er, Et, map_app, in_app_iff. right. left. reflexivity.
    + left. symmetry. exact Er.
  - unfold Session.isGreenhouseOrIframe. rewrite orb_false_r. intros Hg.
    apply includes_lower in Hg. change (toLowerCase "greenhouse.io") with "greenhouse.io" in Hg.
    fold url in Hg.
    destruct (found url pageHTML
                    [ "workday.com"; "wd1.workdaycdn.com"; "[data-automation-id]";
                      "workday-application" ]) eqn:Ew.
    + left. unfold atsSignatures. cbn [firstPlatform]. unfold found in Ew. rewrite Ew.
      reflexivity.
    + right. unfold atsSignatures. cbn [firstPlatform]. unfold found in Ew. rewrite Ew.
      cbn [existsb]. rewrite Hg. reflexivity.
Qed.

End Platform.

(** ** The writer for text fields *)

Section TextFields.
Import Str Dom Writers TextWriters Props.






End TextFields.

(** ** Elements recorded as forms *)

Section RecordedOnce.
Import Dom Discovery Props.











End RecordedOnce.

(** ** Writers called a second time *)

Section Settled.
Import Str Writers TextWriters.

(** The writers for selects and radio buttons settle.  The option that
    [fillSelectField] selects depends on the options and the value, not
    on the option selected before, so that a second call with the same
    value leaves the control as the first call left it, though it
    dispatches the field events again; a second call of
    [fillRadioField] changes nothing and dispatches nothing. *)
Theorem select_and_radio_writers_settle (value : string) :
  (forall (opts : list OptionEl) (i j : Z),
      snd (fillSelectField (mkSelect opts i) value)
      = snd (fillSelectField (mkSelect opts j) value)
      /\ (fst (fillSelectField (mkSelect opts i) value) = mkSelect opts i
          /\ fst (fillSelectField (mkSelect opts j) value) = mkSelect opts j
          \/ fst (fillSelectField (mkSelect opts i) value)
             = fst (fillSelectField (mkSelect opts j) value)))
  /\ (forall element : SelectEl,
         fillSelectField (fst (fillSelectField element value)) value
         = (fst (fillSelectField element value), snd (fillSelectField element value)))
  /\ (forall element : RadioEl,
         fillRadioField (fst (fillRadioField element value)) value
         = (fst (fillRadioField element value), [Focus; Blur])).
Proof.
  split; [|split].
  - intros opts i j. unfold fillSelectField, validOptions. cbn [options].
    destruct (shouldSkipDropdownFill value _); [split; [reflexivity | left; split; reflexivity]|].
    destruct (matchOption _ value) as [[index o]|];
      [split; [reflexivity | right; reflexivity]
      | split; [reflexivity | left; split; reflexivity]].
  - intros [opts i].
    destruct (shouldSkipDropdownFill value (validOptions (mkSelect opts i))) eqn:Es.
    + assert (E1 : fillSelectField (mkSelect opts i) value = (mkSelect opts i, [Focus; Blur]))
        by (unfold fillSelectField; rewrite Es; reflexivity).
      rewrite E1. cbn [fst snd]. exact E1.
    + destruct (matchOption (validOptions (mkSelect opts i)) value) as [[index o]|] eqn:Em.
      * assert (E1 : fillSelectField (mkSelect opts i) value
                     = (mkSelect opts (Z.of_nat index),
                        (Focus :: triggerFieldEvents ++ [Blur])%list))
          by (unfold fillSelectField; rewrite Es, Em; reflexivity).
        rewrite E1. cbn [fst snd]. unfold fillSelectField.
        change (validOptions (mkSelect opts (Z.of_nat index)))
          with (validOptions (mkSelect opts i)).
        rewrite Es, Em. reflexivity.
      * assert (E1 : fillSelectField (mkSelect opts i) value
                     = (mkSelect opts i, [Focus; Blur]))
          by (unfold fillSelectField; rewrite Es, Em; reflexivity).
        rewrite E1. cbn [fst snd]. exact E1.
  - intros [v c n]. unfold fillRadioField, shouldCheck. cbn [r_value checked nextSiblingText].
    destruct c.
    + rewrite andb_false_r. cbn [fst r_value checked nextSiblingText].
      rewrite andb_false_r. reflexivity.
    + rewrite andb_true_r.
      destruct (String.eqb (toLowerCase v) (toLowerCase value)
                || match n with
                   | Some text => includes (toLowerCase text) (toLowerCase value)
                   | None => false
                   end) eqn:E; cbn [fst r_value checked nextSiblingText].
      * rewrite andb_false_r. reflexivity.
      * rewrite E. reflexivity.
Qed.

End Settled.

(** ** Selectors made of an id *)

Section IdSelector.
Import Str Dom Css Selector Props.

Lemma unescape_hex (c : ascii) (rest : string) :
  (nat_of_ascii c =? 0)%nat = false ->
  unescape Normal (("\" ++ hex_of (nat_of_ascii c) ++ " ") ++ rest)
  = cons_opt (Esc c) (unescape Normal rest).
Proof.
  destruct c as [[] [] [] [] [] [] [] []]; intros H;
    try discriminate H; reflexivity.
Qed.

Lemma unescape_plain (c : ascii) (rest : string) :
  plain_ident_char c = true ->
  unescape Normal (String c "" ++ rest) = cons_opt (Plain c) (unescape Normal rest).
Proof.
  intros H. cbn [append unescape].
  destruct (Ascii.eqb_spec c "\") as [-> | _]; [discriminate H | reflexivity].
Qed.

Lemma unescape_backslash (c : ascii) (rest : string) :
  (nat_of_ascii c =? 0)%nat = false ->
  ((1 <=? nat_of_ascii c)%nat && (nat_of_ascii c <=? 31)%nat)
  || (nat_of_ascii c =? 127)%nat = false ->
  plain_ident_char c = false ->
  unescape Normal (String "\" (String c "") ++ rest)
  = cons_opt (Esc c) (unescape Normal rest).
Proof.
  destruct c as [[] [] [] [] [] [] [] []]; intros H0 H1 H2;
    try discriminate H0; try discriminate H1; try discriminate H2; reflexivity.
Qed.

Lemma unescape_escape_char (i len : nat) (first c : ascii) (rest : string) :
  (nat_of_ascii c =? 0)%nat = false ->
  unescape Normal (escape_char i len first c ++ rest)
  = cons_opt (escaped_item i len first c) (unescape Normal rest).
Proof.
  intros Hc. unfold escape_char, escaped_item. rewrite Hc.
  destruct (((1 <=? nat_of_ascii c)%nat && (nat_of_ascii c <=? 31)%nat)
            || (nat_of_ascii c =? 127)%nat) eqn:Hctl.
  { apply unescape_hex, Hc. }
  destruct ((i =? 0)%nat && is_digit c).
  { apply unescape_hex, Hc. }
  destruct ((i =? 1)%nat && is_digit c && Ascii.eqb first "-").
  { apply unescape_hex, Hc. }
  destruct ((i =? 0)%nat && (len =? 1)%nat && Ascii.eqb c "-") eqn:Hlone.
  { apply andb_true_iff in Hlone as [_ Hlone].
    apply Ascii.eqb_eq in Hlone. subst c. reflexivity. }
  destruct (plain_ident_char c) eqn:Hplain.
  - apply unescape_plain, Hplain.
  - apply unescape_backslash; assumption.
Qed.


Lemma unescape_escape_go (s : string) :
  forall (i len : nat) (first : ascii) (rest : string),
    no_nul s = true ->
    unescape Normal (escape_go i len first s ++ rest)
    = match unescape Normal rest with
      | Some items => Some (List.app (escaped_items i len first s) items)
      | None => None
      end.
Proof.
  induction s as [|c s IH]; intros i len first rest H.
  - cbn. destruct (unescape Normal rest); reflexivity.
  - cbn [escape_go escaped_items].
    unfold no_nul in H. cbn [forallb_string] in H.
    apply andb_true_iff in H as [Hc Hs]. apply negb_true_iff in Hc.
    rewrite append_assoc, unescape_escape_char by exact Hc.
    rewrite IH by exact Hs.
    destruct (unescape Normal rest); reflexivity.
Qed.

Lemma escaped_item_cases (i len : nat) (first c : ascii) :
  escaped_item i len first c = Esc c
  \/ (escaped_item i len first c = Plain c
      /\ plain_ident_char c = true
      /\ (i =? 0)%nat && is_digit c = false
      /\ (i =? 1)%nat && is_digit c && Ascii.eqb first "-" = false
      /\ (i =? 0)%nat && (len =? 1)%nat && Ascii.eqb c "-" = false).
Proof.
  unfold escaped_item.
  destruct (((1 <=? nat_of_ascii c)%nat && (nat_of_ascii c <=? 31)%nat)
            || (nat_of_ascii c =? 127)%nat); [left; reflexivity|].
  destruct ((i =? 0)%nat && is_digit c); [left; reflexivity|].
  destruct ((i =? 1)%nat && is_digit c && Ascii.eqb first "-"); [left; reflexivity|].
  destruct ((i =? 0)%nat && (len =? 1)%nat && Ascii.eqb c "-"); [left; reflexivity|].
  destruct (plain_ident_char c); [right; repeat split; reflexivity | left; reflexivity].
Qed.

Lemma escaped_items_ident (s : string) :
  forall i len first, forallb ident_char (escaped_items i len first s) = true.
Proof.
  induction s as [|c s IH]; intros i len first; [reflexivity|].
  cbn [escaped_items forallb]. rewrite IH, andb_true_r.
  destruct (escaped_item_cases i len first c) as [E | (E & Hp & _)];
    rewrite E; [reflexivity | exact Hp].
Qed.

Lemma escaped_items_chars (s : string) :
  forall i len first, chars (escaped_items i len first s) = s.
Proof.
  unfold chars.
  induction s as [|c s IH]; intros i len first; [reflexivity|].
  cbn [escaped_items map string_of_list_ascii]. rewrite IH. f_equal.
  destruct (escaped_item_cases i len first c) as [E | [E _]]; rewrite E; reflexivity.
Qed.

Lemma run_ident (items : list item) :
  forall (st : pstate) (acc : list item),
    cur_mode st = InId acc ->
    forallb ident_char items = true ->
    run st items = Some (set_mode st (InId (List.app (rev items) acc))).
Proof.
  induction items as [|i items IH]; intros st acc Hm Hi.
  - destruct st. cbn in Hm. subst. reflexivity.
  - cbn [forallb] in Hi. apply andb_true_iff in Hi as [Hi Hrest].
    cbn [run]. unfold step. rewrite Hm, Hi.
    rewrite (IH _ (i :: acc)) by (reflexivity || exact Hrest).
    cbn [rev]. rewrite <- app_assoc. reflexivity.
Qed.

Lemma ident_of_escaped (id : string) :
  truthy id = true ->
  ident_of (rev (escaped_items 0 (String.length id)
                   (match id with String first _ => first | EmptyString => Ascii.zero end) id))
  = Some id.
Proof.
  destruct id as [|first tl]; [discriminate|]. intros _.
  unfold ident_of. rewrite rev_involutive.
  pose proof (escaped_items_chars (String first tl) 0
                (String.length (String first tl)) first) as Hchars.
  revert Hchars. cbn [escaped_items].
  set (len := String.length (String first tl)).
  destruct (escaped_item_cases 0 len first first) as [E | (E & _ & Hd & _ & Hl)];
    rewrite E; intros Hchars.
  { rewrite Hchars. reflexivity. }
  cbn [Nat.eqb andb] in Hd, Hl. rewrite Hd.
  destruct (Ascii.eqb first "-") eqn:Hh; [|rewrite Hchars; reflexivity].
  rewrite andb_true_r in Hl.
  destruct tl as [|c2 tl']; [discriminate Hl|].
  revert Hchars. cbn [escaped_items].
  destruct (escaped_item_cases 1 len first c2) as [E2 | (E2 & _ & _ & Hd2 & _)];
    rewrite E2; intros Hchars.
  { rewrite Hchars. reflexivity. }
  cbn [Nat.eqb andb] in Hd2. rewrite Hh, andb_true_r in Hd2. rewrite Hd2, Hchars.
  reflexivity.
Qed.

Lemma parse_escaped_id (id : string) :
  truthy id = true -> no_nul id = true ->
  parse ("#" ++ escape id) = Some [mkCompound None [ById id]].
Proof.
  intros Ht Hn. unfold parse.
  assert (Hun : unescape Normal ("#" ++ escape id)
                = Some (Plain "#" :: escaped_items 0 (String.length id)
                          (match id with String first _ => first | EmptyString => Ascii.zero end)
                          id)).
  { change (unescape Normal ("#" ++ escape id))
      with (cons_opt (Plain "#") (unescape Normal (escape id))).
    destruct id as [|first tl]; [discriminate|].
    unfold escape. rewrite <- (append_empty (escape_go _ _ _ _)).
    rewrite unescape_escape_go by exact Hn.
    cbn [unescape cons_opt]. rewrite app_nil_r. reflexivity. }
  rewrite Hun.
  change (run (mkP [] None [] Begin) (Plain "#" :: ?l))
    with (run (mkP [] None [] (InId [])) l).
  rewrite (run_ident _ _ []) by (reflexivity || apply escaped_items_ident).
  rewrite app_nil_r. unfold finish, close_ident, set_mode. cbn [cur_mode].
  rewrite (ident_of_escaped id Ht). reflexivity.
Qed.

(** An element whose id passes the validity test, holds no character of
    code 0 and belongs to no other element of the document is resolved by
    that id: the selector is the number sign and the escaped id, and the
    query for it finds this element and nothing else. *)
Theorem id_selector_resolves_to_its_element (d : Document) (element : Element) :
  truthy (el_id element) = true ->
  isValidCSSSelector (el_id element) = true ->
  no_nul (el_id element) = true ->
  only_with_its_id d element ->
  getElementSelector d element = Some ("#" ++ Css.escape (el_id element))
  /\ Css.querySelectorAll d ("#" ++ Css.escape (el_id element)) = Some [element].
Proof.
  intros Ht Hv Hn Honly.
  assert (Hq : Css.querySelectorAll d ("#" ++ Css.escape (el_id element))
               = Some [element]).
  { unfold Css.querySelectorAll. rewrite (parse_escaped_id _ Ht Hn).
    f_equal. rewrite <- Honly. apply filter_ext. intros x.
    unfold matches. cbn. destruct (getAttribute x "id") as [i|]; [|reflexivity].
    destruct (String.eqb i (el_id element)); reflexivity. }
  split; [|exact Hq].
  unfold getElementSelector, unique. rewrite Ht, Hv, Hq. reflexivity.
Qed.

(** The theorem at an input with the id [applicant-email]. *)
Lemma id_selector_resolves_to_its_element_witness :
  getElementSelector Examples.idDoc Examples.with_id = Some "#applicant-email"
  /\ Css.querySelectorAll Examples.idDoc "#applicant-email" = Some [Examples.with_id].
Proof.
  apply (id_selector_resolves_to_its_element Examples.idDoc Examples.with_id);
    vm_compute; reflexivity.
Defined.

End IdSelector.

(** ** The background script and the tabs it takes for ready *)

Section TabReadiness.
Import Str Background Props.

Lemma get_set (tabId other : Z) (s : Status) (m : TabStatus) :
  map_get other (map_set tabId s m) = if (tabId =? other)%Z then Some s else map_get other m.
Proof.
  induction m as [|[k v] m IH]; cbn [map_set map_get].
  - destruct (tabId =? other)%Z; reflexivity.
  - destruct (k =? tabId)%Z eqn:Ek; cbn [map_get].
    + apply Z.eqb_eq in Ek. subst k.
      destruct (tabId =? other)%Z; reflexivity.
    + destruct (k =? other)%Z eqn:Eo; [|exact IH].
      apply Z.eqb_eq in Eo. subst k. rewrite Z.eqb_sym, Ek. reflexivity.
Qed.

Lemma get_delete (tabId other : Z) (m : TabStatus) :
  map_get other (map_delete tabId m) = if (tabId =? other)%Z then None else map_get other m.
Proof.
  unfold map_delete.
  induction m as [|[k v] m IH]; cbn [filter map_get fst].
  - destruct (tabId =? other)%Z; reflexivity.
  - destruct (k =? tabId)%Z eqn:Ek; cbn [negb map_get].
    + rewrite IH. apply Z.eqb_eq in Ek. subst k.
      destruct (tabId =? other)%Z; reflexivity.
    + rewrite IH. destruct (k =? other)%Z eqn:Eo; [|reflexivity].
      apply Z.eqb_eq in Eo. subst k. rewrite Z.eqb_sym, Ek. reflexivity.
Qed.

(** One event: the tab is ready after it when the event announces it,
    not ready when the event clears it, and as before otherwise. *)
Lemma isReady_on_event (m : TabStatus) (e : Event) (tabId : Z) :
  isReady (on_event m e) tabId
  = if announces tabId e then true
    else if clears tabId e then false
    else isReady m tabId.
Proof.
  unfold isReady.
  destruct e as [action [id|] now | id status url | id | | | id now];
    cbn [on_event announces clears].
  - unfold onMessage.
    destruct (String.eqb action "contentScriptReady"); cbn [andb].
    + rewrite get_set. destruct (id =? tabId)%Z; reflexivity.
    + destruct (String.eqb action "ping"); [|reflexivity].
      rewrite get_set. destruct (id =? tabId)%Z eqn:E; [|reflexivity].
      apply Z.eqb_eq in E. subst id. cbn [ready].
      destruct (map_get tabId m); reflexivity.
  - unfold onMessage.
    destruct (String.eqb action "contentScriptReady"); [reflexivity|].
    destruct (String.eqb action "ping"); reflexivity.
  - assert (Hurl : truthy url && isValidUrl url = isValidUrl url).
    { unfold isValidUrl. destruct (truthy url); reflexivity. }
    rewrite <- andb_assoc, Hurl.
    destruct (String.eqb status "complete" && isValidUrl url); cbn [andb];
      [|reflexivity].
    rewrite get_delete. destruct (id =? tabId)%Z; reflexivity.
  - rewrite get_delete. destruct (id =? tabId)%Z; reflexivity.
  - reflexivity.
  - reflexivity.
  - rewrite get_set. destruct (id =? tabId)%Z; reflexivity.
Qed.

(** The background script takes a tab for ready exactly when the
    content script of the tab has announced itself, or has answered a
    ping of the background script, and the tab has since neither
    finished loading a page, nor been closed, nor the script started
    anew.  The keep-alive pings of a content script never make its tab
    ready: a content script that only pings, after its tab was
    forgotten, stays unknown. *)
Theorem tab_is_ready_since_its_last_announcement (events : list Event) (tabId : Z) :
  (isReady (after events) tabId = true
   <-> exists before e later,
         events = (before ++ e :: later)%list
         /\ announces tabId e = true
         /\ forallb (fun e' => negb (clears tabId e')) later = true)
  /\ (forall now, isReady (after (events ++ [Message "ping" (Some tabId) now])) tabId
                  = isReady (after events) tabId).
Proof.
  split.
  - unfold after. induction events as [|e events IH] using rev_ind.
    + cbn. split; [discriminate|].
      intros (before & e & later & H & _). destruct before; discriminate H.
    + rewrite fold_left_app. cbn [fold_left]. rewrite isReady_on_event.
      destruct (announces tabId e) eqn:Ea.
      { split; [intros _|reflexivity]. exists events, e, []. auto. }
      destruct (clears tabId e) eqn:Ec.
      { split; [discriminate|].
        intros (before & e' & later & H & Ha & Hl).
        destruct later as [|l later _] using rev_ind.
        - apply app_inj_tail in H as [_ <-]. congruence.
        - rewrite app_comm_cons, app_assoc in H.
          apply app_inj_tail in H as [_ <-].
          rewrite forallb_app in Hl. cbn [forallb] in Hl.
          rewrite Ec in Hl. cbn in Hl. rewrite andb_false_r in Hl. discriminate. }
      rewrite IH. split.
      * intros (before & e' & later & H & Ha & Hl).
        exists before, e', (later ++ [e])%list. subst events.
        rewrite <- app_assoc. split; [reflexivity|]. split; [exact Ha|].
        rewrite forallb_app, Hl. cbn. rewrite Ec. reflexivity.
      * intros (before & e' & later & H & Ha & Hl).
        destruct later as [|l later _] using rev_ind.
        { apply app_inj_tail in H as [_ <-]. congruence. }
        rewrite app_comm_cons, app_assoc in H.
        apply app_inj_tail in H as [H <-].
        exists before, e', later. split; [exact H|]. split; [exact Ha|].
        rewrite forallb_app in Hl. apply andb_true_iff in Hl as [Hl _]. exact Hl.
  - intros now. unfold after. rewrite fold_left_app. cbn [fold_left].
    rewrite isReady_on_event. cbn [announces clears].
    reflexivity.
Qed.

End TabReadiness.
